(** * yt-music-downloader: the wizard's controller and its commands

    A shallow embedding of [main.go]: the Bubble Tea model and its
    [Update] function, the commands it dispatches (search, track list,
    lyrics, tagged and tagless download) and the filename sanitizer,
    followed by the properties of the specification that concern them.

    Go values are modelled as follows.
    - [string] is a byte string: one [ascii] per byte.
    - [int] is a [Z] kept in the 64-bit range by [Go.wrap64].
    - a slice is a [list]; an index outside it is a run-time panic.
    - [interface{}] holding one of finitely many dynamic types is an
      inductive type; an unchecked type assertion on the wrong
      constructor is a run-time panic.
    - [error] is the message it carries; [option] adds [nil]. *)

From Stdlib Require Import ZArith Lia Bool Ascii String DecimalString.
From stdpp Require Import base list strings.

#[local] Set Warnings "-register-all".
#[local] Open Scope string_scope.
#[local] Open Scope Z_scope.

(** ** Panics

    A Go computation either returns or panics.  The two panics the
    embedded code can raise are an index outside a slice and an
    unchecked type assertion on the wrong dynamic type. *)

Inductive Fault : Set :=
| IndexOutOfRange
| InterfaceConversion.

Inductive Result (A : Type) : Type :=
| Done (a : A)
| Panic (f : Fault).
Arguments Done {A} a.
Arguments Panic {A} f.

#[export] Instance Result_ret : MRet Result := fun A a => Done a.
#[export] Instance Result_bind : MBind Result := fun A B k r =>
  match r with
  | Done a => k a
  | Panic f => Panic f
  end.

(** ** Go primitives *)

Module Go.

(** Two's-complement wrap-around of Go's 64-bit [int]. *)
Definition wrap64 (z : Z) : Z := (z + 2 ^ 63) mod 2 ^ 64 - 2 ^ 63.

Definition add (a b : Z) : Z := wrap64 (a + b).
Definition sub (a b : Z) : Z := wrap64 (a - b).

(** [a / b] on [int]: truncated towards zero. *)
Definition div (a b : Z) : Z := wrap64 (Z.quot a b).

(** [s[i]] on a slice. *)
Definition index {A} (s : list A) (i : Z) : Result A :=
  if i <? 0 then Panic IndexOutOfRange
  else match s !! Z.to_nat i with
       | Some a => Done a
       | None => Panic IndexOutOfRange
       end.

(** [s[i] = a] on a slice. *)
Definition store {A} (s : list A) (i : Z) (a : A) : Result (list A) :=
  if i <? 0 then Panic IndexOutOfRange
  else if (Z.to_nat i <? length s)%nat then Done (<[Z.to_nat i := a]> s)
  else Panic IndexOutOfRange.

(** [len(s)] *)
Definition len {A} (s : list A) : Z := Z.of_nat (length s).

(** [strings.HasPrefix] *)
Definition HasPrefix (s p : string) : bool := String.prefix p s.

Fixpoint mapBytes (f : ascii -> ascii) (s : string) : string :=
  match s with
  | EmptyString => EmptyString
  | String c s' => String (f c) (mapBytes f s')
  end.

Definition lowerByte (c : ascii) : ascii :=
  let n := N_of_ascii c in
  if ((65 <=? n) && (n <=? 90))%N then ascii_of_N (n + 32) else c.

(** [strings.ToLower] on the ASCII letters.  Bytes of multi-byte runes
    are left alone. *)
Definition ToLower (s : string) : string := mapBytes lowerByte s.

(** [fmt.Sprintf("%d", n)] *)
Definition itoa (n : Z) : string := NilZero.string_of_int (Z.to_int n).

(** [strings.NewReplacer] when every old and new string is a single
    byte: the replacer is a byte-to-byte table in which the earliest
    pair for a byte wins, applied to every byte of the argument. *)
Definition byteReplacer := list (ascii * ascii).

Fixpoint replaceByte (r : byteReplacer) (b : ascii) : ascii :=
  match r with
  | [] => b
  | (o, n) :: r' => if Ascii.eqb o b then n else replaceByte r' b
  end.

Definition Replace (r : byteReplacer) (s : string) : string :=
  mapBytes (replaceByte r) s.

(** [filepath.Join] of two clean, non-empty components on a platform
    whose separator is [/]. *)
Definition Join (dir name : string) : string := dir ++ "/" ++ name.

(** [strings.TrimSpace] for the ASCII white space (tab, line feed,
    vertical tab, form feed, carriage return, space). *)
Definition isSpace (c : ascii) : bool :=
  let n := N_of_ascii c in
  (((9 <=? n) && (n <=? 13)) || (n =? 32))%N.

Fixpoint trimLeft (s : string) : string :=
  match s with
  | EmptyString => EmptyString
  | String c s' => if isSpace c then trimLeft s' else s
  end.

Fixpoint trimRight (s : string) : string :=
  match s with
  | EmptyString => EmptyString
  | String c s' =>
      match trimRight s' with
      | EmptyString => if isSpace c then EmptyString else String c EmptyString
      | r => String c r
      end
  end.

Definition TrimSpace (s : string) : string := trimRight (trimLeft s).

(** [strings.Split(s, sep)] for a one-byte separator. *)
Fixpoint Split (s : string) (sep : ascii) : list string :=
  match s with
  | EmptyString => [EmptyString]
  | String c s' =>
      if Ascii.eqb c sep then EmptyString :: Split s' sep
      else match Split s' sep with
           | h :: t => String c h :: t
           | [] => [String c EmptyString]
           end
  end.

End Go.

(** ** Constants *)

Definition mainDir : string := "GoMusicDownloader".
Definition downloadsDir : string := "downloads".
Definition tempDir : string := "temp".
Definition logsDir : string := "logs".

(** ** The filename sanitizer *)

Definition unsafeBytes : list ascii :=
  ["/"; "\"; ":"; "*"; "?"; "034"; "<"; ">"; "|"]%char.

Definition sanitizeTable : Go.byteReplacer :=
  [("/", "-"); ("\", "-"); (":", "-"); ("*", "-"); ("?", "-");
   ("034", "'"); ("<", "-"); (">", "-"); ("|", "-")]%char.

Definition sanitizeFilename (name : string) : string :=
  Go.Replace sanitizeTable name.

(** ** Documents decoded from yt-dlp and MusicBrainz *)

Module ytDlpVideoInfo.
Record t : Set := mk { ID : string; Title : string; Uploader : string; Channel : string }.
End ytDlpVideoInfo.
Abbreviation ytDlpVideoInfo := ytDlpVideoInfo.t.

Module MBReleaseGroup.
Record t : Set := mk { ID : string; PrimaryType : string }.
End MBReleaseGroup.
Abbreviation MBReleaseGroup := MBReleaseGroup.t.

Module MBArtist.
Record t : Set := mk { Name : string; JoinPhrase : string }.
End MBArtist.
Abbreviation MBArtist := MBArtist.t.

Module MBGenre.
Record t : Set := mk { Name : string }.
End MBGenre.
Abbreviation MBGenre := MBGenre.t.

Module MBRecording.
Record t : Set := mk { Genres : list MBGenre }.
End MBRecording.
Abbreviation MBRecording := MBRecording.t.

Module MBTrack.
Record t : Set := mk {
  ID : string;
  Title : string;
  Number : string;
  Length : Z (* in milliseconds *); Recording : MBRecording }.
End MBTrack.
Abbreviation MBTrack := MBTrack.t.

Module MBMedia.
Record t : Set := mk { Format : string; Tracks : list MBTrack }.
End MBMedia.
Abbreviation MBMedia := MBMedia.t.

Module MBRelease.
Record t : Set := mk {
  ID : string;
  Title : string;
  ArtistCredit : list MBArtist;
  Date : string;
  Media : list MBMedia;
  ReleaseGroup : MBReleaseGroup }.
End MBRelease.
Abbreviation MBRelease := MBRelease.t.

Module LrclibResponse.
Record t : Set := mk { PlainLyrics : string }.
End LrclibResponse.
Abbreviation LrclibResponse := LrclibResponse.t.

(** ** Items

    [item.meta] is an [interface{}].  The program stores nothing in it
    for a video, an [MBRelease] for a release and an [MBTrack] for a
    track; [itemType] is declared but never written or read. *)

Inductive Meta : Set :=
| MetaNil
| MetaRelease (r : MBRelease)
| MetaTrack (t : MBTrack).

Module Item.
Record item : Set := mk {
  title : string;
  desc : string;
  id : string;
  url : string;
  artist : string;
  itemType : string;
  meta : Meta }.

(** The zero value. *)
Definition zero : item := mk "" "" "" "" "" "" MetaNil.

Definition Title (i : item) : string := title i.
Definition Description (i : item) : string := desc i.
Definition FilterValue (i : item) : string := title i ++ " " ++ desc i.
End Item.
Abbreviation item := Item.item.

(** [x.(MBRelease)] and [x.(MBTrack)]: the single-result form of the type
    assertion, which panics when the dynamic type differs. *)
Definition assertMBRelease (x : Meta) : Result MBRelease :=
  match x with
  | MetaRelease r => Done r
  | _ => Panic InterfaceConversion
  end.

Definition assertMBTrack (x : Meta) : Result MBTrack :=
  match x with
  | MetaTrack t => Done t
  | _ => Panic InterfaceConversion
  end.

Module finalTags.
Record t : Set := mk {
  Title : string;
  Artist : string;
  Album : string;
  Date : string;
  TrackNumber : string;
  AlbumArtist : string;
  Lyrics : string;
  DurationSec : Z }.
End finalTags.
Abbreviation finalTags := finalTags.t.

(** Go's [error] values are represented by their message. *)
Definition goerror : Set := string.

(** ** Bubble Tea messages and commands *)

Module tea.

(** The key types the program distinguishes, the arrow and editing
    keys, and [KeyOther] for any further key type together with its
    entry in Bubble Tea's table of key names. *)
Inductive KeyType : Set :=
| KeyRunes
| KeyEnter
| KeyEsc
| KeyCtrlC
| KeyUp
| KeyDown
| KeyBackspace
| KeyOther (name : string).

Record Key : Set := mkKey {
  Typ : KeyType;
  Runes : string;
  Alt : bool;
  Paste : bool }.

Definition keyName (t : KeyType) : string :=
  match t with
  | KeyRunes => "runes"
  | KeyEnter => "enter"
  | KeyEsc => "esc"
  | KeyCtrlC => "ctrl+c"
  | KeyUp => "up"
  | KeyDown => "down"
  | KeyBackspace => "backspace"
  | KeyOther name => name
  end.

(** [Key.String]: the text of a rune key (in brackets when pasted),
    the name of any other key, with [alt+] in front when Alt is held. *)
Definition String (k : Key) : string :=
  (if Alt k then "alt+" else "") ++
  match Typ k with
  | KeyRunes => if Paste k then "[" ++ Runes k ++ "]" else Runes k
  | t => keyName t
  end.

Definition isEnter (k : Key) : bool :=
  match Typ k with KeyEnter => true | _ => false end.
Definition isEsc (k : Key) : bool :=
  match Typ k with KeyEsc => true | _ => false end.
Definition isCtrlC (k : Key) : bool :=
  match Typ k with KeyCtrlC => true | _ => false end.

(** A plain key press of the given type, and typed text. *)
Definition press (t : KeyType) : Key := mkKey t "" false false.
Definition runes (s : string) : Key := mkKey KeyRunes s false false.

End tea.

Inductive Msg : Set :=
| WindowSizeMsg (Width Height : Z)
| KeyMsg (k : tea.Key)
| ytDlpCheckResultMsg (path : string) (err : option goerror)
| ffmpegCheckResultMsg (path : string) (err : option goerror)
| urlInfoFetchedMsg (ytItem : item) (err : option goerror)
| searchFinishedMsg (ytItems mbItems : list item) (err : option goerror)
| mbSearchFinishedMsg (items : list item) (err : option goerror)
| tracklistFinishedMsg (items : list item) (err : option goerror)
| downloadFinishedMsg (filename : string) (err : option goerror)
| resetMsg
| spinnerTickMsg
| widgetMsg  (* a message private to a widget, such as a cursor blink *).

(** The commands [Update] hands to [tea.Batch].  [widget] stands for the
    (possibly nil) command returned by a widget's own [Update], when it
    is not [tea.Quit]. *)
Module Cmd.
Inductive t : Set :=
| Quit
| spinnerTick
| textinputBlink
| inputFocus
| widget
| checkYtDlp
| checkFfmpeg
| getURLInfo (ytDlpPath query : string)
| searchMusicBrainz (query : string)
| search (ytDlpPath query : string)
| getTracklist (releaseID : string)
| download (ytDlpPath ffmpegPath : string) (selectedYT selectedMB : item)
           (tags : finalTags)
| simpleDownload (ytDlpPath ffmpegPath : string) (selectedYT : item)
| reset.

Definition isDownload (c : t) : bool :=
  match c with
  | download _ _ _ _ _ | simpleDownload _ _ _ => true
  | _ => false
  end.
End Cmd.
Abbreviation Cmd := Cmd.t.

(** ** Widgets

    The text input, list and spinner come from the Bubbles library.  The
    model keeps of each widget the part the program reads: a text
    input's value and focus, a list's items and selection.  What the
    library decides on its own (how a key edits a value or moves the
    selection, filtering and pagination included) is a parameter. *)

Module textinput.
Record Model : Set := mk {
  value : string;
  focus : bool;
  Placeholder : string;
  Width : Z;
  CharLimit : Z }.

Definition New : Model := mk "" false "" 0 0.
Definition Value (m : Model) : string := value m.
Definition Focus (m : Model) : Model :=
  mk (value m) true (Placeholder m) (Width m) (CharLimit m).
Definition Blur (m : Model) : Model :=
  mk (value m) false (Placeholder m) (Width m) (CharLimit m).
Definition withValue (v : string) (m : Model) : Model :=
  mk v (focus m) (Placeholder m) (Width m) (CharLimit m).
Definition withPlaceholder (p : string) (m : Model) : Model :=
  mk (value m) (focus m) p (Width m) (CharLimit m).
Definition withWidth (w : Z) (m : Model) : Model :=
  mk (value m) (focus m) (Placeholder m) w (CharLimit m).
Definition withCharLimit (n : Z) (m : Model) : Model :=
  mk (value m) (focus m) (Placeholder m) (Width m) n.
End textinput.

Module blist.
(** [index] is the position in [items] of the selected item; a
    position outside [items] means that nothing is selected. *)
Record Model : Set := mk {
  Title : string;
  items : list item;
  index : Z;
  width : Z;
  height : Z }.

(** [list.New(items, delegate, 0, 0)] *)
Definition New (items : list item) : Model := mk "" items 0 0 0.

Definition withTitle (t : string) (m : Model) : Model :=
  mk t (items m) (index m) (width m) (height m).
Definition withIndex (i : Z) (m : Model) : Model :=
  mk (Title m) (items m) i (width m) (height m).

(** [SelectedItem]: nil unless the index falls inside the items. *)
Definition SelectedItem (m : Model) : option item :=
  if index m <? 0 then None else items m !! Z.to_nat (index m).
End blist.

Module spinner.
Record Model : Set := mk { frame : Z }.
Definition New : Model := mk 0.
End spinner.

Class Bubbles : Type := {
  (** the value of a focused text input after a key *)
  inputOnKey : tea.Key -> textinput.Model -> string;
  (** the value [SetValue] stores (its argument, sanitised) *)
  inputOnSet : string -> textinput.Model -> string;
  (** the selection of a list after a key *)
  listOnKey : tea.Key -> blist.Model -> Z;
  (** whether a key is one the list answers with [tea.Quit] (by default
      it binds [q] and [esc] to quit while it is not filtering) *)
  listQuits : tea.Key -> blist.Model -> bool;
  (** the selection of a list after [SetSize] *)
  listOnSize : Z -> Z -> blist.Model -> Z;
  (** the spinner after a tick *)
  spinnerOnTick : spinner.Model -> spinner.Model }.

Section Widgets.
Context `{Bubbles}.

Definition textinput_SetValue (s : string) (m : textinput.Model) : textinput.Model :=
  textinput.withValue (inputOnSet s m) m.

(** [textinput.Model.Update]: ignored without focus; only a key
    changes the value. *)
Definition textinput_Update (msg : Msg) (m : textinput.Model) : textinput.Model :=
  if textinput.focus m then
    match msg with
    | KeyMsg k => textinput.withValue (inputOnKey k m) m
    | _ => m
    end
  else m.

Definition list_SetSize (w h : Z) (m : blist.Model) : blist.Model :=
  blist.mk (blist.Title m) (blist.items m) (listOnSize w h m) w h.

(** [list.Model.Update]: only a key changes the selection, and only a
    key can make the list ask to quit. *)
Definition list_Update (msg : Msg) (m : blist.Model) : blist.Model * Cmd :=
  match msg with
  | KeyMsg k =>
      (blist.withIndex (listOnKey k m) m,
       if listQuits k m then Cmd.Quit else Cmd.widget)
  | _ => (m, Cmd.widget)
  end.

Definition spinner_Update (msg : Msg) (m : spinner.Model) : spinner.Model :=
  match msg with
  | spinnerTickMsg => spinnerOnTick m
  | _ => m
  end.

End Widgets.


(** ** The model *)

Inductive state : Set :=
| stateCheckingDeps
| stateInput
| stateFetchingURLInfo
| stateSearching
| stateSelectYT
| stateSelectMB
| stateSelectTrack
| stateEditTags
| stateDownloading
| stateShowSuccess
| stateConfirmSkipMB
| stateError.

Module model.
Record t : Set := mk {
  state : state;
  input : textinput.Model;
  tagInputs : list textinput.Model;
  focusIndex : Z;
  spinner : spinner.Model;
  ytResults : blist.Model;
  mbResults : blist.Model;
  tracklist : blist.Model;
  selectedYT : item;
  selectedMB : item;
  selectedTrack : item;
  statusMsg : string;
  error : option goerror;
  ytDlpPath : string;
  ffmpegPath : string;
  width : Z;
  height : Z;
  lastFile : string }.

(** Field assignments: [set_f v m] is [m] after [m.f = v]. *)
Definition set_state v (m : t) : t :=
  mk v (input m) (tagInputs m) (focusIndex m) (spinner m) (ytResults m)
     (mbResults m) (tracklist m) (selectedYT m) (selectedMB m)
     (selectedTrack m) (statusMsg m) (error m) (ytDlpPath m) (ffmpegPath m)
     (width m) (height m) (lastFile m).
Definition set_input v (m : t) : t :=
  mk (state m) v (tagInputs m) (focusIndex m) (spinner m) (ytResults m)
     (mbResults m) (tracklist m) (selectedYT m) (selectedMB m)
     (selectedTrack m) (statusMsg m) (error m) (ytDlpPath m) (ffmpegPath m)
     (width m) (height m) (lastFile m).
Definition set_tagInputs v (m : t) : t :=
  mk (state m) (input m) v (focusIndex m) (spinner m) (ytResults m)
     (mbResults m) (tracklist m) (selectedYT m) (selectedMB m)
     (selectedTrack m) (statusMsg m) (error m) (ytDlpPath m) (ffmpegPath m)
     (width m) (height m) (lastFile m).
Definition set_focusIndex v (m : t) : t :=
  mk (state m) (input m) (tagInputs m) v (spinner m) (ytResults m)
     (mbResults m) (tracklist m) (selectedYT m) (selectedMB m)
     (selectedTrack m) (statusMsg m) (error m) (ytDlpPath m) (ffmpegPath m)
     (width m) (height m) (lastFile m).
Definition set_spinner v (m : t) : t :=
  mk (state m) (input m) (tagInputs m) (focusIndex m) v (ytResults m)
     (mbResults m) (tracklist m) (selectedYT m) (selectedMB m)
     (selectedTrack m) (statusMsg m) (error m) (ytDlpPath m) (ffmpegPath m)
     (width m) (height m) (lastFile m).
Definition set_ytResults v (m : t) : t :=
  mk (state m) (input m) (tagInputs m) (focusIndex m) (spinner m) v
     (mbResults m) (tracklist m) (selectedYT m) (selectedMB m)
     (selectedTrack m) (statusMsg m) (error m) (ytDlpPath m) (ffmpegPath m)
     (width m) (height m) (lastFile m).
Definition set_mbResults v (m : t) : t :=
  mk (state m) (input m) (tagInputs m) (focusIndex m) (spinner m) (ytResults
     m) v (tracklist m) (selectedYT m) (selectedMB m) (selectedTrack m)
     (statusMsg m) (error m) (ytDlpPath m) (ffmpegPath m) (width m) (height
     m) (lastFile m).
Definition set_tracklist v (m : t) : t :=
  mk (state m) (input m) (tagInputs m) (focusIndex m) (spinner m) (ytResults
     m) (mbResults m) v (selectedYT m) (selectedMB m) (selectedTrack m)
     (statusMsg m) (error m) (ytDlpPath m) (ffmpegPath m) (width m) (height
     m) (lastFile m).
Definition set_selectedYT v (m : t) : t :=
  mk (state m) (input m) (tagInputs m) (focusIndex m) (spinner m) (ytResults
     m) (mbResults m) (tracklist m) v (selectedMB m) (selectedTrack m)
     (statusMsg m) (error m) (ytDlpPath m) (ffmpegPath m) (width m) (height
     m) (lastFile m).
Definition set_selectedMB v (m : t) : t :=
  mk (state m) (input m) (tagInputs m) (focusIndex m) (spinner m) (ytResults
     m) (mbResults m) (tracklist m) (selectedYT m) v (selectedTrack m)
     (statusMsg m) (error m) (ytDlpPath m) (ffmpegPath m) (width m) (height
     m) (lastFile m).
Definition set_selectedTrack v (m : t) : t :=
  mk (state m) (input m) (tagInputs m) (focusIndex m) (spinner m) (ytResults
     m) (mbResults m) (tracklist m) (selectedYT m) (selectedMB m) v
     (statusMsg m) (error m) (ytDlpPath m) (ffmpegPath m) (width m) (height
     m) (lastFile m).
Definition set_statusMsg v (m : t) : t :=
  mk (state m) (input m) (tagInputs m) (focusIndex m) (spinner m) (ytResults
     m) (mbResults m) (tracklist m) (selectedYT m) (selectedMB m)
     (selectedTrack m) v (error m) (ytDlpPath m) (ffmpegPath m) (width m)
     (height m) (lastFile m).
Definition set_error v (m : t) : t :=
  mk (state m) (input m) (tagInputs m) (focusIndex m) (spinner m) (ytResults
     m) (mbResults m) (tracklist m) (selectedYT m) (selectedMB m)
     (selectedTrack m) (statusMsg m) v (ytDlpPath m) (ffmpegPath m) (width
     m) (height m) (lastFile m).
Definition set_ytDlpPath v (m : t) : t :=
  mk (state m) (input m) (tagInputs m) (focusIndex m) (spinner m) (ytResults
     m) (mbResults m) (tracklist m) (selectedYT m) (selectedMB m)
     (selectedTrack m) (statusMsg m) (error m) v (ffmpegPath m) (width m)
     (height m) (lastFile m).
Definition set_ffmpegPath v (m : t) : t :=
  mk (state m) (input m) (tagInputs m) (focusIndex m) (spinner m) (ytResults
     m) (mbResults m) (tracklist m) (selectedYT m) (selectedMB m)
     (selectedTrack m) (statusMsg m) (error m) (ytDlpPath m) v (width m)
     (height m) (lastFile m).
Definition set_width v (m : t) : t :=
  mk (state m) (input m) (tagInputs m) (focusIndex m) (spinner m) (ytResults
     m) (mbResults m) (tracklist m) (selectedYT m) (selectedMB m)
     (selectedTrack m) (statusMsg m) (error m) (ytDlpPath m) (ffmpegPath m)
     v (height m) (lastFile m).
Definition set_height v (m : t) : t :=
  mk (state m) (input m) (tagInputs m) (focusIndex m) (spinner m) (ytResults
     m) (mbResults m) (tracklist m) (selectedYT m) (selectedMB m)
     (selectedTrack m) (statusMsg m) (error m) (ytDlpPath m) (ffmpegPath m)
     (width m) v (lastFile m).
Definition set_lastFile v (m : t) : t :=
  mk (state m) (input m) (tagInputs m) (focusIndex m) (spinner m) (ytResults
     m) (mbResults m) (tracklist m) (selectedYT m) (selectedMB m)
     (selectedTrack m) (statusMsg m) (error m) (ytDlpPath m) (ffmpegPath m)
     (width m) (height m) v.
End model.
Abbreviation model := model.t.

(** ** The controller *)

Section Controller.
Context `{Bubbles}.

Definition newList (title : string) (items : list item) : blist.Model :=
  blist.withTitle title (blist.New items).

Definition newModel : model :=
  let ti := textinput.New in
  let ti := textinput.withPlaceholder
    "アーティスト名と曲名、またはYouTubeのURLを入力してください..." ti in
  let ti := textinput.Focus ti in
  let ti := textinput.withWidth 60 ti in
  let s := spinner.New in
  {| model.state := stateCheckingDeps;
     model.statusMsg := "依存関係を確認中...";
     model.input := ti;
     model.spinner := s;
     model.ytResults := newList "" [];
     model.mbResults := newList "" [];
     model.tracklist := newList "" [];
     (* the remaining fields keep their zero values *)
     model.tagInputs := [];
     model.focusIndex := 0;
     model.selectedYT := Item.zero;
     model.selectedMB := Item.zero;
     model.selectedTrack := Item.zero;
     model.error := None;
     model.ytDlpPath := "";
     model.ffmpegPath := "";
     model.width := 0;
     model.height := 0;
     model.lastFile := "" |}.

Definition Init : Cmd := Cmd.checkYtDlp.

(** [createTagInputs]: five inputs, pre-filled from the selected track
    and release.  The loop runs over the five slots of [inputs], and
    [values] has five entries. *)
Definition createTagInputs (m : model) : Result (list textinput.Model) :=
  releaseInfo ← assertMBRelease (Item.meta (model.selectedMB m));
  trackInfo ← assertMBTrack (Item.meta (model.selectedTrack m));
  let values :=
    [MBTrack.Title trackInfo; Item.artist (model.selectedTrack m);
     MBRelease.Title releaseInfo; MBRelease.Date releaseInfo;
     MBTrack.Number trackInfo] in
  Done (map (fun v =>
               let t := textinput.New in
               let t := textinput_SetValue v t in
               let t := textinput.withWidth 50 t in
               textinput.withCharLimit 150 t) values).

(** The loop that focuses the input at [focusIndex] and blurs the
    others; [i] is the position of the head of [inputs]. *)
Fixpoint refocus (i focusIndex : Z) (inputs : list textinput.Model)
  : list textinput.Model * list Cmd :=
  match inputs with
  | [] => ([], [])
  | t :: rest =>
      let '(rest', cmds) := refocus (i + 1) focusIndex rest in
      if i =? focusIndex
      then (textinput.Focus t :: rest', Cmd.inputFocus :: cmds)
      else (textinput.Blur t :: rest', cmds)
  end.

(** The [tea.KeyMsg] case of [Update], after the test for Ctrl+C. *)
Definition updateKey (k : tea.Key) (m : model) : Result (model * list Cmd) :=
  match model.state m with
  | stateSelectYT =>
      if tea.isEnter k then
        match blist.SelectedItem (model.ytResults m) with
        | Some i =>
            let m := model.set_selectedYT i m in
            let m := model.set_state stateSearching m in
            let m := model.set_statusMsg "MusicBrainzでメタデータを検索中です..." m in
            Done (m, [Cmd.spinnerTick;
                      Cmd.searchMusicBrainz (Item.title i ++ " " ++ Item.desc i)])
        | None => Done (m, [])
        end
      else if tea.isEsc k then Done (model.set_state stateInput m, [])
      else Done (m, [])
  | stateSelectMB =>
      if tea.isEnter k then
        match blist.SelectedItem (model.mbResults m) with
        | Some i =>
            let m := model.set_selectedMB i m in
            let m := model.set_state stateSelectTrack m in
            let m := model.set_statusMsg "トラックリストを取得中です..." m in
            Done (m, [Cmd.spinnerTick; Cmd.getTracklist (Item.id i)])
        | None => Done (m, [])
        end
      else if String.eqb (tea.String k) "s" then
        Done (model.set_state stateConfirmSkipMB m, [])
      else if tea.isEsc k then Done (model.set_state stateSelectYT m, [])
      else Done (m, [])
  | stateSelectTrack =>
      if tea.isEnter k then
        match blist.SelectedItem (model.tracklist m) with
        | Some i =>
            let m := model.set_selectedTrack i m in
            let m := model.set_state stateEditTags m in
            let m := model.set_focusIndex 0 m in
            inputs ← createTagInputs m;
            let m := model.set_tagInputs inputs m in
            first ← Go.index (model.tagInputs m) 0;
            inputs ← Go.store (model.tagInputs m) 0 (textinput.Focus first);
            Done (model.set_tagInputs inputs m, [Cmd.inputFocus])
        | None => Done (m, [])
        end
      else if tea.isEsc k then Done (model.set_state stateSelectMB m, [])
      else Done (m, [])
  | stateEditTags =>
      if tea.isEnter k then
        if model.focusIndex m =? Go.sub (Go.len (model.tagInputs m)) 1 then
          let m := model.set_state stateDownloading m in
          let m := model.set_statusMsg "音声・ジャケット・歌詞を取得中です..." m in
          trackInfo ← assertMBTrack (Item.meta (model.selectedTrack m));
          t0 ← Go.index (model.tagInputs m) 0;
          t1 ← Go.index (model.tagInputs m) 1;
          t2 ← Go.index (model.tagInputs m) 2;
          t3 ← Go.index (model.tagInputs m) 3;
          t4 ← Go.index (model.tagInputs m) 4;
          let tags :=
            {| finalTags.Title := textinput.Value t0;
               finalTags.Artist := textinput.Value t1;
               finalTags.Album := textinput.Value t2;
               finalTags.Date := textinput.Value t3;
               finalTags.TrackNumber := textinput.Value t4;
               finalTags.AlbumArtist := textinput.Value t1;
               finalTags.Lyrics := "";
               finalTags.DurationSec := Go.div (MBTrack.Length trackInfo) 1000 |} in
          Done (m, [Cmd.spinnerTick;
                    Cmd.download (model.ytDlpPath m) (model.ffmpegPath m)
                                 (model.selectedYT m) (model.selectedMB m) tags])
        else
          let m := model.set_focusIndex (Go.add (model.focusIndex m) 1) m in
          t ← Go.index (model.tagInputs m) (model.focusIndex m);
          inputs ← Go.store (model.tagInputs m) (model.focusIndex m) (textinput.Focus t);
          Done (model.set_tagInputs inputs m, [Cmd.inputFocus])
      else if tea.isEsc k then Done (model.set_state stateSelectTrack m, [])
      else
        let m :=
          if String.eqb (tea.String k) "up"
          then model.set_focusIndex (Go.sub (model.focusIndex m) 1) m
          else if String.eqb (tea.String k) "down"
          then model.set_focusIndex (Go.add (model.focusIndex m) 1) m
          else m in
        let m :=
          if model.focusIndex m <? 0
          then model.set_focusIndex (Go.sub (Go.len (model.tagInputs m)) 1) m
          else if model.focusIndex m >=? Go.len (model.tagInputs m)
          then model.set_focusIndex 0 m
          else m in
        let '(inputs, cmds) := refocus 0 (model.focusIndex m) (model.tagInputs m) in
        Done (model.set_tagInputs inputs m, cmds)
  | stateInput =>
      if tea.isEnter k then
        let query := textinput.Value (model.input m) in
        if Go.HasPrefix query "http" then
          let m := model.set_state stateFetchingURLInfo m in
          let m := model.set_statusMsg "URLから情報を取得中です..." m in
          Done (m, [Cmd.spinnerTick; Cmd.getURLInfo (model.ytDlpPath m) query])
        else
          let m := model.set_state stateSearching m in
          let m := model.set_statusMsg "YouTubeとMusicBrainzを検索中です..." m in
          Done (m, [Cmd.spinnerTick; Cmd.search (model.ytDlpPath m) query])
      else Done (m, [])
  | stateConfirmSkipMB =>
      let s := Go.ToLower (tea.String k) in
      if String.eqb s "y" || String.eqb s "enter" then
        let m := model.set_state stateDownloading m in
        let m := model.set_statusMsg "タグ無しでダウンロード中です..." m in
        Done (m, [Cmd.spinnerTick;
                  Cmd.simpleDownload (model.ytDlpPath m) (model.ffmpegPath m)
                                     (model.selectedYT m)])
      else if String.eqb s "n" || String.eqb s "esc" then
        Done (model.set_state stateSelectYT m, [])
      else Done (m, [])
  | stateShowSuccess | stateError => Done (m, [Cmd.reset])
  | _ => Done (m, [])
  end.

Definition newline : string := String "010" "".

Definition ffmpegMissing : goerror :=
  "ffmpegが見つかりません。" ++ newline ++
  "音声変換には必須です。OSに合わせてインストールしてください。" ++ newline ++
  "(例: brew install ffmpeg)".

Definition noTracks : goerror :=
  "選択したリリースにはトラック情報が含まれていませんでした。別のリリースを選択してください。".

(** The cases of [Update] for the window size and the asynchronous
    messages.  A key is handled by [updateKey]. *)
Definition updateOther (msg : Msg) (m : model) : model * list Cmd :=
  match msg with
  | WindowSizeMsg Width Height =>
      let m := model.set_width Width m in
      let m := model.set_height Height m in
      let listHeight := Go.sub (model.height m) 8 in
      let listWidth := Go.sub (model.width m) 4 in
      let m := model.set_ytResults (list_SetSize listWidth listHeight (model.ytResults m)) m in
      let m := model.set_mbResults (list_SetSize listWidth listHeight (model.mbResults m)) m in
      let m := model.set_tracklist (list_SetSize listWidth listHeight (model.tracklist m)) m in
      (m, [])
  | KeyMsg _ => (m, [])
  | ytDlpCheckResultMsg path err =>
      match err with
      | Some e =>
          let m := model.set_state stateError m in
          (model.set_error (Some e) m, [])
      | None => (model.set_ytDlpPath path m, [Cmd.checkFfmpeg])
      end
  | ffmpegCheckResultMsg path err =>
      match err with
      | Some _ =>
          let m := model.set_state stateError m in
          (model.set_error (Some ffmpegMissing) m, [])
      | None =>
          let m := model.set_ffmpegPath path m in
          (model.set_state stateInput m, [])
      end
  | urlInfoFetchedMsg ytItem err =>
      match err with
      | Some e =>
          let m := model.set_state stateError m in
          (model.set_error (Some e) m, [])
      | None =>
          let m := model.set_selectedYT ytItem m in
          let m := model.set_state stateSearching m in
          let m := model.set_statusMsg "MusicBrainzでメタデータを検索中です..." m in
          (m, [Cmd.spinnerTick;
               Cmd.searchMusicBrainz (Item.title ytItem ++ " " ++ Item.desc ytItem)])
      end
  | searchFinishedMsg ytItems mbItems err =>
      match err with
      | Some e =>
          let m := model.set_state stateError m in
          (model.set_error (Some e) m, [])
      | None =>
          let m := model.set_state stateSelectYT m in
          let m := model.set_ytResults
            (newList "どの音源をダウンロードしますか？" ytItems) m in
          let m := model.set_mbResults
            (newList "どのリリースからタグ情報を取得しますか？" mbItems) m in
          let m := model.set_ytResults
            (list_SetSize (Go.sub (model.width m) 4) (Go.sub (model.height m) 8)
                          (model.ytResults m)) m in
          (m, [])
      end
  | mbSearchFinishedMsg items err =>
      match err with
      | Some e =>
          let m := model.set_state stateError m in
          (model.set_error (Some e) m, [])
      | None =>
          if Go.len items =? 0 then (model.set_state stateConfirmSkipMB m, [])
          else
            let m := model.set_state stateSelectMB m in
            let m := model.set_mbResults
              (newList "どのリリースからタグ情報を取得しますか？" items) m in
            let m := model.set_mbResults
              (list_SetSize (Go.sub (model.width m) 4) (Go.sub (model.height m) 8)
                            (model.mbResults m)) m in
            (m, [])
      end
  | tracklistFinishedMsg items err =>
      match err with
      | Some e =>
          let m := model.set_state stateError m in
          (model.set_error (Some e) m, [])
      | None =>
          if Go.len items =? 0 then
            let m := model.set_state stateError m in
            (model.set_error (Some noTracks) m, [])
          else
            let m := model.set_state stateSelectTrack m in
            let m := model.set_tracklist
              (newList ("「" ++ Item.title (model.selectedMB m) ++
                        "」から曲を選択してください") items) m in
            let m := model.set_tracklist
              (list_SetSize (Go.sub (model.width m) 4) (Go.sub (model.height m) 8)
                            (model.tracklist m)) m in
            (m, [])
      end
  | downloadFinishedMsg filename err =>
      match err with
      | Some e =>
          let m := model.set_state stateError m in
          (model.set_error (Some e) m, [])
      | None =>
          let m := model.set_state stateShowSuccess m in
          (model.set_lastFile filename m, [])
      end
  | resetMsg =>
      let '(ytPath, ffPath, w, h) :=
        (model.ytDlpPath m, model.ffmpegPath m, model.width m, model.height m) in
      let m := newModel in
      let m := model.set_ytDlpPath ytPath m in
      let m := model.set_ffmpegPath ffPath m in
      let m := model.set_width w m in
      let m := model.set_height h m in
      let m := model.set_state stateInput m in
      let m := model.set_statusMsg "" m in
      (m, [Cmd.textinputBlink])
  | spinnerTickMsg =>
      (model.set_spinner (spinner_Update msg (model.spinner m)) m, [Cmd.widget])
  | widgetMsg => (m, [])
  end.

(** The second [switch] of [Update]: the message is passed on to the
    widget of the state the model is now in. *)
Definition delegate (msg : Msg) (m : model) (cmds : list Cmd)
  : Result (model * list Cmd) :=
  match model.state m with
  | stateInput =>
      Done (model.set_input (textinput_Update msg (model.input m)) m,
            (cmds ++ [Cmd.widget])%list)
  | stateSelectYT =>
      let '(l, cmd) := list_Update msg (model.ytResults m) in
      Done (model.set_ytResults l m, (cmds ++ [cmd])%list)
  | stateSelectMB =>
      let '(l, cmd) := list_Update msg (model.mbResults m) in
      Done (model.set_mbResults l m, (cmds ++ [cmd])%list)
  | stateSelectTrack =>
      let '(l, cmd) := list_Update msg (model.tracklist m) in
      Done (model.set_tracklist l m, (cmds ++ [cmd])%list)
  | stateEditTags =>
      if model.focusIndex m <? Go.len (model.tagInputs m) then
        t ← Go.index (model.tagInputs m) (model.focusIndex m);
        inputs ← Go.store (model.tagInputs m) (model.focusIndex m)
                          (textinput_Update msg t);
        Done (model.set_tagInputs inputs m, (cmds ++ [Cmd.widget])%list)
      else Done (m, cmds)
  | _ => Done (m, cmds)
  end.

Definition Update (msg : Msg) (m : model) : Result (model * list Cmd) :=
  match msg with
  | KeyMsg k =>
      if tea.isCtrlC k then Done (m, [Cmd.Quit])
      else '(m, cmds) ← updateKey k m; delegate msg m cmds
  | _ => let '(m, cmds) := updateOther msg m in delegate msg m cmds
  end.

End Controller.

(** ** JSON documents and their decoding into Go structs

    Parsing JSON text is left to the environment (see [World]); what is
    modelled is how [encoding/json] stores a parsed document into the
    structs declared by the program: object keys are matched against the
    fields' JSON names, exactly or else ignoring case; a missing key or a
    [null] leaves the field as it is; a value of the wrong kind makes the
    call return an error. *)

Module json.

Inductive Value : Set :=
| Null
| Bool (b : bool)
| Int (z : Z)      (* a number written without fraction or exponent *)
| Real             (* any other number *)
| Str (s : string)
| Array (vs : list Value)
| Object (fields : list (string * Value)).

(** Decoding into a Go value that already holds [old]; [None] is an
    error. *)
Definition Decoder (T : Type) : Type := T -> Value -> option T.

Definition string_ : Decoder string := fun old v =>
  match v with
  | Str s => Some s
  | Null => Some old
  | _ => None
  end.

Definition int_ : Decoder Z := fun old v =>
  match v with
  | Int z => if (- 2 ^ 63 <=? z) && (z <? 2 ^ 63) then Some z else None
  | Null => Some old
  | _ => None
  end.

(** A slice is rebuilt from the array, each element decoded into a zero
    value; [null] sets it to nil. *)
Definition slice {T} (zero : T) (d : Decoder T) : Decoder (list T) := fun _ v =>
  match v with
  | Array vs => mapM (d zero) vs
  | Null => Some []
  | _ => None
  end.

(** A struct field: its JSON name and how a value is stored into it. *)
Definition Field (T : Type) : Type := string * (T -> Value -> option T).

Definition field {T F} (name : string) (get : T -> F) (set : F -> T -> T)
  (d : Decoder F) : Field T :=
  (name, fun t v => f ← d (get t) v; Some (set f t)).

Definition foldEq (a b : string) : bool :=
  String.eqb (Go.ToLower a) (Go.ToLower b).

Definition findField {T} (fields : list (Field T)) (key : string)
  : option (Field T) :=
  match List.find (fun f => String.eqb (fst f) key) fields with
  | Some f => Some f
  | None => List.find (fun f => foldEq (fst f) key) fields
  end.

(** The members of an object are stored one after the other, in the
    order of the document; keys without a field are skipped. *)
Definition struct {T} (fields : list (Field T)) : Decoder T := fun old v =>
  match v with
  | Object kvs =>
      foldl (fun acc kv =>
               t ← acc;
               match findField fields (fst kv) with
               | Some f => snd f t (snd kv)
               | None => Some t
               end) (Some old) kvs
  | Null => Some old
  | _ => None
  end.

End json.

Definition zeroVideoInfo : ytDlpVideoInfo := ytDlpVideoInfo.mk "" "" "" "".
Definition zeroReleaseGroup : MBReleaseGroup := MBReleaseGroup.mk "" "".
Definition zeroArtist : MBArtist := MBArtist.mk "" "".
Definition zeroGenre : MBGenre := MBGenre.mk "".
Definition zeroRecording : MBRecording := MBRecording.mk [].
Definition zeroTrack : MBTrack := MBTrack.mk "" "" "" 0 zeroRecording.
Definition zeroMedia : MBMedia := MBMedia.mk "" [].
Definition zeroRelease : MBRelease := MBRelease.mk "" "" [] "" [] zeroReleaseGroup.
Definition zeroLrclib : LrclibResponse := LrclibResponse.mk "".

Definition decodeVideoInfo : json.Decoder ytDlpVideoInfo :=
  json.struct
    [json.field "id" ytDlpVideoInfo.ID
       (fun v t => ytDlpVideoInfo.mk v (ytDlpVideoInfo.Title t)
                     (ytDlpVideoInfo.Uploader t) (ytDlpVideoInfo.Channel t))
       json.string_;
     json.field "title" ytDlpVideoInfo.Title
       (fun v t => ytDlpVideoInfo.mk (ytDlpVideoInfo.ID t) v
                     (ytDlpVideoInfo.Uploader t) (ytDlpVideoInfo.Channel t))
       json.string_;
     json.field "uploader" ytDlpVideoInfo.Uploader
       (fun v t => ytDlpVideoInfo.mk (ytDlpVideoInfo.ID t)
                     (ytDlpVideoInfo.Title t) v (ytDlpVideoInfo.Channel t))
       json.string_;
     json.field "channel" ytDlpVideoInfo.Channel
       (fun v t => ytDlpVideoInfo.mk (ytDlpVideoInfo.ID t)
                     (ytDlpVideoInfo.Title t) (ytDlpVideoInfo.Uploader t) v)
       json.string_].

(** [MBReleaseGroup] declares [ID, PrimaryType string] under the one tag
    [json:"id", "primary-type"].  Both fields get the JSON name [id];
    two fields of the same name at the same depth hide each other, so
    the decoder stores into neither. *)
Definition decodeReleaseGroup : json.Decoder MBReleaseGroup :=
  json.struct [].

Definition decodeArtist : json.Decoder MBArtist :=
  json.struct
    [json.field "name" MBArtist.Name
       (fun v t => MBArtist.mk v (MBArtist.JoinPhrase t)) json.string_;
     json.field "joinphrase" MBArtist.JoinPhrase
       (fun v t => MBArtist.mk (MBArtist.Name t) v) json.string_].

Definition decodeGenre : json.Decoder MBGenre :=
  json.struct
    [json.field "name" MBGenre.Name (fun v _ => MBGenre.mk v) json.string_].

Definition decodeRecording : json.Decoder MBRecording :=
  json.struct
    [json.field "genres" MBRecording.Genres (fun v _ => MBRecording.mk v)
       (json.slice zeroGenre decodeGenre)].

Definition decodeTrack : json.Decoder MBTrack :=
  json.struct
    [json.field "id" MBTrack.ID
       (fun v t => MBTrack.mk v (MBTrack.Title t) (MBTrack.Number t)
                     (MBTrack.Length t) (MBTrack.Recording t)) json.string_;
     json.field "title" MBTrack.Title
       (fun v t => MBTrack.mk (MBTrack.ID t) v (MBTrack.Number t)
                     (MBTrack.Length t) (MBTrack.Recording t)) json.string_;
     json.field "number" MBTrack.Number
       (fun v t => MBTrack.mk (MBTrack.ID t) (MBTrack.Title t) v
                     (MBTrack.Length t) (MBTrack.Recording t)) json.string_;
     json.field "length" MBTrack.Length
       (fun v t => MBTrack.mk (MBTrack.ID t) (MBTrack.Title t) (MBTrack.Number t)
                     v (MBTrack.Recording t)) json.int_;
     json.field "recording" MBTrack.Recording
       (fun v t => MBTrack.mk (MBTrack.ID t) (MBTrack.Title t) (MBTrack.Number t)
                     (MBTrack.Length t) v) decodeRecording].

Definition decodeMedia : json.Decoder MBMedia :=
  json.struct
    [json.field "format" MBMedia.Format
       (fun v t => MBMedia.mk v (MBMedia.Tracks t)) json.string_;
     json.field "tracks" MBMedia.Tracks
       (fun v t => MBMedia.mk (MBMedia.Format t) v)
       (json.slice zeroTrack decodeTrack)].

Definition decodeRelease : json.Decoder MBRelease :=
  json.struct
    [json.field "id" MBRelease.ID
       (fun v t => MBRelease.mk v (MBRelease.Title t) (MBRelease.ArtistCredit t)
                     (MBRelease.Date t) (MBRelease.Media t) (MBRelease.ReleaseGroup t))
       json.string_;
     json.field "title" MBRelease.Title
       (fun v t => MBRelease.mk (MBRelease.ID t) v (MBRelease.ArtistCredit t)
                     (MBRelease.Date t) (MBRelease.Media t) (MBRelease.ReleaseGroup t))
       json.string_;
     json.field "artist-credit" MBRelease.ArtistCredit
       (fun v t => MBRelease.mk (MBRelease.ID t) (MBRelease.Title t) v
                     (MBRelease.Date t) (MBRelease.Media t) (MBRelease.ReleaseGroup t))
       (json.slice zeroArtist decodeArtist);
     json.field "date" MBRelease.Date
       (fun v t => MBRelease.mk (MBRelease.ID t) (MBRelease.Title t)
                     (MBRelease.ArtistCredit t) v (MBRelease.Media t)
                     (MBRelease.ReleaseGroup t))
       json.string_;
     json.field "media" MBRelease.Media
       (fun v t => MBRelease.mk (MBRelease.ID t) (MBRelease.Title t)
                     (MBRelease.ArtistCredit t) (MBRelease.Date t) v
                     (MBRelease.ReleaseGroup t))
       (json.slice zeroMedia decodeMedia);
     json.field "release-group" MBRelease.ReleaseGroup
       (fun v t => MBRelease.mk (MBRelease.ID t) (MBRelease.Title t)
                     (MBRelease.ArtistCredit t) (MBRelease.Date t)
                     (MBRelease.Media t) v)
       decodeReleaseGroup].

(** [MusicBrainzSearchResponse] has the single field [Releases]. *)
Definition decodeSearchResponse : json.Decoder (list MBRelease) :=
  json.struct
    [json.field "releases" (fun rs => rs) (fun v _ => v)
       (json.slice zeroRelease decodeRelease)].

(** [LrclibResponse]: the field [PlainLyrics] carries the tag
    [json:"syncedLyrics"]. *)
Definition decodeLrclib : json.Decoder LrclibResponse :=
  json.struct
    [json.field "syncedLyrics" LrclibResponse.PlainLyrics
       (fun v _ => LrclibResponse.mk v) json.string_].

(** ** The environment of a command

    A command runs outside the controller, against the operating system
    and the network.  [World] answers each request a command can make;
    [IO] records, next to the result of a computation, the requests it
    made, in order. *)

Record Output : Set := mkOutput {
  combined : string;     (* what [CombinedOutput] returns *)
  failed : bool;         (* its error is not nil *)
  timedOut : bool        (* [ctx.Err() == context.DeadlineExceeded] *) }.

Inductive HttpResult : Set :=
| HttpFailed (e : goerror)
| HttpResponse (StatusCode : Z) (Status : string) (Body : string).

Record World : Type := mkWorld {
  LookPath : string -> string + goerror;
  Stat : string -> option goerror;
  GOOS : string;
  CombinedOutput : string -> list string -> Output;
  Get : string -> HttpResult;
  MkdirTemp : string -> string -> string + goerror;
  (** [json.Decoder.Decode]: the first JSON value of a stream *)
  Decode : string -> option json.Value;
  (** [json.Unmarshal]: the text as one JSON value *)
  Unmarshal : string -> option json.Value;
  QueryEscape : string -> string }.

Inductive Effect : Set :=
| Ran (path : string) (args : list string)
| Requested (url : string)
| MadeTemp (dir pattern : string)
| Wrote (path : string)
| Removed (path : string).

Record IO (A : Type) : Type := mkIO { value : A; trace : list Effect }.
Arguments mkIO {A} value trace.
Arguments value {A} i.
Arguments trace {A} i.

#[export] Instance IO_ret : MRet IO := fun A a => mkIO a [].
#[export] Instance IO_bind : MBind IO := fun A B k m =>
  let r := k (value m) in mkIO (value r) (trace m ++ trace r)%list.

Definition jsonError : goerror := "json: cannot decode".

Section Commands.
Context (W : World).

Definition run (path : string) (args : list string) : IO Output :=
  mkIO (CombinedOutput W path args) [Ran path args].

Definition httpGet (url : string) : IO HttpResult :=
  mkIO (Get W url) [Requested url].

Definition mkdirTemp (dir pattern : string) : IO (string + goerror) :=
  mkIO (MkdirTemp W dir pattern) [MadeTemp dir pattern].

Definition writeFile (path : string) : IO unit := mkIO tt [Wrote path].
Definition removeAll (path : string) : IO unit := mkIO tt [Removed path].

(** [defer cleanup]: runs after the body. *)
Definition deferring {A} (cleanup : IO unit) (body : IO A) : IO A :=
  a ← body; _ ← cleanup; mret a.

Definition joinArtistCredits (credits : list MBArtist) : string :=
  foldl (fun b credit => b ++ MBArtist.Name credit ++ MBArtist.JoinPhrase credit)
        "" credits.

Definition checkYtDlpCmd : Msg :=
  match LookPath W "yt-dlp" with
  | inl path => ytDlpCheckResultMsg path None
  | inr _ =>
      let localPath := "yt-dlp" in
      let localPath :=
        if String.eqb (GOOS W) "windows" then localPath ++ ".exe" else localPath in
      match Stat W localPath with
      | None => ytDlpCheckResultMsg ("./" ++ localPath) None
      | Some _ =>
          ytDlpCheckResultMsg ""
            (Some "yt-dlpが見つかりません。パスが通っているか、実行ファイルと同じフォルダに配置してください。")
      end
  end.

Definition checkFfmpegCmd : Msg :=
  match LookPath W "ffmpeg" with
  | inr err => ffmpegCheckResultMsg "" (Some err)
  | inl path => ffmpegCheckResultMsg path None
  end.

(** [artist := info.Uploader; if artist == "" { artist = info.Channel }] *)
Definition uploaderOrChannel (info : ytDlpVideoInfo) : string :=
  if String.eqb (ytDlpVideoInfo.Uploader info) ""
  then ytDlpVideoInfo.Channel info
  else ytDlpVideoInfo.Uploader info.

Definition getURLInfoCmd (ytDlpPath query : string) : IO Msg :=
  o ← run ytDlpPath ["--quiet"; "--no-warnings"; "--dump-json"; query];
  if failed o then
    if timedOut o
    then mret (urlInfoFetchedMsg Item.zero
                 (Some "URL情報の取得がタイムアウトしました (30s)"))
    else mret (urlInfoFetchedMsg Item.zero
                 (Some ("URL情報の取得に失敗:" ++ String "010" (combined o))))
  else
    match v ← Unmarshal W (combined o); decodeVideoInfo zeroVideoInfo v with
    | None =>
        mret (urlInfoFetchedMsg Item.zero
                (Some ("URL情報のJSON解析に失敗:" ++ String "010" jsonError)))
    | Some info =>
        let artist := uploaderOrChannel info in
        let item := Item.mk (ytDlpVideoInfo.Title info) artist
                            (ytDlpVideoInfo.ID info) query "" "" MetaNil in
        mret (urlInfoFetchedMsg item None)
    end.

Definition releaseItem (r : MBRelease) : item :=
  let artist := joinArtistCredits (MBRelease.ArtistCredit r) in
  let desc := artist ++ " (" ++ MBRelease.Date r ++ ") [" ++
              MBReleaseGroup.PrimaryType (MBRelease.ReleaseGroup r) ++ "]" in
  Item.mk (MBRelease.Title r) desc (MBRelease.ID r) "" "" "" (MetaRelease r).

Definition doMusicBrainzSearch (query : string) : IO (list item + goerror) :=
  let apiURL := "https://musicbrainz.org/ws/2/release/?query=" ++
                QueryEscape W query ++
                "&fmt=json&inc=artist-credits+release-groups" in
  resp ← httpGet apiURL;
  match resp with
  | HttpFailed err => mret (inr err)
  | HttpResponse _ _ body =>
      match v ← Decode W body; decodeSearchResponse [] v with
      | None => mret (inr jsonError)
      | Some releases => mret (inl (map releaseItem releases))
      end
  end.

Definition searchMusicBrainzCmd (query : string) : IO Msg :=
  r ← doMusicBrainzSearch query;
  match r with
  | inr err => mret (mbSearchFinishedMsg [] (Some err))
  | inl items => mret (mbSearchFinishedMsg items None)
  end.

(** The video items of the lines of yt-dlp's output; a line that does
    not decode is skipped. *)
Definition videoItems (lines : list string) : list item :=
  omap (fun line =>
          info ← (v ← Unmarshal W line; decodeVideoInfo zeroVideoInfo v);
          Some (Item.mk (ytDlpVideoInfo.Title info) (uploaderOrChannel info)
                        (ytDlpVideoInfo.ID info)
                        ("https://www.youtube.com/watch?v=" ++ ytDlpVideoInfo.ID info)
                        "" "" MetaNil)) lines.

(** The first goroutine of [searchCmd]. *)
Definition searchYouTube (ytDlpPath query : string) : IO (list item * option goerror) :=
  o ← run ytDlpPath ["--quiet"; "--no-warnings"; "--dump-json";
                     "--default-search"; "ytsearch5"; query];
  if failed o then
    if timedOut o then mret ([], Some "YouTube検索がタイムアウトしました")
    else mret ([], Some ("YouTube検索に失敗:" ++ String "010" (combined o)))
  else
    let lines := Go.Split (Go.TrimSpace (combined o)) "010" in
    mret (videoItems lines, None).

(** [searchCmd]: the two goroutines write distinct variables and are
    joined by the wait group before either result is read; they are run
    here one after the other. *)
Definition searchCmd (ytDlpPath query : string) : IO Msg :=
  '(ytItems, ytErr) ← searchYouTube ytDlpPath query;
  mb ← doMusicBrainzSearch query;
  let '(mbItems, mbErr) :=
    match mb with inl items => (items, None) | inr e => ([], Some e) end in
  match ytErr with
  | Some e => mret (searchFinishedMsg [] [] (Some e))
  | None =>
      match mbErr with
      | Some e => mret (searchFinishedMsg [] [] (Some e))
      | None => mret (searchFinishedMsg ytItems mbItems None)
      end
  end.

Definition trackItems (releaseData : MBRelease) : list item :=
  let artist := joinArtistCredits (MBRelease.ArtistCredit releaseData) in
  mjoin (map (fun media =>
    map (fun t =>
           let desc := "Track " ++ MBTrack.Number t in
           let desc :=
             if negb (String.eqb (MBMedia.Format media) "")
             then "Track " ++ MBTrack.Number t ++ " (" ++ MBMedia.Format media ++ ")"
             else desc in
           Item.mk (MBTrack.Title t) desc "" "" artist "" (MetaTrack t))
        (MBMedia.Tracks media))
    (MBRelease.Media releaseData)).

Definition getTracklistCmd (releaseID : string) : IO Msg :=
  let apiURL := "https://musicbrainz.org/ws/2/release/" ++ releaseID ++
                "?inc=artist-credits+media+recordings&fmt=json" in
  resp ← httpGet apiURL;
  match resp with
  | HttpFailed err => mret (tracklistFinishedMsg [] (Some err))
  | HttpResponse _ _ body =>
      match v ← Decode W body; decodeRelease zeroRelease v with
      | None => mret (tracklistFinishedMsg [] (Some jsonError))
      | Some releaseData => mret (tracklistFinishedMsg (trackItems releaseData) None)
      end
  end.

(** The URL [getLyrics] requests: [q.Encode()] writes the parameters
    sorted by key. *)
Definition lyricsURL (artist title album : string) (duration : Z) : string :=
  let apiURL := "https://lrclib.net/api/get" in
  let q := "album_name=" ++ QueryEscape W album ++
           "&artist_name=" ++ QueryEscape W artist ++
           "&duration=" ++ QueryEscape W (Go.itoa duration) ++
           "&track_name=" ++ QueryEscape W title in
  apiURL ++ "?" ++ q.

(** [getLyrics].  [http.NewRequest] cannot fail on the constant URL. *)
Definition getLyrics (artist title album : string) (duration : Z) : IO string :=
  resp ← httpGet (lyricsURL artist title album duration);
  match resp with
  | HttpFailed _ => mret ""
  | HttpResponse StatusCode _ body =>
      if negb (StatusCode =? 200) then mret ""
      else
        match v ← Decode W body; decodeLrclib zeroLrclib v with
        | None => mret ""
        | Some data => mret (LrclibResponse.PlainLyrics data)
        end
  end.

(** The arguments of the yt-dlp call that extracts the audio. *)
Definition audioArgs (audioPath : string) (selectedYT : item) : list string :=
  ["-f"; "bestaudio"; "-o"; audioPath; Item.url selectedYT].

Definition simpleDownloadCmd (ytDlpPath ffmpegPath : string) (selectedYT : item)
  : IO Msg :=
  let tmpDirPath := Go.Join mainDir tempDir in
  r ← mkdirTemp tmpDirPath "gomusicdl_*";
  match r with
  | inr err => mret (downloadFinishedMsg "" (Some err))
  | inl tmpDir =>
      deferring (removeAll tmpDir) (
        let audioPath := Go.Join tmpDir "audio.tmp" in
        o ← run ytDlpPath (audioArgs audioPath selectedYT);
        if failed o then
          mret (downloadFinishedMsg ""
                  (Some ("音声のダウンロード失敗:" ++ String "010" (combined o))))
        else
          let downloadsPath := Go.Join mainDir downloadsDir in
          let finalFilename := sanitizeFilename (Item.title selectedYT ++ ".flac") in
          let finalPath := Go.Join downloadsPath finalFilename in
          o ← run ffmpegPath ["-y"; "-i"; audioPath; "-c:a"; "flac"; finalPath];
          if failed o then
            mret (downloadFinishedMsg ""
                    (Some ("ffmpegでの変換失敗:" ++ String "010" (combined o))))
          else mret (downloadFinishedMsg finalPath None))
  end.

(** The first goroutine of [downloadCmd]: the audio path and [dlErr]. *)
Definition fetchAudio (ytDlpPath tmpDir : string) (selectedYT : item)
  : IO (string * option goerror) :=
  let audioPath := Go.Join tmpDir "audio.tmp" in
  o ← run ytDlpPath (audioArgs audioPath selectedYT);
  if failed o
  then mret (audioPath, Some ("音声のダウンロード失敗:" ++ String "010" (combined o)))
  else mret (audioPath, None).

(** [err == nil && resp.StatusCode == 200] *)
Definition answered200 (resp : HttpResult) : bool :=
  match resp with
  | HttpFailed _ => false
  | HttpResponse StatusCode _ _ => StatusCode =? 200
  end.

(** One cover lookup: the image is saved, and its path returned, only
    when the request succeeds with status 200. *)
Definition tryCover (tmpDir url : string) : IO string :=
  resp ← httpGet url;
  if answered200 resp then
    let localPath := Go.Join tmpDir "cover.jpg" in
    _ ← writeFile localPath;
    mret localPath
  else mret "".

Definition releaseCoverURL (releaseInfo : MBRelease) : string :=
  "https://coverartarchive.org/release/" ++ MBRelease.ID releaseInfo ++
  "/front-500".

Definition groupCoverURL (releaseInfo : MBRelease) : string :=
  "https://coverartarchive.org/release-group/" ++
  MBReleaseGroup.ID (MBRelease.ReleaseGroup releaseInfo) ++ "/front-500".

(** The second goroutine of [downloadCmd], after its type assertion:
    [coverPath]. *)
Definition fetchCover (tmpDir : string) (releaseInfo : MBRelease) : IO string :=
  let coverURL := releaseCoverURL releaseInfo in
  coverPath ← tryCover tmpDir coverURL;
  let groupID := MBReleaseGroup.ID (MBRelease.ReleaseGroup releaseInfo) in
  if String.eqb coverPath "" && negb (String.eqb groupID "") then
    let coverGroupURL := groupCoverURL releaseInfo in
    tryCover tmpDir coverGroupURL
  else mret coverPath.

(** The arguments of the final ffmpeg call. *)
Definition ffmpegArgs (audioPath coverPath lyrics finalPath : string)
  (tags : finalTags) : list string :=
  let args := ["-y"; "-i"; audioPath] in
  let args :=
    if negb (String.eqb coverPath "")
    then app args ["-i"; coverPath; "-map"; "0:a:0"; "-map"; "1:v:0";
                   "-disposition:v"; "attached_pic"]
    else args in
  let args :=
    app args ["-c:a"; "flac";
              "-metadata"; "title=" ++ finalTags.Title tags;
              "-metadata"; "artist=" ++ finalTags.Artist tags;
              "-metadata"; "album_artist=" ++ finalTags.AlbumArtist tags;
              "-metadata"; "album=" ++ finalTags.Album tags;
              "-metadata"; "track=" ++ finalTags.TrackNumber tags;
              "-metadata"; "date=" ++ finalTags.Date tags] in
  let args :=
    if negb (String.eqb lyrics "")
    then app args ["-metadata"; "LYRICS=" ++ lyrics]
    else args in
  app args [finalPath].

(** Where the tagged file is written. *)
Definition finalPathOf (tags : finalTags) : string :=
  let downloadsPath := Go.Join mainDir downloadsDir in
  let finalFilename :=
    sanitizeFilename (finalTags.Artist tags ++ " - " ++
                      finalTags.Title tags ++ ".flac") in
  Go.Join downloadsPath finalFilename.

(** What the three goroutines of [downloadCmd] leave behind when the
    wait group is released. *)
Record Fetched : Set := mkFetched {
  audioPath : string;
  coverPath : string;
  lyrics : string;
  dlErr : option goerror }.

(** The three goroutines write distinct variables and are joined by the
    wait group before any result is read; they are run here one after
    the other.  The unchecked assertion that opens the cover goroutine
    is evaluated first: when it panics the program stops. *)
Definition fetchAssets (ytDlpPath tmpDir : string) (selectedYT selectedMB : item)
  (tags : finalTags) : Result (IO Fetched) :=
  releaseInfo ← assertMBRelease (Item.meta selectedMB);
  Done ('(audioPath, dlErr) ← fetchAudio ytDlpPath tmpDir selectedYT;
        coverPath ← fetchCover tmpDir releaseInfo;
        lyrics ← getLyrics (finalTags.Artist tags) (finalTags.Title tags)
                           (finalTags.Album tags) (finalTags.DurationSec tags);
        mret (mkFetched audioPath coverPath lyrics dlErr)).

(** The part of [downloadCmd] after [wg.Wait()]. *)
Definition mergeAssets (ffmpegPath : string) (f : Fetched) (tags : finalTags)
  : IO Msg :=
  match dlErr f with
  | Some e => mret (downloadFinishedMsg "" (Some e))
  | None =>
      let finalPath := finalPathOf tags in
      o ← run ffmpegPath (ffmpegArgs (audioPath f) (coverPath f) (lyrics f) finalPath tags);
      if failed o then
        mret (downloadFinishedMsg ""
                (Some ("ffmpegでの変換失敗:" ++ String "010" (combined o))))
      else
        let finalMsg := finalPath in
        let finalMsg :=
          if negb (String.eqb (lyrics f) "") then finalMsg ++ " (歌詞付き)"
          else finalMsg in
        mret (downloadFinishedMsg finalMsg None)
  end.

Definition downloadCmd (ytDlpPath ffmpegPath : string) (selectedYT selectedMB : item)
  (tags : finalTags) : Result (IO Msg) :=
  let tmpDirPath := Go.Join mainDir tempDir in
  let r := mkdirTemp tmpDirPath "gomusicdl_*" in
  match value r with
  | inr err => Done (_ ← r; mret (downloadFinishedMsg "" (Some err)))
  | inl tmpDir =>
      fetch ← fetchAssets ytDlpPath tmpDir selectedYT selectedMB tags;
      Done (_ ← r;
            deferring (removeAll tmpDir)
              (f ← fetch; mergeAssets ffmpegPath f tags))
  end.

(** The message a command delivers when it completes.  [Quit] ends the
    program and delivers nothing; a widget's command delivers a message
    private to the widget. *)
Definition delivering (io : IO Msg) : IO (option Msg) :=
  mkIO (Some (value io)) (trace io).

Definition perform (c : Cmd) : Result (IO (option Msg)) :=
  match c with
  | Cmd.Quit => Done (mkIO None [])
  | Cmd.spinnerTick => Done (mkIO (Some spinnerTickMsg) [])
  | Cmd.textinputBlink | Cmd.inputFocus | Cmd.widget =>
      Done (mkIO (Some widgetMsg) [])
  | Cmd.checkYtDlp => Done (mkIO (Some checkYtDlpCmd) [])
  | Cmd.checkFfmpeg => Done (mkIO (Some checkFfmpegCmd) [])
  | Cmd.getURLInfo p q => Done (delivering (getURLInfoCmd p q))
  | Cmd.searchMusicBrainz q => Done (delivering (searchMusicBrainzCmd q))
  | Cmd.search p q => Done (delivering (searchCmd p q))
  | Cmd.getTracklist i => Done (delivering (getTracklistCmd i))
  | Cmd.download p f yt mb tags =>
      io ← downloadCmd p f yt mb tags; Done (delivering io)
  | Cmd.simpleDownload p f yt => Done (delivering (simpleDownloadCmd p f yt))
  | Cmd.reset => Done (mkIO (Some resetMsg) [])
  end.

End Commands.

(** ** The program

    Bubble Tea keeps the current model and runs every command returned
    by [Update] in the background; when a command completes, its message
    is passed to [Update].  Completions arrive in any order, between key
    presses and window changes, and nothing bounds the time a command
    takes: the runs below include every interleaving the runtime can
    produce, also those it produces with negligible likelihood, such as
    further events handled while a [tea.Quit] is pending. *)

Record Program : Set := mkProgram {
  current : model;
  pending : list Cmd }.

Inductive Event : Type :=
| Pressed (k : tea.Key)
| Resized (w h : Z)
| Completed (n : nat) (W : World)  (* the [n]-th pending command, run in [W] *).

Inductive Outcome : Set :=
| Running (p : Program)
| Exited
| Crashed (f : Fault)
| NoSuchCommand.

Section Program.
Context `{Bubbles}.

Definition start : Program := mkProgram newModel [Init].

Definition feed (msg : Msg) (m : model) (waiting : list Cmd) : Outcome :=
  match Update msg m with
  | Panic f => Crashed f
  | Done (m', cmds) => Running (mkProgram m' (waiting ++ cmds)%list)
  end.

Definition step (p : Program) (e : Event) : Outcome :=
  match e with
  | Pressed k => feed (KeyMsg k) (current p) (pending p)
  | Resized w h => feed (WindowSizeMsg w h) (current p) (pending p)
  | Completed n W =>
      match pending p !! n with
      | None => NoSuchCommand
      | Some c =>
          match perform W c with
          | Panic f => Crashed f
          | Done io =>
              match value io with
              | None => Exited
              | Some msg => feed msg (current p) (delete n (pending p))
              end
          end
      end
  end.

Fixpoint play (events : list Event) (p : Program) : Outcome :=
  match events with
  | [] => Running p
  | e :: rest =>
      match step p e with
      | Running p' => play rest p'
      | o => o
      end
  end.

(** The models the program can be in. *)
Definition reachable (m : model) : Prop :=
  exists events p, play events start = Running p /\ current p = m.

End Program.

(** ** A reference keyboard behaviour for the widgets

    Typed text is appended to a text input and Backspace removes its
    last byte; Up and Down move a list's selection inside its items,
    and [q] and [esc] make a list ask to quit. *)

Fixpoint dropLast (s : string) : string :=
  match s with
  | EmptyString => EmptyString
  | String c EmptyString => EmptyString
  | String c s' => String c (dropLast s')
  end.

#[export] Instance keyboard : Bubbles := {|
  inputOnKey k t :=
    match tea.Typ k with
    | tea.KeyRunes => textinput.value t ++ tea.Runes k
    | tea.KeyBackspace => dropLast (textinput.value t)
    | _ => textinput.value t
    end;
  inputOnSet s _ := s;
  listOnKey k l :=
    match tea.Typ k with
    | tea.KeyUp => Z.max 0 (blist.index l - 1)
    | tea.KeyDown => Z.min (Go.len (blist.items l) - 1) (blist.index l + 1)
    | _ => blist.index l
    end;
  listQuits k _ :=
    String.eqb (tea.String k) "q" || String.eqb (tea.String k) "esc";
  listOnSize _ _ l := blist.index l;
  spinnerOnTick s := spinner.mk (spinner.frame s + 1) |}.

(** ** A sample environment

    One session of the wizard against services that answer: yt-dlp
    finds two videos for a query, MusicBrainz one release with three
    tracks, the Cover Art Archive has no image, and LRCLIB knows the
    lyrics.  Bodies are the JSON text of the documents below; the
    documents contain no character that JSON would escape. *)

Definition quote : string := String "034" "".

Module sample.

Fixpoint render (v : json.Value) : string :=
  match v with
  | json.Null => "null"
  | json.Bool true => "true"
  | json.Bool false => "false"
  | json.Int z => Go.itoa z
  | json.Real => "0.5"
  | json.Str s => quote ++ s ++ quote
  | json.Array vs =>
      "[" ++ (fix elements (vs : list json.Value) : string :=
                match vs with
                | [] => ""
                | [v] => render v
                | v :: rest => render v ++ "," ++ elements rest
                end) vs ++ "]"
  | json.Object kvs =>
      "{" ++ (fix members (kvs : list (string * json.Value)) : string :=
                match kvs with
                | [] => ""
                | [(k, v)] => quote ++ k ++ quote ++ ":" ++ render v
                | (k, v) :: rest =>
                    quote ++ k ++ quote ++ ":" ++ render v ++ "," ++ members rest
                end) kvs ++ "}"
  end.

Definition video (id title : string) : json.Value :=
  json.Object [("id", json.Str id); ("title", json.Str title);
               ("uploader", json.Str "Artist B"); ("channel", json.Str "Artist B")].

Definition track (id title number : string) (length : Z) : json.Value :=
  json.Object [("id", json.Str id); ("title", json.Str title);
               ("number", json.Str number); ("length", json.Int length)].

Definition releaseHead : list (string * json.Value) :=
  [("id", json.Str "r1"); ("title", json.Str "Album B");
   ("artist-credit",
    json.Array [json.Object [("name", json.Str "Artist B");
                             ("joinphrase", json.Str "")]]);
   ("date", json.Str "2020-01-01");
   ("release-group",
    json.Object [("id", json.Str "g1"); ("primary-type", json.Str "Album")])].

Definition searchDoc : json.Value :=
  json.Object [("releases", json.Array [json.Object releaseHead])].

Definition releaseDoc : json.Value :=
  json.Object
    (releaseHead ++
     [("media",
       json.Array
         [json.Object
            [("format", json.Str "CD");
             ("tracks",
              json.Array [track "t1" "Intro" "1" 61000;
                          track "t2" "Song B" "2" 215500;
                          track "t3" "Outro" "3" 90250])]])])%list.

Definition lyricsDoc : json.Value :=
  json.Object [("plainLyrics", json.Str "la la la");
               ("syncedLyrics", json.Str "[00:01.00] la la la")].

Definition emptySearchDoc : json.Value :=
  json.Object [("releases", json.Array [])].

Definition documents : list json.Value :=
  [video "v1" "Song B"; video "v2" "Song B (live)"; searchDoc; releaseDoc;
   lyricsDoc; emptySearchDoc].

(** The parser, on the text of the sample documents. *)
Definition parse (text : string) : option json.Value :=
  List.find (fun d => String.eqb (render d) text) documents.

Definition contains (x : string) (l : list string) : bool :=
  existsb (String.eqb x) l.

Definition ytDlp : string := "/usr/bin/yt-dlp".
Definition ffmpeg : string := "/usr/bin/ffmpeg".

Definition commands (path : string) (args : list string) : Output :=
  if String.eqb path ytDlp && contains "ytsearch5" args then
    mkOutput (render (video "v1" "Song B") ++ String "010" "" ++
              render (video "v2" "Song B (live)") ++ String "010" "")
             false false
  else if String.eqb path ytDlp && contains "--dump-json" args then
    mkOutput (render (video "v1" "Song B")) false false
  else mkOutput "" false false.

Definition web (url : string) : HttpResult :=
  if Go.HasPrefix url "https://musicbrainz.org/ws/2/release/?query=" then
    HttpResponse 200 "200 OK" (render searchDoc)
  else if Go.HasPrefix url "https://musicbrainz.org/ws/2/release/" then
    HttpResponse 200 "200 OK" (render releaseDoc)
  else if Go.HasPrefix url "https://lrclib.net/api/get" then
    HttpResponse 200 "200 OK" (render lyricsDoc)
  else HttpResponse 404 "404 Not Found" "".

Definition escape (s : string) : string :=
  Go.mapBytes (fun c => if Ascii.eqb c " " then "+"%char else c) s.

(** A machine with yt-dlp and ffmpeg installed. *)
Definition machine (commands : string -> list string -> Output)
  (web : string -> HttpResult) : World := {|
  LookPath name :=
    if String.eqb name "yt-dlp" then inl ytDlp
    else if String.eqb name "ffmpeg" then inl ffmpeg
    else inr "executable file not found in $PATH";
  Stat _ := Some "no such file or directory";
  GOOS := "linux";
  CombinedOutput := commands;
  Get := web;
  MkdirTemp dir _ := inl (Go.Join dir "gomusicdl_1");
  Decode := parse;
  Unmarshal := parse;
  QueryEscape := escape |}.

Definition online : World := machine commands web.

(** The same machine with the network down. *)
Definition offline : World :=
  machine commands (fun _ => HttpFailed "dial tcp: network is unreachable").


(** A query that nothing matches: yt-dlp prints no line and MusicBrainz
    answers with no release. *)
Definition barren : World :=
  machine (fun _ _ => mkOutput "" false false)
          (fun _ => HttpResponse 200 "200 OK" (render emptySearchDoc)).

(** *** A session

    The user types a query, picks the first video, the release and its
    second track, and confirms the five tags.  Each list of events
    extends the one before; a completion names the position of its
    command among the pending ones. *)

Definition enter : Event := Pressed (tea.press tea.KeyEnter).
Definition escape_ : Event := Pressed (tea.press tea.KeyEsc).
Definition down : Event := Pressed (tea.press tea.KeyDown).

Definition toQuery : list Event :=
  [Completed 0 online; Completed 0 online].

Definition toVideos : list Event :=
  (toQuery ++ [Pressed (tea.runes "Song B"); enter; Completed 3 online])%list.

Definition toReleases : list Event :=
  (toVideos ++ [enter; Completed 5 online])%list.

Definition toTracks : list Event :=
  (toReleases ++ [enter; Completed 7 online])%list.

Definition toTags : list Event :=
  (toTracks ++ [down; enter])%list.

Definition toLastTag : list Event :=
  (toTags ++ [enter; enter; enter; enter])%list.

Definition toDownload : list Event :=
  (toLastTag ++ [enter])%list.

Definition toSuccess : list Event :=
  (toDownload ++ [Completed 21 online])%list.

(** The model after a list of events. *)
Definition after (events : list Event) : model :=
  match play events start with
  | Running p => current p
  | _ => newModel
  end.

(** The tracks are listed but no release is selected: a model in which
    the payload asked for is not there. *)
Definition orphanTracks : model :=
  model.set_selectedMB Item.zero (after toTracks).

(** A release that names its group, as a caller of the download may
    pass it. *)
Definition release : MBRelease :=
  MBRelease.mk "r1" "Album B" [MBArtist.mk "Artist B" ""] "2020-01-01" []
               (MBReleaseGroup.mk "g1" "Album").

Definition releaseEntry : item := releaseItem release.

Definition videoEntry : item :=
  Item.mk "Song B" "Artist B" "v1" "https://www.youtube.com/watch?v=v1" "" ""
          MetaNil.

Definition tags : finalTags :=
  finalTags.mk "Song B" "Artist B" "Album B" "2020-01-01" "2" "Artist B" "" 215.


(** A machine on which neither tool is installed. *)
Definition bare : World := {|
  LookPath _ := inr "executable file not found in $PATH";
  Stat _ := Some "no such file or directory";
  GOOS := "linux";
  CombinedOutput := commands;
  Get := web;
  MkdirTemp dir _ := inl (Go.Join dir "gomusicdl_1");
  Decode := parse;
  Unmarshal := parse;
  QueryEscape := escape |}.


(** No release is found for the video chosen. *)
Definition toSkip : list Event :=
  (toVideos ++ [enter; Completed 5 barren])%list.

(** A query that nothing matches, up to the empty list of videos. *)
Definition toNothing : list Event :=
  (toQuery ++ [Pressed (tea.runes "zzz"); enter; Completed 3 barren])%list.

End sample.

(** ** Vocabulary of the properties *)

Definition holdsRelease (i : item) : Prop :=
  exists r, Item.meta i = MetaRelease r.

Definition holdsTrack (i : item) : Prop :=
  exists t, Item.meta i = MetaTrack t.

(** A release as the decoder leaves it: its release group is never
    filled in (see [decodeReleaseGroup]). *)
Definition holdsDecodedRelease (i : item) : Prop :=
  exists r, Item.meta i = MetaRelease r
            /\ MBRelease.ReleaseGroup r = zeroReleaseGroup.

(** What holds while the tags are edited: there are five inputs, the
    focus is on one of them, and the selected track and release carry
    their metadata. *)
Definition editing (m : model) : Prop :=
  model.state m = stateEditTags ->
    length (model.tagInputs m) = 5%nat
    /\ 0 <= model.focusIndex m < 5
    /\ holdsTrack (model.selectedTrack m)
    /\ holdsRelease (model.selectedMB m).

(** A message whose items carry the metadata of their kind. *)
Definition wellTyped (msg : Msg) : Prop :=
  match msg with
  | searchFinishedMsg _ mbItems _ => Forall holdsDecodedRelease mbItems
  | mbSearchFinishedMsg items _ => Forall holdsDecodedRelease items
  | tracklistFinishedMsg items _ => Forall holdsTrack items
  | _ => True
  end.

(** What holds of the lists and of the selected release at all times. *)
Definition typed (m : model) : Prop :=
  Forall holdsDecodedRelease (blist.items (model.mbResults m))
  /\ Forall holdsTrack (blist.items (model.tracklist m))
  /\ (holdsDecodedRelease (model.selectedMB m)
      \/ Item.meta (model.selectedMB m) = MetaNil).

(** The state Esc goes back to. *)
Definition behind (s : state) : option state :=
  match s with
  | stateSelectYT => Some stateInput
  | stateSelectMB => Some stateSelectYT
  | stateSelectTrack => Some stateSelectMB
  | stateEditTags => Some stateSelectTrack
  | _ => None
  end.

(** A command that can be performed without a panic: a tagged download
    carries a release. *)
Definition ready (c : Cmd) : Prop :=
  match c with
  | Cmd.download _ _ _ selectedMB _ => holdsRelease selectedMB
  | _ => True
  end.

(** In [stateError] there is an error to show. *)
Definition shows (m : model) : Prop :=
  model.state m = stateError -> exists e, model.error m = Some e.

(** What every run keeps. *)
Definition sound (p : Program) : Prop :=
  editing (current p) /\ typed (current p) /\ shows (current p)
  /\ Forall ready (pending p).

(** The keys the decoder stores into [LrclibResponse.PlainLyrics]. *)
Definition namesSynced (key : string) : bool :=
  String.eqb "syncedLyrics" key || json.foldEq "syncedLyrics" key.

(** The focus after a key that is neither Enter nor Esc. *)
Definition moved (name : string) (focusIndex : Z) : Z :=
  let f := if String.eqb name "up" then focusIndex - 1
           else if String.eqb name "down" then focusIndex + 1
           else focusIndex in
  if f <? 0 then 4 else if f >=? 5 then 0 else f.

Section Reset.
Context `{Bubbles}.

(** The model a reset leaves behind. *)
Definition afterReset (ytDlpPath ffmpegPath : string) (width height : Z) : model :=
  model.set_statusMsg ""
    (model.set_state stateInput
       (model.set_height height
          (model.set_width width
             (model.set_ffmpegPath ffmpegPath
                (model.set_ytDlpPath ytDlpPath newModel))))).

End Reset.

(** * Properties *)

#[local] Arguments Go.wrap64 : simpl never.
#[local] Arguments Go.add : simpl never.
#[local] Arguments Go.sub : simpl never.
#[local] Arguments Go.div : simpl never.
#[local] Arguments Go.index : simpl never.
#[local] Arguments Go.store : simpl never.
#[local] Arguments Go.len : simpl never.

(** ** Arithmetic on [int] *)

Lemma wrap64_small (z : Z) : - 2 ^ 63 <= z < 2 ^ 63 -> Go.wrap64 z = z.
Proof.
  intros Hz. unfold Go.wrap64.
  rewrite Z.mod_small; lia.
Qed.

Lemma add_small (a b : Z) : - 2 ^ 63 <= a + b < 2 ^ 63 -> Go.add a b = a + b.
Proof. apply wrap64_small. Qed.

Lemma sub_small (a b : Z) : - 2 ^ 63 <= a - b < 2 ^ 63 -> Go.sub a b = a - b.
Proof. apply wrap64_small. Qed.

Lemma div_small (a b : Z) :
  - 2 ^ 63 <= a < 2 ^ 63 -> 0 < b -> Go.div a b = Z.quot a b.
Proof.
  intros Ha Hb. apply wrap64_small.
  destruct (Z.le_gt_cases 0 a) as [Hp | Hn].
  - pose proof (Z.quot_pos a b Hp Hb).
    assert (Z.quot a b <= a) by (apply Z.quot_le_upper_bound; nia). lia.
  - assert (Hq : Z.quot a b = - Z.quot (- a) b) by (rewrite Z.quot_opp_l; lia).
    assert (0 <= Z.quot (- a) b) by (apply Z.quot_pos; lia).
    assert (Z.quot (- a) b <= - a) by (apply Z.quot_le_upper_bound; nia). lia.
Qed.

(** ** The filename sanitizer *)

Lemma sanitized_byte_is_safe (b : ascii) :
  ~ In (Go.replaceByte sanitizeTable b) unsafeBytes.
Proof.
  destruct b as [[] [] [] [] [] [] [] []]; vm_compute; intuition discriminate.
Qed.

Lemma sanitized_byte_is_fixed (b : ascii) :
  Go.replaceByte sanitizeTable (Go.replaceByte sanitizeTable b)
  = Go.replaceByte sanitizeTable b.
Proof. destruct b as [[] [] [] [] [] [] [] []]; reflexivity. Qed.

Lemma safe_byte_is_kept (b : ascii) :
  ~ In b unsafeBytes -> Go.replaceByte sanitizeTable b = b.
Proof.
  destruct b as [[] [] [] [] [] [] [] []]; try reflexivity;
    intros Hn; exfalso; apply Hn; vm_compute; tauto.
Qed.

Lemma mapBytes_get (f : ascii -> ascii) (s : string) (n : nat) :
  String.get n (Go.mapBytes f s) = option_map f (String.get n s).
Proof.
  revert n; induction s as [|c s IH]; intros [|n]; simpl; auto.
Qed.

Lemma mapBytes_bytes (f : ascii -> ascii) (s : string) :
  list_ascii_of_string (Go.mapBytes f s) = List.map f (list_ascii_of_string s).
Proof. induction s as [|c s IH]; simpl; congruence. Qed.

Lemma mapBytes_length (f : ascii -> ascii) (s : string) :
  String.length (Go.mapBytes f s) = String.length s.
Proof. induction s as [|c s IH]; simpl; congruence. Qed.

(** C8.  The sanitizer is idempotent, and its result has the length of
    its argument and contains none of the nine bytes of [unsafeBytes]
    (slash, backslash, colon, star, question mark, double quote, the two
    angle brackets and the bar):
    every such byte of the argument is replaced by another, safe byte,
    and every other byte is kept. *)
Theorem sanitizeFilename_idempotent_and_safe (s : string) :
  sanitizeFilename (sanitizeFilename s) = sanitizeFilename s
  /\ (forall c, In c unsafeBytes ->
        ~ In c (list_ascii_of_string (sanitizeFilename s)))
  /\ String.length (sanitizeFilename s) = String.length s
  /\ (forall n c, String.get n s = Some c ->
        exists c', String.get n (sanitizeFilename s) = Some c'
                   /\ ~ In c' unsafeBytes
                   /\ (In c unsafeBytes -> c' <> c)
                   /\ (~ In c unsafeBytes -> c' = c)).
Proof.
  unfold sanitizeFilename, Go.Replace.
  repeat split.
  - induction s as [|c s IH]; cbn [Go.mapBytes]; [reflexivity|].
    now rewrite sanitized_byte_is_fixed, IH.
  - intros c Hc Hin. rewrite mapBytes_bytes in Hin.
    apply in_map_iff in Hin as (b & <- & _).
    now apply (sanitized_byte_is_safe b).
  - apply mapBytes_length.
  - intros n c Hget. rewrite mapBytes_get, Hget. cbn [option_map].
    eexists; split; [reflexivity|]. repeat split.
    + apply sanitized_byte_is_safe.
    + intros Hc Heq. apply (sanitized_byte_is_safe c). rewrite Heq. exact Hc.
    + apply safe_byte_is_kept.
Qed.

(** ** The controller *)

(** Case analysis on the first step of a computation that returned. *)
Ltac returned :=
  repeat match goal with
         | |- (?r ≫= _) = Done _ -> _ =>
             let E := fresh "E" in destruct r eqn:E; cbn; [|discriminate]
         end.

Section ControllerFacts.
Context `{Bubbles}.

Lemma index_in_range {A} (s : list A) (i : Z) :
  0 <= i < Go.len s -> exists a, Go.index s i = Done a /\ s !! Z.to_nat i = Some a.
Proof.
  intros Hi. unfold Go.index, Go.len in *.
  destruct (Z.ltb_spec i 0); [lia|].
  destruct (s !! Z.to_nat i) eqn:E; [eauto|].
  apply lookup_ge_None in E. lia.
Qed.

Lemma store_in_range {A} (s : list A) (i : Z) (a : A) :
  0 <= i < Go.len s -> Go.store s i a = Done (<[Z.to_nat i := a]> s).
Proof.
  intros Hi. unfold Go.store, Go.len in *.
  destruct (Z.ltb_spec i 0); [lia|].
  destruct (Nat.ltb_spec (Z.to_nat i) (length s)); [reflexivity|lia].
Qed.

Lemma store_length {A} (s s' : list A) (i : Z) (a : A) :
  Go.store s i a = Done s' -> length s' = length s.
Proof.
  unfold Go.store. destruct (i <? 0); [discriminate|].
  destruct (_ <? _)%nat; [|discriminate].
  intros [= <-]. apply length_insert.
Qed.

(** The second switch changes the widgets only. *)
Lemma delegate_frame (msg : Msg) (m m' : model) (cmds cmds' : list Cmd) :
  delegate msg m cmds = Done (m', cmds') ->
  model.state m' = model.state m
  /\ model.focusIndex m' = model.focusIndex m
  /\ model.selectedYT m' = model.selectedYT m
  /\ model.selectedMB m' = model.selectedMB m
  /\ model.selectedTrack m' = model.selectedTrack m
  /\ length (model.tagInputs m') = length (model.tagInputs m).
Proof.
  unfold delegate. destruct (model.state m) eqn:Es;
    try (destruct (list_Update _ _) as [l c]);
    try (intros [= <- <-]; cbn; auto 10).
  destruct (_ <? _); [|intros [= <- <-]; cbn; auto 10].
  destruct (Go.index _ _) as [t|]; [|discriminate]. cbn.
  destruct (Go.store _ _ _) as [inputs|] eqn:Est; [|discriminate]. cbn.
  intros [= <- <-]. cbn. apply store_length in Est. auto 10.
Qed.

Lemma delegate_total (msg : Msg) (m : model) (cmds : list Cmd) :
  (model.state m = stateEditTags -> 0 <= model.focusIndex m) ->
  exists r, delegate msg m cmds = Done r.
Proof.
  intros Hf. unfold delegate.
  destruct (model.state m); try (destruct (list_Update _ _) as [l c]); eauto.
  destruct (Z.ltb_spec (model.focusIndex m) (Go.len (model.tagInputs m))); eauto.
  specialize (Hf eq_refl).
  destruct (index_in_range (model.tagInputs m) (model.focusIndex m)) as (t & -> & _);
    [lia|]. cbn.
  rewrite store_in_range by lia. cbn. eauto.
Qed.

Lemma updateOther_editing (msg : Msg) (m : model) :
  editing m -> editing (updateOther msg m).1.
Proof.
  unfold editing. intros Hm.
  destruct msg as [w h| k | p e | p e | i e | ys ms e | its e | its e | f e | | |];
    try destruct e; cbn; try (intros; discriminate); auto;
    destruct (Go.len its =? 0); cbn; intros; discriminate.
Qed.

Lemma refocus_length (i f : Z) (inputs : list textinput.Model) :
  length (refocus i f inputs).1 = length inputs.
Proof.
  revert i; induction inputs as [|t rest IH]; intros i; cbn; [reflexivity|].
  specialize (IH (i + 1)). destruct (refocus (i + 1) f rest) as [r c].
  destruct (i =? f); cbn in *; congruence.
Qed.

Lemma createTagInputs_done (m : model) (inputs : list textinput.Model) :
  createTagInputs m = Done inputs ->
  length inputs = 5%nat
  /\ holdsRelease (model.selectedMB m) /\ holdsTrack (model.selectedTrack m).
Proof.
  unfold createTagInputs, holdsRelease, holdsTrack.
  destruct (Item.meta (model.selectedMB m)); cbn; try discriminate.
  destruct (Item.meta (model.selectedTrack m)); cbn; try discriminate.
  intros [= <-]. cbn. eauto.
Qed.

Lemma len_five {A} (s : list A) : length s = 5%nat -> Go.len s = 5.
Proof. unfold Go.len. intros ->. reflexivity. Qed.

Lemma updateKey_editing (k : tea.Key) (m m' : model) (cmds : list Cmd) :
  editing m -> updateKey k m = Done (m', cmds) -> editing m'.
Proof.
  intros Hm. unfold updateKey.
  destruct (model.state m) eqn:Es.
  all: try (intros [= <- <-]; unfold editing; rewrite Es; discriminate).
  all: try (repeat match goal with
                   | |- context [if ?b then _ else _] => destruct b
                   | |- context [match blist.SelectedItem ?l with _ => _ end] =>
                       destruct (blist.SelectedItem l)
                   end;
            intros [= <- <-]; unfold editing; cbn; try rewrite Es; discriminate).
  - (* stateSelectTrack *)
    destruct (tea.isEnter k).
    + destruct (blist.SelectedItem _) as [i|];
        [|intros [= <- <-]; unfold editing; rewrite Es; discriminate].
      returned. intros [= <- <-].
      apply createTagInputs_done in E as (Hlen & Hr & Ht). cbn in Hr, Ht.
      cbn in E1. apply store_length in E1.
      unfold editing. cbn. intros _. repeat split; try lia; auto; congruence.
    + destruct (tea.isEsc k); intros [= <- <-]; unfold editing; cbn;
        try rewrite Es; discriminate.
  - (* stateEditTags *)
    destruct (Hm Es) as (Hlen & Hf & Ht & Hr).
    pose proof (len_five _ Hlen) as Hl.
    destruct (tea.isEnter k).
    + rewrite Hl. rewrite sub_small by lia.
      destruct (Z.eqb_spec (model.focusIndex m) (5 - 1)).
      * cbn. returned. intros [= <- <-]. unfold editing. cbn. discriminate.
      * cbn. rewrite add_small by lia. returned. intros [= <- <-].
        apply store_length in E0.
        unfold editing. cbn. intros _. repeat split; try lia; auto; congruence.
    + destruct (tea.isEsc k);
        [intros [= <- <-]; unfold editing; cbn; discriminate|].
      set (m1 := if String.eqb (tea.String k) "up" then _ else _).
      assert (H1 : model.state m1 = stateEditTags
                   /\ model.tagInputs m1 = model.tagInputs m
                   /\ model.selectedTrack m1 = model.selectedTrack m
                   /\ model.selectedMB m1 = model.selectedMB m
                   /\ -1 <= model.focusIndex m1 <= 5).
      { subst m1. destruct (String.eqb _ "up"); [|destruct (String.eqb _ "down")];
          cbn; rewrite ?sub_small, ?add_small by lia; repeat split; auto; lia. }
      destruct H1 as (Hs1 & Hi1 & Ht1 & Hr1 & Hf1).
      set (m2 := if model.focusIndex m1 <? 0 then _ else _).
      assert (H2 : model.state m2 = stateEditTags
                   /\ model.tagInputs m2 = model.tagInputs m
                   /\ model.selectedTrack m2 = model.selectedTrack m
                   /\ model.selectedMB m2 = model.selectedMB m
                   /\ 0 <= model.focusIndex m2 < 5).
      { subst m2. rewrite Hi1, Hl. rewrite sub_small by lia.
        destruct (Z.ltb_spec (model.focusIndex m1) 0);
          [|destruct (Z.geb_spec (model.focusIndex m1) 5)];
          cbn; repeat split; auto; lia. }
      destruct H2 as (Hs2 & Hi2 & Ht2 & Hr2 & Hf2).
      pose proof (refocus_length 0 (model.focusIndex m2) (model.tagInputs m2)) as Hrl.
      destruct (refocus 0 _ _) as [inputs c]. cbn in Hrl.
      intros [= <- <-]. unfold editing. cbn. intros _.
      rewrite Hrl, Hi2, Ht2, Hr2. auto.
Qed.

Lemma updateKey_total_editing (k : tea.Key) (m : model) :
  editing m -> model.state m = stateEditTags ->
  exists m' cmds, updateKey k m = Done (m', cmds).
Proof.
  intros Hm Es. destruct (Hm Es) as (Hlen & Hf & (t & Ht) & Hr).
  pose proof (len_five _ Hlen) as Hl.
  unfold updateKey. rewrite Es.
  destruct (tea.isEnter k).
  - rewrite Hl. rewrite sub_small by lia.
    destruct (Z.eqb_spec (model.focusIndex m) (5 - 1)).
    + cbn. rewrite Ht. cbn.
      destruct (index_in_range (model.tagInputs m) 0) as (t0 & -> & _); [lia|].
      destruct (index_in_range (model.tagInputs m) 1) as (t1 & -> & _); [lia|].
      destruct (index_in_range (model.tagInputs m) 2) as (t2 & -> & _); [lia|].
      destruct (index_in_range (model.tagInputs m) 3) as (t3 & -> & _); [lia|].
      destruct (index_in_range (model.tagInputs m) 4) as (t4 & -> & _); [lia|].
      cbn. eauto.
    + cbn. rewrite add_small by lia.
      destruct (index_in_range (model.tagInputs m) (model.focusIndex m + 1))
        as (t' & -> & _); [lia|].
      cbn. rewrite store_in_range by lia. cbn. eauto.
  - destruct (tea.isEsc k); [eauto|].
    destruct (refocus 0 _ _). eauto.
Qed.

Lemma Update_editing (msg : Msg) (m m' : model) (cmds : list Cmd) :
  editing m -> Update msg m = Done (m', cmds) -> editing m'.
Proof.
  intros Hm Hu.
  assert (exists m1 c1, editing m1
            /\ (delegate msg m1 c1 = Done (m', cmds) \/ m1 = m')) as (m1 & c1 & H1 & Hd).
  { unfold Update in Hu. destruct msg as [w h| k | | | | | | | | | |].
    2: { destruct (tea.isCtrlC k); [injection Hu as <- <-; exists m, []; auto|].
         destruct (updateKey k m) as [[m1 c1]|] eqn:Ek; [|discriminate].
         cbn in Hu. apply updateKey_editing in Ek; eauto. }
    all: match type of Hu with
         | context [updateOther ?msg ?m0] =>
             pose proof (updateOther_editing msg m0 Hm);
             destruct (updateOther msg m0) as [m1 c1]; eauto
         end. }
  destruct Hd as [Hd | <-]; [|assumption].
  apply delegate_frame in Hd as (Es & Ef & _ & Er & Et & El).
  unfold editing in *. rewrite Es, Ef, Er, Et, El. assumption.
Qed.

Lemma Update_total_editing (msg : Msg) (m : model) :
  editing m -> model.state m = stateEditTags ->
  exists m' cmds, Update msg m = Done (m', cmds).
Proof.
  intros Hm Es.
  assert (Hd : forall m1 c1, editing m1 -> exists r, delegate msg m1 c1 = Done r).
  { intros m1 c1 H1. apply delegate_total. intros E. apply H1 in E. lia. }
  unfold Update. destruct msg as [w h| k | | | | | | | | | |].
  2: { destruct (tea.isCtrlC k); [eauto|].
       destruct (updateKey_total_editing k m Hm Es) as (m1 & c1 & Ek).
       rewrite Ek. cbn. destruct (Hd m1 c1) as ([m' c'] & ->); eauto.
       eapply updateKey_editing; eauto. }
  all: match goal with
       | |- context [updateOther ?msg ?m0] =>
           pose proof (updateOther_editing msg m0 Hm);
           destruct (updateOther msg m0) as [m1 c1];
           destruct (Hd m1 c1) as ([m' c'] & ->); eauto
       end.
Qed.

Lemma editing_newModel : editing newModel.
Proof. unfold editing. cbn. discriminate. Qed.

Lemma step_editing (p p' : Program) (e : Event) :
  editing (current p) -> step p e = Running p' -> editing (current p').
Proof.
  intros Hp. unfold step, feed.
  destruct e as [k | w h | n W].
  1, 2: destruct (Update _ _) as [[m' c]|] eqn:Eu; [|discriminate];
        intros [= <-]; cbn; eapply Update_editing; eauto.
  destruct (pending p !! n); [|discriminate].
  destruct (perform W _) as [io|]; [|discriminate].
  destruct (value io) as [msg|]; [|discriminate].
  destruct (Update _ _) as [[m' c']|] eqn:Eu; [|discriminate].
  intros [= <-]; cbn; eapply Update_editing; eauto.
Qed.

Lemma play_editing (events : list Event) (p p' : Program) :
  editing (current p) -> play events p = Running p' -> editing (current p').
Proof.
  revert p; induction events as [|e rest IH]; intros p Hp; cbn.
  - intros [= <-]. assumption.
  - destruct (step p e) as [p1| | |] eqn:Es; try discriminate.
    apply IH. eapply step_editing; eauto.
Qed.

Lemma reachable_editing (m : model) : reachable m -> editing m.
Proof.
  intros (events & p & Hplay & <-).
  eapply play_editing; [|exact Hplay]. apply editing_newModel.
Qed.

Lemma key_named_s (k : tea.Key) :
  tea.String k = "s" -> tea.isEnter k = false /\ tea.isCtrlC k = false /\ tea.isEsc k = false.
Proof.
  destruct k as [t r a p]. unfold tea.String, tea.isEnter, tea.isCtrlC, tea.isEsc.
  simpl. destruct a, t; simpl; intros E; try discriminate; auto.
Qed.

(** C10.  When the combined search completes without error the
    controller moves to [stateSelectYT] and shows the two lists as they
    came, whatever they contain: with no video the selection list is
    empty and nothing is selected; no error is set and no skip is
    offered.  The release search alone, by contrast, moves to
    [stateConfirmSkipMB] on an empty result. *)
Theorem search_success_selects_source (m : model) (ytItems mbItems : list item) :
  exists m',
    Update (searchFinishedMsg ytItems mbItems None) m = Done (m', [Cmd.widget])
    /\ model.state m' = stateSelectYT
    /\ blist.items (model.ytResults m') = ytItems
    /\ blist.items (model.mbResults m') = mbItems
    /\ model.error m' = model.error m
    /\ (ytItems = [] -> blist.SelectedItem (model.ytResults m') = None)
    /\ exists m'', Update (mbSearchFinishedMsg [] None) m = Done (m'', [])
                   /\ model.state m'' = stateConfirmSkipMB.
Proof.
  eexists. split; [reflexivity|]. cbn.
  repeat split.
  - intros ->. unfold blist.SelectedItem. cbn. now destruct (_ <? 0).
  - eexists. split; reflexivity.
Qed.

Lemma video_selection_keys (m : model) (k : tea.Key) :
  model.state m = stateSelectYT ->
  exists m' cmds, Update (KeyMsg k) m = Done (m', cmds)
    /\ (model.state m' = stateSelectYT \/ model.state m' = stateSearching
        \/ model.state m' = stateInput).
Proof.
  intros Hs. unfold Update, updateKey. rewrite Hs.
  destruct (tea.isCtrlC k); [eauto 6|].
  destruct (tea.isEnter k).
  - destruct (blist.SelectedItem _); cbn; [eauto 8|].
    unfold delegate. rewrite Hs. destruct (list_Update _ _). eauto 8.
  - destruct (tea.isEsc k); cbn; [eauto 8|].
    unfold delegate. rewrite Hs. destruct (list_Update _ _). eauto 8.
Qed.

(** C1, as amended.  The skip key is [s] in [stateSelectMB]: it moves
    the controller to [stateConfirmSkipMB] and dispatches nothing.  In
    [stateSelectYT] every key is handled, and leaves the controller in
    [stateSelectYT], [stateSearching] or [stateInput]. *)
Theorem skip_key_belongs_to_release_selection (m : model) (k : tea.Key) :
  (model.state m = stateSelectMB -> tea.String k = "s" ->
     Update (KeyMsg k) m = Done (model.set_state stateConfirmSkipMB m, []))
  /\ (model.state m = stateSelectYT ->
      exists m' cmds, Update (KeyMsg k) m = Done (m', cmds)
        /\ (model.state m' = stateSelectYT \/ model.state m' = stateSearching
            \/ model.state m' = stateInput)).
Proof.
  split.
  - intros Hs Hk. destruct (key_named_s k Hk) as (He & Hc & _).
    unfold Update, updateKey. rewrite Hc, Hs, He, Hk. reflexivity.
  - apply video_selection_keys.
Qed.

(** C6, as amended.  In [stateShowSuccess] and [stateError] every key
    but Ctrl+C leaves the model as it is and dispatches the reset; the
    reset message then yields the model [afterReset]: a fresh model in
    [stateInput] with an empty status message, into which exactly the
    two tool paths and the terminal width and height are copied from
    the old model. *)
Theorem key_after_result_resets (m : model) (k : tea.Key) (W : World) :
  model.state m = stateShowSuccess \/ model.state m = stateError ->
  tea.isCtrlC k = false ->
  Update (KeyMsg k) m = Done (m, [Cmd.reset])
  /\ perform W Cmd.reset = Done (mkIO (Some resetMsg) [])
  /\ exists m',
       Update resetMsg m = Done (m', [Cmd.textinputBlink; Cmd.widget])
       /\ m' = afterReset (model.ytDlpPath m) (model.ffmpegPath m)
                          (model.width m) (model.height m)
       /\ model.state m' = stateInput
       /\ model.ytDlpPath m' = model.ytDlpPath m
       /\ model.ffmpegPath m' = model.ffmpegPath m
       /\ model.width m' = model.width m
       /\ model.height m' = model.height m
       /\ model.statusMsg m' = ""
       /\ model.selectedYT m' = model.selectedYT newModel
       /\ model.selectedMB m' = model.selectedMB newModel
       /\ model.selectedTrack m' = model.selectedTrack newModel
       /\ model.tagInputs m' = model.tagInputs newModel
       /\ model.focusIndex m' = model.focusIndex newModel
       /\ model.error m' = model.error newModel
       /\ model.lastFile m' = model.lastFile newModel
       /\ model.input m' = model.input newModel
       /\ model.ytResults m' = model.ytResults newModel
       /\ model.mbResults m' = model.mbResults newModel
       /\ model.tracklist m' = model.tracklist newModel
       /\ model.spinner m' = model.spinner newModel.
Proof.
  intros Hs Hk. split; [|split].
  - unfold Update, updateKey, delegate. rewrite Hk.
    destruct Hs as [E | E]; rewrite E; cbn; rewrite E; reflexivity.
  - reflexivity.
  - eexists. split; [reflexivity|]. cbn. repeat split; reflexivity.
Qed.
End ControllerFacts.

(** ** The commands *)

Section CommandFacts.
Context (W : World).

Lemma tryCover_spec (tmpDir url : string) :
  tryCover W tmpDir url =
  if answered200 (Get W url)
  then mkIO (Go.Join tmpDir "cover.jpg") [Requested url; Wrote (Go.Join tmpDir "cover.jpg")]
  else mkIO "" [Requested url].
Proof.
  unfold tryCover, httpGet, answered200. cbn.
  destruct (Get W url) as [e | [|[p|p|]|p] s b]; try reflexivity;
  repeat (destruct p as [p|p|]; try reflexivity).
Qed.

Lemma cover_path_nonempty (tmpDir : string) : String.eqb (Go.Join tmpDir "cover.jpg") "" = false.
Proof. unfold Go.Join. destruct tmpDir; reflexivity. Qed.

Lemma fetchCover_spec (tmpDir : string) (r : MBRelease) :
  fetchCover W tmpDir r =
  let p := Go.Join tmpDir "cover.jpg" in
  if answered200 (Get W (releaseCoverURL r))
  then mkIO p [Requested (releaseCoverURL r); Wrote p]
  else if String.eqb (MBReleaseGroup.ID (MBRelease.ReleaseGroup r)) ""
  then mkIO "" [Requested (releaseCoverURL r)]
  else if answered200 (Get W (groupCoverURL r))
  then mkIO p [Requested (releaseCoverURL r); Requested (groupCoverURL r); Wrote p]
  else mkIO "" [Requested (releaseCoverURL r); Requested (groupCoverURL r)].
Proof.
  unfold fetchCover. fold (releaseCoverURL r). fold (groupCoverURL r).
  rewrite !tryCover_spec. cbn zeta.
  destruct (answered200 (Get W (releaseCoverURL r))).
  - unfold mbind, IO_bind. cbn [value trace]. rewrite cover_path_nonempty. reflexivity.
  - unfold mbind, IO_bind. cbn [value trace String.eqb andb].
    destruct (String.eqb _ ""); cbn [negb]; [reflexivity|].
    destruct (answered200 _); reflexivity.
Qed.

Lemma cover_urls_differ (r : MBRelease) : releaseCoverURL r <> groupCoverURL r.
Proof. unfold releaseCoverURL, groupCoverURL. cbn. intros [=]. Qed.

Lemma value_bind {A B} (m : IO A) (k : A -> IO B) :
  value (m ≫= k) = value (k (value m)).
Proof. reflexivity. Qed.

Lemma trace_bind {A B} (m : IO A) (k : A -> IO B) :
  trace (m ≫= k) = (trace m ++ trace (k (value m)))%list.
Proof. reflexivity. Qed.

Lemma fetchAudio_value (ytDlpPath tmpDir : string) (selectedYT : item) :
  value (fetchAudio W ytDlpPath tmpDir selectedYT) =
  let o := CombinedOutput W ytDlpPath (audioArgs (Go.Join tmpDir "audio.tmp") selectedYT) in
  (Go.Join tmpDir "audio.tmp",
   if failed o
   then Some ("音声のダウンロード失敗:" ++ String "010" (combined o))
   else None).
Proof.
  unfold fetchAudio. rewrite value_bind. unfold run. cbn [value].
  destruct (failed _); reflexivity.
Qed.

Lemma fetchAssets_value (ytDlpPath tmpDir : string) (selectedYT selectedMB : item)
  (tags : finalTags) (r : MBRelease) :
  Item.meta selectedMB = MetaRelease r ->
  exists fetch,
    fetchAssets W ytDlpPath tmpDir selectedYT selectedMB tags = Done fetch
    /\ value fetch =
        mkFetched (value (fetchAudio W ytDlpPath tmpDir selectedYT)).1
                  (value (fetchCover W tmpDir r))
                  (value (getLyrics W (finalTags.Artist tags) (finalTags.Title tags)
                                    (finalTags.Album tags) (finalTags.DurationSec tags)))
                  (value (fetchAudio W ytDlpPath tmpDir selectedYT)).2.
Proof.
  intros Hmeta. unfold fetchAssets. rewrite Hmeta.
  eexists. split; [reflexivity|].
  rewrite value_bind. destruct (value (fetchAudio _ _ _ _)) as [a e].
  rewrite !value_bind. reflexivity.
Qed.


Lemma mergeAssets_value (ffmpegPath : string) (f : Fetched) (tags : finalTags) :
  value (mergeAssets W ffmpegPath f tags) =
  match dlErr f with
  | Some e => downloadFinishedMsg "" (Some e)
  | None =>
      let o := CombinedOutput W ffmpegPath
                 (ffmpegArgs (audioPath f) (coverPath f) (lyrics f)
                             (finalPathOf tags) tags) in
      if failed o
      then downloadFinishedMsg "" (Some ("ffmpegでの変換失敗:" ++ String "010" (combined o)))
      else downloadFinishedMsg
             (if negb (String.eqb (lyrics f) "")
              then finalPathOf tags ++ " (歌詞付き)" else finalPathOf tags) None
  end.
Proof.
  unfold mergeAssets. destruct (dlErr f); [reflexivity|].
  cbn zeta. rewrite value_bind. unfold run. cbn [value].
  fold (finalPathOf tags). destruct (failed _); reflexivity.
Qed.

(** C2.  A tagged download always returns a message.  If the scratch
    directory cannot be made, or if the audio extraction fails, the
    message is a failure, whatever the cover and lyrics lookups gave.
    If the audio extraction succeeds while both lookups give nothing,
    the fetch yields the audio path, an empty cover path, empty lyrics
    and no error, and the message is that of the merge: success with
    the final path when ffmpeg succeeds. *)
Theorem audio_failure_dominates
  (ytDlpPath ffmpegPath : string) (selectedYT selectedMB : item) (tags : finalTags)
  (r : MBRelease) :
  Item.meta selectedMB = MetaRelease r ->
  exists io,
    downloadCmd W ytDlpPath ffmpegPath selectedYT selectedMB tags = Done io
    /\ match MkdirTemp W (Go.Join mainDir tempDir) "gomusicdl_*" with
       | inr err => value io = downloadFinishedMsg "" (Some err)
       | inl tmpDir =>
           let audio := CombinedOutput W ytDlpPath (audioArgs (Go.Join tmpDir "audio.tmp") selectedYT) in
           let cover := value (fetchCover W tmpDir r) in
           let words := value (getLyrics W (finalTags.Artist tags) (finalTags.Title tags)
                                         (finalTags.Album tags) (finalTags.DurationSec tags)) in
           (failed audio = true ->
              value io = downloadFinishedMsg ""
                           (Some ("音声のダウンロード失敗:" ++ String "010" (combined audio))))
           /\ (failed audio = false -> cover = "" -> words = "" ->
                 exists fetch,
                   fetchAssets W ytDlpPath tmpDir selectedYT selectedMB tags = Done fetch
                   /\ value fetch = mkFetched (Go.Join tmpDir "audio.tmp") "" "" None
                   /\ let merge := CombinedOutput W ffmpegPath
                                      (ffmpegArgs (Go.Join tmpDir "audio.tmp") "" ""
                                                  (finalPathOf tags) tags) in
                      (failed merge = false ->
                         value io = downloadFinishedMsg (finalPathOf tags) None)
                      /\ (failed merge = true ->
                            value io = downloadFinishedMsg ""
                              (Some ("ffmpegでの変換失敗:" ++ String "010" (combined merge)))))
       end.
Proof.
  intros Hmeta. unfold downloadCmd, mkdirTemp. cbn [value].
  destruct (MkdirTemp W _ _) as [tmpDir | err]; [|eexists; split; reflexivity].
  destruct (fetchAssets_value ytDlpPath tmpDir selectedYT selectedMB tags r Hmeta)
    as (fetch & Hf & Hv).
  rewrite Hf. cbn [mbind Result_bind]. eexists. split; [reflexivity|].
  unfold deferring. rewrite !value_bind. cbn [value mret IO_ret].
  rewrite mergeAssets_value, Hv. rewrite fetchAudio_value. cbn zeta. cbn [fst snd dlErr audioPath coverPath lyrics].
  split.
  - intros ->. reflexivity.
  - intros Ha Hc Hw. exists fetch. split; [reflexivity|].
    rewrite Hv, fetchAudio_value. cbn zeta. cbn [fst snd].
    rewrite Ha, Hc, Hw. split; [reflexivity|].
    cbn zeta. split; intros ->; reflexivity.
Qed.

Lemma getLyrics_value (artist title album : string) (duration : Z) :
  value (getLyrics W artist title album duration) =
  match Get W (lyricsURL W artist title album duration) with
  | HttpFailed _ => ""
  | HttpResponse StatusCode _ body =>
      if negb (StatusCode =? 200) then ""
      else match Decode W body ≫= decodeLrclib zeroLrclib with
           | None => ""
           | Some data => LrclibResponse.PlainLyrics data
           end
  end.
Proof.
  unfold getLyrics. cbn zeta. fold (lyricsURL W artist title album duration).
  unfold httpGet, mbind at 1, IO_bind. cbn [value].
  destruct (Get W _) as [e | c st body]; [reflexivity|].
  destruct (negb _); [reflexivity|].
  destruct (Decode W body ≫= _); reflexivity.
Qed.

Lemma lrclib_member (acc : LrclibResponse) (key : string) (v : json.Value) :
  match json.findField
          [json.field "syncedLyrics" LrclibResponse.PlainLyrics
             (fun v _ => LrclibResponse.mk v) json.string_] key with
  | Some f => f.2 acc v
  | None => Some acc
  end =
  if namesSynced key
  then match v with
       | json.Str s => Some (LrclibResponse.mk s)
       | json.Null => Some acc
       | _ => None
       end
  else Some acc.
Proof.
  unfold json.findField, namesSynced. cbn [List.find fst json.field].
  destruct (String.eqb "syncedLyrics" key); cbn [orb].
  - destruct v, acc; reflexivity.
  - destruct (json.foldEq "syncedLyrics" key); [|reflexivity].
    destruct v, acc; reflexivity.
Qed.

Lemma decodeLrclib_members (kvs : list (string * json.Value)) (acc : option LrclibResponse) :
  Forall (fun kv => namesSynced kv.1 = false) kvs ->
  foldl (fun acc kv =>
           t ← acc;
           match json.findField
                   [json.field "syncedLyrics" LrclibResponse.PlainLyrics
                      (fun v _ => LrclibResponse.mk v) json.string_] kv.1 with
           | Some f => f.2 t kv.2
           | None => Some t
           end) acc kvs = acc.
Proof.
  intros Hk. revert acc. induction Hk as [|kv kvs Hkv _ IH]; intros acc; [reflexivity|].
  cbn [foldl]. rewrite IH. destruct acc as [t|]; [|reflexivity].
  cbn [mbind option_bind]. rewrite lrclib_member, Hkv. reflexivity.
Qed.

Lemma decodeLrclib_synced (before after : list (string * json.Value)) (synced : string) :
  Forall (fun kv => namesSynced kv.1 = false) before ->
  Forall (fun kv => namesSynced kv.1 = false) after ->
  decodeLrclib zeroLrclib
    (json.Object (before ++ ("syncedLyrics", json.Str synced) :: after))
  = Some (LrclibResponse.mk synced).
Proof.
  intros Hb Ha. unfold decodeLrclib, json.struct.
  rewrite foldl_app. rewrite (decodeLrclib_members before) by assumption.
  cbn [foldl]. rewrite (decodeLrclib_members after) by assumption.
  reflexivity.
Qed.

Lemma getLyrics_returns_synced_member (artist title album : string) (duration : Z)
  (status body synced : string) (before after : list (string * json.Value)) :
  Get W (lyricsURL W artist title album duration) = HttpResponse 200 status body ->
  Decode W body = Some (json.Object (before ++ ("syncedLyrics", json.Str synced) :: after)) ->
  Forall (fun kv => namesSynced kv.1 = false) before ->
  Forall (fun kv => namesSynced kv.1 = false) after ->
  value (getLyrics W artist title album duration) = synced.
Proof.
  intros Hget Hdec Hb Ha. rewrite getLyrics_value, Hget. cbn [negb Z.eqb Pos.eqb].
  rewrite Hdec. cbn [mbind option_bind].
  rewrite decodeLrclib_synced by assumption. reflexivity.
Qed.

(** X12.  The lyrics lookup returns the empty string when the request
    fails, when the status is not 200, and when the body does not
    decode. *)
Lemma getLyrics_empty_on_failure (artist title album : string) (duration : Z) :
  (forall e, Get W (lyricsURL W artist title album duration) = HttpFailed e ->
     value (getLyrics W artist title album duration) = "")
  /\ (forall code status body,
        Get W (lyricsURL W artist title album duration) = HttpResponse code status body ->
        code <> 200 -> value (getLyrics W artist title album duration) = "")
  /\ (forall status body,
        Get W (lyricsURL W artist title album duration) = HttpResponse 200 status body ->
        Decode W body ≫= decodeLrclib zeroLrclib = None ->
        value (getLyrics W artist title album duration) = "").
Proof.
  repeat split.
  - intros e He. now rewrite getLyrics_value, He.
  - intros code status body He Hc. rewrite getLyrics_value, He.
    destruct (Z.eqb_spec code 200); [contradiction|reflexivity].
  - intros status body He Hd. rewrite getLyrics_value, He. cbn [negb Z.eqb Pos.eqb].
    now rewrite Hd.
Qed.

End CommandFacts.

(** ** The release group of a decoded release *)

Lemma findField_in {T} (fields : list (json.Field T)) (key : string) (f : json.Field T) :
  json.findField fields key = Some f -> In f fields.
Proof.
  unfold json.findField.
  destruct (List.find (fun f => String.eqb (fst f) key) fields) eqn:E1.
  - intros [= <-]. apply find_some in E1. tauto.
  - intros E2. apply find_some in E2. tauto.
Qed.

(** Storing the members of an object keeps what every field keeps. *)
Lemma struct_keeps {T} (fields : list (json.Field T)) (P : T -> Prop) :
  (forall f, In f fields -> forall t v t', P t -> f.2 t v = Some t' -> P t') ->
  forall old v t, P old -> json.struct fields old v = Some t -> P t.
Proof.
  intros Hf old v t Hold. unfold json.struct.
  destruct v as [| | | | |vs|kvs]; try discriminate; [congruence|].
  revert old Hold. induction kvs as [|kv kvs IH]; intros old Hold; cbn [foldl].
  - congruence.
  - cbn [mbind option_bind].
    destruct (json.findField fields kv.1) as [f|] eqn:Ef.
    + destruct (f.2 old kv.2) as [t1|] eqn:E1.
      * apply IH. eapply Hf; eauto using findField_in.
      * intros Hnone. exfalso. revert Hnone. clear.
        induction kvs as [|kv' kvs IH]; cbn [foldl]; [discriminate|exact IH].
    + apply IH. exact Hold.
Qed.

Lemma decodeReleaseGroup_keeps (old t : MBReleaseGroup) (v : json.Value) :
  decodeReleaseGroup old v = Some t -> t = old.
Proof.
  unfold decodeReleaseGroup. intros Hd.
  symmetry. revert Hd. apply (struct_keeps [] (fun t => old = t)); [|reflexivity].
  intros f [].
Qed.

Lemma decodeRelease_names_no_group (v : json.Value) (r : MBRelease) :
  decodeRelease zeroRelease v = Some r ->
  MBRelease.ReleaseGroup r = zeroReleaseGroup.
Proof.
  unfold decodeRelease.
  apply (struct_keeps _ (fun t => MBRelease.ReleaseGroup t = zeroReleaseGroup));
    [|reflexivity].
  intros f Hf t v' t' Ht.
  cbn [In] in Hf.
  repeat destruct Hf as [<- | Hf]; try contradiction;
    unfold json.field; cbn [snd];
    try (destruct (json.string_ _ v'); [|discriminate]; cbn; intros [= <-]; exact Ht);
    try (destruct (json.slice _ _ _ v'); [|discriminate]; cbn; intros [= <-]; exact Ht).
  destruct (decodeReleaseGroup _ v') as [g|] eqn:Eg; [|discriminate].
  cbn. intros [= <-]. cbn. apply decodeReleaseGroup_keeps in Eg. congruence.
Qed.

(** ** The messages of the commands *)

Section Typing.
Context (W : World).

Lemma doMusicBrainzSearch_typed (query : string) (items : list item) :
  value (doMusicBrainzSearch W query) = inl items ->
  Forall holdsDecodedRelease items.
Proof.
  unfold doMusicBrainzSearch. cbn zeta. rewrite value_bind.
  destruct (value (httpGet W _)) as [e | c st body]; [discriminate|].
  destruct (Decode W body) as [v|]; [|discriminate]. cbn [mbind option_bind].
  destruct (decodeSearchResponse [] v) as [releases|] eqn:Ed; [|discriminate].
  intros [= <-].
  assert (Hall : Forall (fun r => MBRelease.ReleaseGroup r = zeroReleaseGroup) releases).
  { revert Ed. unfold decodeSearchResponse.
    apply (struct_keeps _ (Forall (fun r => MBRelease.ReleaseGroup r = zeroReleaseGroup)));
      [|constructor].
    intros f [<- | []] t v' t' _. unfold json.field. cbn [snd].
    destruct (json.slice _ _ _ v') as [rs|] eqn:Es; [|discriminate].
    cbn. intros [= <-]. revert Es. unfold json.slice.
    destruct v' as [| | | | |vs|]; try discriminate; [intros [= <-]; constructor|].
    clear. revert rs. induction vs as [|v vs IH]; intros rs.
    - intros [= <-]. constructor.
    - cbn [mapM]. destruct (decodeRelease zeroRelease v) as [r|] eqn:Er; [|discriminate].
      cbn [mbind option_bind]. destruct (mapM _ vs) as [rs'|]; [|discriminate].
      cbn. intros [= <-]. constructor; [|apply IH; reflexivity].
      eapply decodeRelease_names_no_group; eauto. }
  apply Forall_forall. intros i Hi.
  apply list_elem_of_In, in_map_iff in Hi as (r & <- & Hr).
  exists r. split; [reflexivity|].
  rewrite Forall_forall in Hall. apply Hall. now apply list_elem_of_In.
Qed.

Lemma trackItems_typed (releaseData : MBRelease) :
  Forall holdsTrack (trackItems releaseData).
Proof.
  unfold trackItems. apply Forall_forall. intros i Hi.
  apply list_elem_of_join in Hi as (l & Hi & Hl).
  apply list_elem_of_In, in_map_iff in Hl as (media & <- & _).
  apply list_elem_of_In, in_map_iff in Hi as (t & <- & _).
  exists t. reflexivity.
Qed.

Lemma value_delivering (io : IO Msg) : value (delivering io) = Some (value io).
Proof. reflexivity. Qed.

Lemma getURLInfoCmd_typed (p q : string) : wellTyped (value (getURLInfoCmd W p q)).
Proof.
  unfold getURLInfoCmd. rewrite value_bind.
  destruct (failed _); [destruct (timedOut _); exact I|].
  destruct (_ ≫= _); exact I.
Qed.

Lemma searchMusicBrainzCmd_typed (q : string) :
  wellTyped (value (searchMusicBrainzCmd W q)).
Proof.
  unfold searchMusicBrainzCmd. rewrite value_bind.
  destruct (value (doMusicBrainzSearch W q)) eqn:E;
    cbn [value mret IO_ret wellTyped]; [|constructor].
  eapply doMusicBrainzSearch_typed; eauto.
Qed.

Lemma searchCmd_typed (p q : string) : wellTyped (value (searchCmd W p q)).
Proof.
  unfold searchCmd. rewrite value_bind.
  destruct (value (searchYouTube W _ _)) as [yt [e|]]; rewrite value_bind.
  - destruct (value (doMusicBrainzSearch W q));
      cbn [value mret IO_ret wellTyped]; constructor.
  - destruct (value (doMusicBrainzSearch W q)) eqn:E;
      cbn [value mret IO_ret wellTyped]; [|constructor].
    eapply doMusicBrainzSearch_typed; eauto.
Qed.

Lemma getTracklistCmd_typed (i : string) : wellTyped (value (getTracklistCmd W i)).
Proof.
  unfold getTracklistCmd. cbn zeta. rewrite value_bind.
  destruct (value (httpGet W _)); [constructor|].
  destruct (_ ≫= _); cbn [value mret IO_ret wellTyped];
    [apply trackItems_typed | constructor].
Qed.

Lemma simpleDownloadCmd_typed (p f : string) (yt : item) :
  wellTyped (value (simpleDownloadCmd W p f yt)).
Proof.
  unfold simpleDownloadCmd. cbn zeta. rewrite value_bind.
  destruct (value (mkdirTemp W _ _)); [|exact I].
  unfold deferring. rewrite !value_bind. cbn [value mret IO_ret].
  destruct (failed _); [exact I|]. rewrite value_bind.
  destruct (failed _); exact I.
Qed.

Lemma downloadCmd_typed (p f : string) (yt mb : item) (tags : finalTags) (io : IO Msg) :
  downloadCmd W p f yt mb tags = Done io -> wellTyped (value io).
Proof.
  unfold downloadCmd. destruct (value (mkdirTemp W _ _)).
  - destruct (fetchAssets W _ _ _ _ _) as [fetch|]; [|discriminate].
    cbn [mbind Result_bind]. intros Hio.
    assert (E : value io = value (mergeAssets W f (value fetch) tags))
      by (injection Hio as <-; reflexivity).
    rewrite E, mergeAssets_value. destruct (dlErr _); [exact I|].
    cbn zeta. destruct (failed _); exact I.
  - intros Hio.
    assert (E : value io = downloadFinishedMsg "" (Some g))
      by (injection Hio as <-; reflexivity).
    rewrite E. exact I.
Qed.

Lemma perform_wellTyped (c : Cmd) (io : IO (option Msg)) (msg : Msg) :
  perform W c = Done io -> value io = Some msg -> wellTyped msg.
Proof.
  intros Hp Hv.
  assert (Hw : match perform W c with
               | Done io => match value io with
                            | Some msg => wellTyped msg
                            | None => True
                            end
               | Panic _ => True
               end).
  { clear Hp Hv.
    destruct c; cbn [perform]; rewrite ?value_delivering; cbn [value];
      try exact I;
      auto using getURLInfoCmd_typed, searchMusicBrainzCmd_typed, searchCmd_typed,
                 getTracklistCmd_typed, simpleDownloadCmd_typed.
    - unfold checkYtDlpCmd.
      destruct (LookPath W _); [exact I|]. destruct (Stat W _); exact I.
    - unfold checkFfmpegCmd. destruct (LookPath W _); exact I.
    - destruct (downloadCmd W _ _ _ _ _) as [io'|] eqn:E; cbn; [|exact I].
      eapply downloadCmd_typed; eauto. }
  rewrite Hp, Hv in Hw. exact Hw.
Qed.

End Typing.

(** ** The tag editor *)

Section TagEditor.
Context `{Bubbles}.

Lemma key_named_down (k : tea.Key) :
  tea.String k = "down" ->
  tea.isEnter k = false /\ tea.isCtrlC k = false /\ tea.isEsc k = false.
Proof.
  destruct k as [t r a p]. unfold tea.String, tea.isEnter, tea.isCtrlC, tea.isEsc.
  simpl. destruct a, t; simpl; intros E; try discriminate; auto.
Qed.

Lemma key_named_up (k : tea.Key) :
  tea.String k = "up" ->
  tea.isEnter k = false /\ tea.isCtrlC k = false /\ tea.isEsc k = false.
Proof.
  destruct k as [t r a p]. unfold tea.String, tea.isEnter, tea.isCtrlC, tea.isEsc.
  simpl. destruct a, t; simpl; intros E; try discriminate; auto.
Qed.

Lemma enter_is_not_cancel (k : tea.Key) :
  tea.isEnter k = true -> tea.isCtrlC k = false.
Proof. unfold tea.isEnter, tea.isCtrlC. destruct (tea.Typ k); auto; discriminate. Qed.

Lemma updateKey_moves (k : tea.Key) (m m' : model) (cmds : list Cmd) :
  editing m -> model.state m = stateEditTags ->
  tea.isEnter k = false -> tea.isEsc k = false ->
  updateKey k m = Done (m', cmds) ->
  model.state m' = stateEditTags
  /\ model.focusIndex m' = moved (tea.String k) (model.focusIndex m).
Proof.
  intros Hm Es He Hesc. destruct (Hm Es) as (Hlen & Hf & _).
  pose proof (len_five _ Hlen) as Hl.
  unfold updateKey, moved. rewrite Es, He, Hesc.
  destruct (String.eqb (tea.String k) "up");
    [|destruct (String.eqb (tea.String k) "down")];
    cbn [model.focusIndex model.set_focusIndex model.tagInputs];
    rewrite ?sub_small, ?add_small by lia; rewrite ?Hl; rewrite ?sub_small by lia.
  all: match goal with
       | |- context [?f <? 0] => destruct (Z.ltb_spec f 0)
       end;
       [|match goal with
         | |- context [?f >=? 5] => destruct (Z.geb_spec f 5)
         end];
       cbn; destruct (refocus 0 _ _); intros [= <- <-]; cbn; auto.
Qed.

Lemma updateKey_advances (k : tea.Key) (m m' : model) (cmds : list Cmd) :
  editing m -> model.state m = stateEditTags ->
  tea.isEnter k = true -> model.focusIndex m < 4 ->
  updateKey k m = Done (m', cmds) ->
  model.state m' = stateEditTags
  /\ model.focusIndex m' = model.focusIndex m + 1.
Proof.
  intros Hm Es He Hlt. destruct (Hm Es) as (Hlen & Hf & _).
  pose proof (len_five _ Hlen) as Hl.
  unfold updateKey. rewrite Es, He, Hl. rewrite sub_small by lia.
  destruct (Z.eqb_spec (model.focusIndex m) (5 - 1)); [lia|].
  cbn. rewrite add_small by lia. returned. intros [= <- <-]. cbn. auto.
Qed.

(** C7.  In a reachable model in [stateEditTags] there are five inputs
    and the focus index is in [[0,5)]; [Update] returns for every
    message, and if the model is still in [stateEditTags] the index is
    again in [[0,5)].  Down from 4 gives 0, Up from 0 gives 4, and Enter
    on a field before the last advances the index by one. *)
Theorem focus_index_stays_in_range (m : model) (msg : Msg) :
  reachable m -> model.state m = stateEditTags ->
  exists m' cmds,
    Update msg m = Done (m', cmds)
    /\ length (model.tagInputs m) = 5%nat
    /\ 0 <= model.focusIndex m < 5
    /\ (model.state m' = stateEditTags -> 0 <= model.focusIndex m' < 5)
    /\ (forall k, msg = KeyMsg k -> tea.String k = "down" ->
          model.focusIndex m = 4 ->
          model.state m' = stateEditTags /\ model.focusIndex m' = 0)
    /\ (forall k, msg = KeyMsg k -> tea.String k = "up" ->
          model.focusIndex m = 0 ->
          model.state m' = stateEditTags /\ model.focusIndex m' = 4)
    /\ (forall k, msg = KeyMsg k -> tea.isEnter k = true ->
          model.focusIndex m < 4 ->
          model.state m' = stateEditTags
          /\ model.focusIndex m' = model.focusIndex m + 1).
Proof.
  intros Hr Es. apply reachable_editing in Hr as Hm.
  destruct (Update_total_editing msg m Hm Es) as (m' & cmds & Hu).
  exists m', cmds. split; [exact Hu|].
  pose proof (Update_editing msg m m' cmds Hm Hu) as Hm'.
  destruct (Hm Es) as (Hlen & Hf & _).
  split; [exact Hlen|]. split; [exact Hf|]. split; [intros E; apply Hm' in E; tauto|].
  assert (Hkey : forall k, msg = KeyMsg k -> tea.isCtrlC k = false ->
            exists m1 c1, updateKey k m = Done (m1, c1)
                          /\ model.state m' = model.state m1
                          /\ model.focusIndex m' = model.focusIndex m1).
  { intros k -> Hc. unfold Update in Hu. rewrite Hc in Hu.
    destruct (updateKey k m) as [[m1 c1]|]; [|discriminate]. cbn in Hu.
    apply delegate_frame in Hu as (E1 & E2 & _). eauto. }
  split; [|split].
  - intros k Ek Hn Hi. destruct (key_named_down k Hn) as (He & Hc & Hesc).
    destruct (Hkey k Ek Hc) as (m1 & c1 & Hk & E1 & E2).
    apply updateKey_moves in Hk as (Hs & Hmv); auto.
    rewrite E1, E2, Hmv, Hn, Hi. auto.
  - intros k Ek Hn Hi. destruct (key_named_up k Hn) as (He & Hc & Hesc).
    destruct (Hkey k Ek Hc) as (m1 & c1 & Hk & E1 & E2).
    apply updateKey_moves in Hk as (Hs & Hmv); auto.
    rewrite E1, E2, Hmv, Hn, Hi. auto.
  - intros k Ek He Hi.
    destruct (Hkey k Ek (enter_is_not_cancel k He)) as (m1 & c1 & Hk & E1 & E2).
    apply updateKey_advances in Hk as (Hs & Hmv); auto.
    rewrite E1, E2, Hmv. auto.
Qed.

(** C9.  Enter on the last field dispatches the download with tags in
    which the album artist is the artist, both being the value of the
    second input, and the duration is the selected track's length
    divided by 1000 and truncated: 215500 ms give 215 s. *)
Theorem last_field_finalizes_tags (m : model) (k : tea.Key) :
  reachable m -> model.state m = stateEditTags -> tea.isEnter k = true ->
  model.focusIndex m = 4 ->
  exists m' tags artist track,
    Update (KeyMsg k) m =
      Done (m', [Cmd.spinnerTick;
                 Cmd.download (model.ytDlpPath m) (model.ffmpegPath m)
                              (model.selectedYT m) (model.selectedMB m) tags])
    /\ model.state m' = stateDownloading
    /\ model.tagInputs m !! 1%nat = Some artist
    /\ Item.meta (model.selectedTrack m) = MetaTrack track
    /\ finalTags.Artist tags = textinput.Value artist
    /\ finalTags.AlbumArtist tags = finalTags.Artist tags
    /\ finalTags.DurationSec tags = Go.div (MBTrack.Length track) 1000
    /\ (- 2 ^ 63 <= MBTrack.Length track < 2 ^ 63 ->
          finalTags.DurationSec tags = Z.quot (MBTrack.Length track) 1000)
    /\ (0 <= MBTrack.Length track < 2 ^ 63 ->
          1000 * finalTags.DurationSec tags <= MBTrack.Length track
            < 1000 * finalTags.DurationSec tags + 1000)
    /\ (MBTrack.Length track = 215500 -> finalTags.DurationSec tags = 215).
Proof.
  intros Hr Es He Hi. apply reachable_editing in Hr as Hm.
  destruct (Hm Es) as (Hlen & Hf & (track & Ht) & _).
  pose proof (len_five _ Hlen) as Hl.
  unfold Update, updateKey.
  rewrite (enter_is_not_cancel k He), Es, He, Hl, Hi. rewrite sub_small by lia.
  cbn [Z.eqb Z.sub Z.add Z.opp Z.pos_sub Pos.eqb Pos.pred_double].
  cbn [model.selectedTrack model.set_statusMsg model.set_state model.tagInputs].
  rewrite Ht. cbn [assertMBTrack mbind Result_bind].
  destruct (index_in_range (model.tagInputs m) 0) as (t0 & -> & _); [lia|].
  destruct (index_in_range (model.tagInputs m) 1) as (t1 & -> & H1); [lia|].
  destruct (index_in_range (model.tagInputs m) 2) as (t2 & -> & _); [lia|].
  destruct (index_in_range (model.tagInputs m) 3) as (t3 & -> & _); [lia|].
  destruct (index_in_range (model.tagInputs m) 4) as (t4 & -> & _); [lia|].
  cbn. eexists _, _, t1, track. split; [reflexivity|].
  cbn. repeat split; auto.
  - intros Hrange. apply div_small; lia.
  - rewrite div_small by lia.
    pose proof (Z.quot_rem' (MBTrack.Length track) 1000).
    pose proof (Z.rem_bound_pos (MBTrack.Length track) 1000). lia.
  - rewrite div_small by lia.
    pose proof (Z.quot_rem' (MBTrack.Length track) 1000).
    pose proof (Z.rem_bound_pos (MBTrack.Length track) 1000). lia.
  - intros ->. reflexivity.
Qed.

(** A download is dispatched by the last tag field only. *)
Lemma updateOther_dispatches_no_download (msg : Msg) (m : model) (c : Cmd) :
  In c (updateOther msg m).2 -> Cmd.isDownload c = false.
Proof.
  destruct msg as [w h| k | p e | p e | i e | ys ms e | its e | its e | f e | | |];
    try destruct e; cbn; try tauto;
    try (destruct (Go.len its =? 0); cbn; try tauto);
    intuition (subst; reflexivity).
Qed.

Lemma refocus_cmds (i f : Z) (inputs : list textinput.Model) (c : Cmd) :
  In c (refocus i f inputs).2 -> c = Cmd.inputFocus.
Proof.
  revert i; induction inputs as [|t rest IH]; intros i; cbn; [tauto|].
  specialize (IH (i + 1)). destruct (refocus (i + 1) f rest) as [r cs].
  destruct (i =? f); cbn in *; intuition.
Qed.

Lemma updateKey_dispatches_download (k : tea.Key) (m m' : model) (cmds : list Cmd)
  (p f : string) (yt mb : item) (tags : finalTags) :
  updateKey k m = Done (m', cmds) ->
  In (Cmd.download p f yt mb tags) cmds ->
  model.state m = stateEditTags /\ mb = model.selectedMB m.
Proof.
  unfold updateKey. destruct (model.state m) eqn:Es.
  all: repeat match goal with
              | |- context [if ?b then _ else _] => destruct b
              | |- context [match blist.SelectedItem ?l with _ => _ end] =>
                  destruct (blist.SelectedItem l)
              | |- context [refocus ?i ?f ?l] => 
                  let E := fresh "E" in destruct (refocus i f l) eqn:E
              end.
  all: cbn; returned; intros [= <- <-]; cbn [In];
    try (intuition (discriminate || congruence)).
  all: intros Hin;
    match goal with
    | E : refocus ?i ?f ?l = (_, ?cs) |- _ =>
        pose proof (refocus_cmds i f l _ ltac:(rewrite E; exact Hin))
    end; discriminate.
Qed.

End TagEditor.

(** ** The metadata carried by the lists *)

Section TypedModels.
Context `{Bubbles}.

Lemma selected_in_items (l : blist.Model) (i : item) :
  blist.SelectedItem l = Some i -> i ∈ blist.items l.
Proof.
  unfold blist.SelectedItem. destruct (_ <? 0); [discriminate|].
  apply list_elem_of_lookup_2.
Qed.

Lemma list_Update_items (msg : Msg) (l : blist.Model) :
  blist.items (list_Update msg l).1 = blist.items l.
Proof. destruct msg; reflexivity. Qed.

Lemma typed_newModel : typed newModel.
Proof. unfold typed. cbn. auto. Qed.

Lemma updateOther_typed (msg : Msg) (m : model) :
  typed m -> wellTyped msg -> typed (updateOther msg m).1.
Proof.
  unfold typed. intros (Hmb & Htr & Hsel) Hmsg.
  destruct msg as [w h| k | p e | p e | i e | ys ms e | its e | its e | f e | | |];
    try destruct e; cbn in *; auto;
    destruct (Go.len its =? 0); cbn; auto.
Qed.

Lemma updateKey_typed (k : tea.Key) (m m' : model) (cmds : list Cmd) :
  typed m -> updateKey k m = Done (m', cmds) -> typed m'.
Proof.
  unfold typed. intros (Hmb & Htr & Hsel). unfold updateKey.
  destruct (model.state m) eqn:Es.
  all: repeat match goal with
              | |- context [if ?b then _ else _] => destruct b
              | |- context [match blist.SelectedItem ?l with _ => _ end] =>
                  let E := fresh "Esel" in destruct (blist.SelectedItem l) eqn:E
              | |- context [refocus ?i ?f ?l] => destruct (refocus i f l)
              end.
  all: cbn; returned; intros [= <- <-]; cbn; auto.
  (* the release is chosen among the items of the list *)
  apply selected_in_items in Esel.
  split; [assumption|]. split; [assumption|].
  left. rewrite Forall_forall in Hmb. auto.
Qed.

Lemma delegate_typed (msg : Msg) (m m' : model) (cmds cmds' : list Cmd) :
  typed m -> delegate msg m cmds = Done (m', cmds') -> typed m'.
Proof.
  unfold typed, delegate. intros (Hmb & Htr & Hsel).
  destruct (model.state m);
    try match goal with
        | |- context [list_Update ?msg ?l] =>
            pose proof (list_Update_items msg l) as Hl;
            destruct (list_Update msg l) as [l' c]; cbn in Hl
        end;
    try (intros [= <- <-]; cbn; rewrite ?Hl; auto).
  destruct (_ <? _); [|intros [= <- <-]; auto].
  returned. intros [= <- <-]. cbn. auto.
Qed.

Lemma Update_typed (msg : Msg) (m m' : model) (cmds : list Cmd) :
  typed m -> wellTyped msg -> Update msg m = Done (m', cmds) -> typed m'.
Proof.
  intros Hm Hmsg. unfold Update. destruct msg as [w h| k | | | | | | | | | |].
  2: { destruct (tea.isCtrlC k); [intros [= <- <-]; assumption|].
       destruct (updateKey k m) as [[m1 c1]|] eqn:Ek; [|discriminate].
       cbn. apply delegate_typed. eapply updateKey_typed; eauto. }
  all: match goal with
       | |- context [updateOther ?msg ?m0] =>
           pose proof (updateOther_typed msg m0 Hm Hmsg);
           destruct (updateOther msg m0) as [m1 c1];
           apply delegate_typed; assumption
       end.
Qed.

Lemma step_typed (p p' : Program) (e : Event) :
  typed (current p) -> step p e = Running p' -> typed (current p').
Proof.
  intros Hp. unfold step, feed.
  destruct e as [k | w h | n W].
  1, 2: destruct (Update _ _) as [[m' c]|] eqn:Eu; [|discriminate];
        intros [= <-]; cbn; eapply Update_typed; eauto; exact I.
  destruct (pending p !! n); [|discriminate].
  destruct (perform W _) as [io|] eqn:Ep; [|discriminate].
  destruct (value io) as [msg|] eqn:Ev; [|discriminate].
  destruct (Update _ _) as [[m' c']|] eqn:Eu; [|discriminate].
  intros [= <-]; cbn; eapply Update_typed; eauto.
  eapply perform_wellTyped; eauto.
Qed.

Lemma play_typed (events : list Event) (p p' : Program) :
  typed (current p) -> play events p = Running p' -> typed (current p').
Proof.
  revert p; induction events as [|e rest IH]; intros p Hp; cbn.
  - intros [= <-]. assumption.
  - destruct (step p e) as [p1| | |] eqn:Es; try discriminate.
    apply IH. eapply step_typed; eauto.
Qed.

Lemma reachable_typed (m : model) : reachable m -> typed m.
Proof.
  intros (events & p & Hplay & <-).
  eapply play_typed; [|exact Hplay]. apply typed_newModel.
Qed.

(** [Update] panics in one place only. *)
Lemma updateKey_panics (k : tea.Key) (m : model) (f : Fault) :
  editing m -> typed m -> updateKey k m = Panic f ->
  f = InterfaceConversion
  /\ model.state m = stateSelectTrack
  /\ tea.isEnter k = true
  /\ Item.meta (model.selectedMB m) = MetaNil
  /\ exists i, blist.SelectedItem (model.tracklist m) = Some i.
Proof.
  intros Hm (Hmb & Htr & Hsel) Hp.
  destruct (model.state m) eqn:Es.
  all: try (unfold updateKey in Hp; rewrite Es in Hp;
            repeat match type of Hp with
                   | context [if ?b then _ else _] => destruct b
                   | context [match blist.SelectedItem ?l with _ => _ end] =>
                       destruct (blist.SelectedItem l)
                   end; discriminate).
  - (* stateSelectTrack *)
    unfold updateKey in Hp. rewrite Es in Hp.
    destruct (tea.isEnter k); [|destruct (tea.isEsc k); discriminate].
    destruct (blist.SelectedItem _) as [i|] eqn:Ei; [|discriminate].
    apply selected_in_items in Ei as Hin.
    rewrite Forall_forall in Htr. destruct (Htr i Hin) as (t & Ht).
    destruct Hsel as [(r & Hr & _) | Hnil].
    + exfalso. revert Hp. unfold createTagInputs. cbn. rewrite Hr, Ht. cbn.
      discriminate.
    + revert Hp. unfold createTagInputs. cbn. rewrite Hnil. cbn.
      intros [= <-]. eauto 10.
  - (* stateEditTags *)
    destruct (updateKey_total_editing k m Hm Es) as (m' & c & E). congruence.
Qed.

Lemma Update_panics (msg : Msg) (m : model) (f : Fault) :
  reachable m -> Update msg m = Panic f ->
  f = InterfaceConversion
  /\ model.state m = stateSelectTrack
  /\ Item.meta (model.selectedMB m) = MetaNil
  /\ exists k i, msg = KeyMsg k /\ tea.isEnter k = true
                 /\ blist.SelectedItem (model.tracklist m) = Some i.
Proof.
  intros Hr. pose proof (reachable_editing m Hr) as Hm.
  pose proof (reachable_typed m Hr) as Ht.
  assert (Hd : forall m1 c1, editing m1 -> delegate msg m1 c1 <> Panic f).
  { intros m1 c1 H1. destruct (delegate_total msg m1 c1) as (r & ->); [|discriminate].
    intros E. apply H1 in E. lia. }
  unfold Update. destruct msg as [w h| k | | | | | | | | | |].
  2: { destruct (tea.isCtrlC k); [discriminate|].
       destruct (updateKey k m) as [[m1 c1]|f'] eqn:Ek.
       - cbn. intros Hp. exfalso. eapply Hd; [|exact Hp].
         eapply updateKey_editing; eauto.
       - cbn. intros [= ->].
         destruct (updateKey_panics k m f Hm Ht Ek) as (? & ? & ? & ? & i & ?).
         eauto 10. }
  all: match goal with
       | |- context [updateOther ?msg ?m0] =>
           pose proof (updateOther_editing msg m0 Hm);
           destruct (updateOther msg m0) as [m1 c1];
           intros Hp; exfalso; eapply Hd; eauto
       end.
Qed.

End TypedModels.

(** ** The payload of the selected items *)

Section Payload.
Context `{Bubbles}.

Lemma delegate_cmds (msg : Msg) (m m' : model) (cmds cmds' : list Cmd) :
  delegate msg m cmds = Done (m', cmds') ->
  cmds' = cmds
  \/ exists c, cmds' = (cmds ++ [c])%list /\ (c = Cmd.widget \/ c = Cmd.Quit).
Proof.
  assert (Hl : forall l, (list_Update msg l).2 = Cmd.widget
                         \/ (list_Update msg l).2 = Cmd.Quit).
  { intros l. destruct msg; cbn; auto. destruct (listQuits _ _); auto. }
  unfold delegate. destruct (model.state m);
    try match goal with
        | |- context [list_Update ?msg ?l] =>
            specialize (Hl l); destruct (list_Update msg l) as [l' c]; cbn in Hl
        end;
    try (intros [= <- <-]; eauto 6).
  destruct (_ <? _); [|intros [= <- <-]; eauto].
  returned. intros [= <- <-]. eauto 6.
Qed.

Lemma Update_dispatches_download (msg : Msg) (m m' : model) (cmds : list Cmd)
  (p f : string) (yt mb : item) (tags : finalTags) :
  Update msg m = Done (m', cmds) ->
  In (Cmd.download p f yt mb tags) cmds ->
  model.state m = stateEditTags /\ mb = model.selectedMB m.
Proof.
  intros Hu Hin.
  assert (Hc : forall m1 c1, delegate msg m1 c1 = Done (m', cmds) ->
                 In (Cmd.download p f yt mb tags) c1).
  { intros m1 c1 Hd.
    apply delegate_cmds in Hd as [-> | (c & -> & Hc)]; [assumption|].
    apply in_app_or in Hin as [Hin | [Hin | []]]; [assumption|].
    destruct Hc; congruence. }
  unfold Update in Hu. destruct msg as [w h| k | | | | | | | | | |].
  2: { destruct (tea.isCtrlC k).
       - injection Hu as <- <-. destruct Hin as [Hin | []]. discriminate.
       - destruct (updateKey k m) as [[m1 c1]|] eqn:Ek; [|discriminate].
         cbn in Hu. eapply updateKey_dispatches_download; eauto. }
  all: match type of Hu with
       | context [updateOther ?msg ?m0] =>
           pose proof (updateOther_dispatches_no_download msg m0) as Hno;
           destruct (updateOther msg m0) as [m1 c1];
           apply Hc in Hu; apply Hno in Hu; discriminate
       end.
Qed.

Lemma downloadCmd_returns (W : World) (p f : string) (yt mb : item) (tags : finalTags) :
  holdsRelease mb -> exists io, downloadCmd W p f yt mb tags = Done io.
Proof.
  intros (r & Hr). unfold downloadCmd.
  destruct (value (mkdirTemp W _ _)) as [tmpDir | err]; [|eauto].
  destruct (fetchAssets_value W p tmpDir yt mb tags r Hr) as (fetch & -> & _).
  cbn. eauto.
Qed.

Lemma downloadCmd_panics (W : World) (p f : string) (yt mb : item) (tags : finalTags)
  (tmpDir : string) :
  ~ holdsRelease mb ->
  MkdirTemp W (Go.Join mainDir tempDir) "gomusicdl_*" = inl tmpDir ->
  downloadCmd W p f yt mb tags = Panic InterfaceConversion.
Proof.
  intros Hn Hd. unfold downloadCmd, mkdirTemp, fetchAssets, holdsRelease in *.
  cbn [value]. rewrite Hd.
  destruct (Item.meta mb); try reflexivity. exfalso; eauto.
Qed.

(** C3, as amended.  The payload is reached by an unchecked type
    assertion.  Creating the tag inputs returns the five inputs when the
    selected release holds release metadata and the selected track holds
    track metadata, and panics otherwise.  In a reachable model that is
    in [stateEditTags], or in which a release is selected, [Update]
    returns for every message; and a download dispatched from
    [stateEditTags] does not panic on its own assertion. *)
Theorem payload_is_asserted_not_checked (m : model) :
  (holdsRelease (model.selectedMB m) /\ holdsTrack (model.selectedTrack m) ->
     exists inputs, createTagInputs m = Done inputs /\ length inputs = 5%nat)
  /\ (~ (holdsRelease (model.selectedMB m) /\ holdsTrack (model.selectedTrack m)) ->
        createTagInputs m = Panic InterfaceConversion)
  /\ (reachable m -> model.state m = stateEditTags ->
      forall msg, exists m' cmds,
        Update msg m = Done (m', cmds)
        /\ forall p f yt mb tags W,
             In (Cmd.download p f yt mb tags) cmds ->
             exists io, downloadCmd W p f yt mb tags = Done io)
  /\ (reachable m -> holdsRelease (model.selectedMB m) ->
      forall msg, exists m' cmds, Update msg m = Done (m', cmds)).
Proof.
  split; [|split; [|split]].
  - intros ((r & Hr) & (t & Ht)). unfold createTagInputs. rewrite Hr, Ht.
    cbn. eauto.
  - intros Hn. unfold createTagInputs, holdsRelease, holdsTrack in *.
    destruct (Item.meta (model.selectedMB m)); try reflexivity.
    destruct (Item.meta (model.selectedTrack m)); try reflexivity.
    exfalso. apply Hn. eauto.
  - intros Hr Es msg. apply reachable_editing in Hr as Hm.
    destruct (Update_total_editing msg m Hm Es) as (m' & cmds & Hu).
    exists m', cmds. split; [exact Hu|].
    intros p f yt mb tags W Hin.
    destruct (Update_dispatches_download _ _ _ _ _ _ _ _ _ Hu Hin) as (_ & ->).
    apply downloadCmd_returns. apply (Hm Es).
  - intros Hr (r & Hrel) msg.
    destruct (Update msg m) as [[m' cmds]|f] eqn:Hu; [eauto|].
    destruct (Update_panics msg m f Hr Hu) as (_ & _ & Hnil & _). congruence.
Qed.

(** X13.  In a run of the program the release group is never asked for
    a cover: the releases it selects come from the decoder, which leaves
    their group empty. *)
Lemma dispatched_download_asks_no_group (msg : Msg) (m m' : model) (cmds : list Cmd)
  (p f : string) (yt mb : item) (tags : finalTags) :
  reachable m -> Update msg m = Done (m', cmds) ->
  In (Cmd.download p f yt mb tags) cmds ->
  exists r, Item.meta mb = MetaRelease r
            /\ forall W tmpDir,
                 ~ In (Requested (groupCoverURL r)) (trace (fetchCover W tmpDir r)).
Proof.
  intros Hr Hu Hin.
  destruct (Update_dispatches_download _ _ _ _ _ _ _ _ _ Hu Hin) as (Es & ->).
  destruct (reachable_editing m Hr Es) as (_ & _ & _ & (r & Hrel)).
  destruct (reachable_typed m Hr) as (_ & _ & [(r' & Hr' & Hg) | Hnil]);
    [|congruence].
  assert (r' = r) as -> by congruence.
  exists r. split; [assumption|]. intros W tmpDir.
  rewrite fetchCover_spec, Hg. cbn zeta.
  pose proof (cover_urls_differ r) as Hne.
  destruct (answered200 _); cbn; intuition congruence.
Qed.

End Payload.

(** ** The sample session *)

Lemma reachable_after (events : list Event) :
  (exists p, play events start = Running p) -> reachable (sample.after events).
Proof.
  intros (p & Hp). exists events, p. split; [exact Hp|].
  unfold sample.after. now rewrite Hp.
Qed.

(** Against C1 as stated: in the sample session, while the videos are
    listed, no key at all leads to [stateConfirmSkipMB]. *)
Lemma no_key_skips_while_selecting_a_video :
  model.state (sample.after sample.toVideos) = stateSelectYT
  /\ forall k m' cmds,
       Update (KeyMsg k) (sample.after sample.toVideos) = Done (m', cmds) ->
       model.state m' <> stateConfirmSkipMB.
Proof.
  assert (Hs : model.state (sample.after sample.toVideos) = stateSelectYT)
    by (vm_compute; reflexivity).
  split; [exact Hs|].
  revert Hs. generalize (sample.after sample.toVideos). intros m Hs k m' cmds Hu.
  destruct (video_selection_keys m k Hs) as (m1 & c1 & Hu1 & Hst).
  rewrite Hu in Hu1. injection Hu1 as <- <-.
  destruct Hst as [E | [E | E]]; rewrite E; discriminate.
Qed.

(** The skip key in the sample session: [s] while the releases are
    listed, and [s] while the videos are listed. *)
Lemma skip_key_belongs_to_release_selection_witness :
  (model.state (sample.after sample.toReleases) = stateSelectMB
   /\ tea.String (tea.runes "s") = "s"
   /\ Update (KeyMsg (tea.runes "s")) (sample.after sample.toReleases)
      = Done (model.set_state stateConfirmSkipMB (sample.after sample.toReleases), []))
  /\ (model.state (sample.after sample.toVideos) = stateSelectYT
      /\ exists m' cmds,
           Update (KeyMsg (tea.runes "s")) (sample.after sample.toVideos)
           = Done (m', cmds)
           /\ (model.state m' = stateSelectYT \/ model.state m' = stateSearching
               \/ model.state m' = stateInput)).
Proof.
  split.
  - split; [vm_compute; reflexivity|]. split; [reflexivity|].
    apply (proj1 (skip_key_belongs_to_release_selection
                    (sample.after sample.toReleases) (tea.runes "s")));
      [vm_compute; reflexivity | reflexivity].
  - split; [vm_compute; reflexivity|].
    apply (proj2 (skip_key_belongs_to_release_selection
                    (sample.after sample.toVideos) (tea.runes "s"))).
    vm_compute; reflexivity.
Defined.

(** Against C6 as stated: after the sample download has succeeded,
    Ctrl+C quits without a reset, and the status message after a reset
    is empty, which is not its value in a fresh model. *)
Lemma cancel_quits_and_reset_clears_the_status :
  model.state (sample.after sample.toSuccess) = stateShowSuccess
  /\ Update (KeyMsg (tea.press tea.KeyCtrlC)) (sample.after sample.toSuccess)
     = Done (sample.after sample.toSuccess, [Cmd.Quit])
  /\ exists m',
       Update resetMsg (sample.after sample.toSuccess)
       = Done (m', [Cmd.textinputBlink; Cmd.widget])
       /\ model.statusMsg m' = ""
       /\ model.statusMsg newModel = "依存関係を確認中..."
       /\ model.statusMsg m' <> model.statusMsg newModel.
Proof.
  split; [vm_compute; reflexivity|]. split; [vm_compute; reflexivity|].
  eexists. split; [vm_compute; reflexivity|].
  split; [reflexivity|]. split; [reflexivity|]. cbn. discriminate.
Qed.

(** The reset after the sample download. *)
Lemma key_after_result_resets_witness :
  (model.state (sample.after sample.toSuccess) = stateShowSuccess
   \/ model.state (sample.after sample.toSuccess) = stateError)
  /\ tea.isCtrlC (tea.runes "x") = false
  /\ Update (KeyMsg (tea.runes "x")) (sample.after sample.toSuccess)
     = Done (sample.after sample.toSuccess, [Cmd.reset])
  /\ exists m',
       Update resetMsg (sample.after sample.toSuccess)
       = Done (m', [Cmd.textinputBlink; Cmd.widget])
       /\ m' = afterReset sample.ytDlp sample.ffmpeg 0 0.
Proof.
  assert (Hs : model.state (sample.after sample.toSuccess) = stateShowSuccess
               \/ model.state (sample.after sample.toSuccess) = stateError)
    by (left; vm_compute; reflexivity).
  assert (Hk : tea.isCtrlC (tea.runes "x") = false) by reflexivity.
  destruct (key_after_result_resets (sample.after sample.toSuccess) (tea.runes "x")
              sample.online Hs Hk) as (Hu & _ & m' & Hr & Hm' & _).
  split; [exact Hs|]. split; [exact Hk|]. split; [exact Hu|].
  exists m'. split; [exact Hr|]. rewrite Hm'. vm_compute. reflexivity.
Defined.

(** The sample download with the network down: audio is extracted,
    there is neither cover nor lyrics, and the download succeeds. *)
Lemma audio_failure_dominates_witness :
  Item.meta sample.releaseEntry = MetaRelease sample.release
  /\ exists io,
       downloadCmd sample.offline sample.ytDlp sample.ffmpeg sample.videoEntry
                   sample.releaseEntry sample.tags = Done io
       /\ value io = downloadFinishedMsg (finalPathOf sample.tags) None.
Proof.
  assert (Hm : Item.meta sample.releaseEntry = MetaRelease sample.release)
    by reflexivity.
  split; [exact Hm|].
  destruct (audio_failure_dominates sample.offline sample.ytDlp sample.ffmpeg
              sample.videoEntry sample.releaseEntry sample.tags sample.release Hm)
    as (io & Hio & Hcases).
  exists io. split; [exact Hio|].
  cbn in Hcases. destruct Hcases as (_ & Hok).
  destruct (Hok eq_refl eq_refl eq_refl) as (fetch & _ & _ & Hmerge & _).
  exact (Hmerge eq_refl).
Defined.

(** Against C3 as stated: where the payload is not of the asserted
    kind, the access does not fail closed.  With the tracks listed and
    no release selected, creating the tag inputs panics, and so does
    [Update] on Enter; a download whose release item is a video panics
    in its cover lookup. *)
Lemma unmatched_payload_panics :
  Item.meta (model.selectedMB sample.orphanTracks) = MetaNil
  /\ (exists i,
        blist.SelectedItem (model.tracklist sample.orphanTracks) = Some i
        /\ holdsTrack i
        /\ createTagInputs (model.set_selectedTrack i sample.orphanTracks)
           = Panic InterfaceConversion)
  /\ Update (KeyMsg (tea.press tea.KeyEnter)) sample.orphanTracks
     = Panic InterfaceConversion
  /\ Item.meta sample.videoEntry = MetaNil
  /\ downloadCmd sample.online sample.ytDlp sample.ffmpeg sample.videoEntry
                 sample.videoEntry sample.tags
     = Panic InterfaceConversion.
Proof.
  split; [vm_compute; reflexivity|].
  split; [eexists; split; [vm_compute; reflexivity|];
          split; [eexists; reflexivity | vm_compute; reflexivity]|].
  repeat split; vm_compute; reflexivity.
Qed.

(** The four parts in the sample session: before the last tag is
    confirmed a release and a track are selected, so the inputs can be
    created and [Update] returns; with no release selected the creation
    panics. *)
Lemma payload_is_asserted_not_checked_witness :
  (holdsRelease (model.selectedMB (sample.after sample.toLastTag))
   /\ holdsTrack (model.selectedTrack (sample.after sample.toLastTag))
   /\ exists inputs,
        createTagInputs (sample.after sample.toLastTag) = Done inputs
        /\ length inputs = 5%nat)
  /\ (~ (holdsRelease (model.selectedMB sample.orphanTracks)
         /\ holdsTrack (model.selectedTrack sample.orphanTracks))
      /\ createTagInputs sample.orphanTracks = Panic InterfaceConversion)
  /\ (reachable (sample.after sample.toLastTag)
      /\ model.state (sample.after sample.toLastTag) = stateEditTags
      /\ exists m' cmds,
           Update (KeyMsg (tea.press tea.KeyEnter)) (sample.after sample.toLastTag)
           = Done (m', cmds))
  /\ exists m' cmds,
       Update (KeyMsg (tea.press tea.KeyEsc)) (sample.after sample.toLastTag)
       = Done (m', cmds).
Proof.
  assert (Hr : reachable (sample.after sample.toLastTag))
    by (apply reachable_after; eexists; vm_compute; reflexivity).
  assert (Hs : model.state (sample.after sample.toLastTag) = stateEditTags)
    by (vm_compute; reflexivity).
  assert (Hmb : holdsRelease (model.selectedMB (sample.after sample.toLastTag)))
    by (eexists; vm_compute; reflexivity).
  assert (Htr : holdsTrack (model.selectedTrack (sample.after sample.toLastTag)))
    by (eexists; vm_compute; reflexivity).
  assert (Hno : ~ (holdsRelease (model.selectedMB sample.orphanTracks)
                   /\ holdsTrack (model.selectedTrack sample.orphanTracks)))
    by (intros [[r Hrel] _]; vm_compute in Hrel; discriminate).
  destruct (payload_is_asserted_not_checked (sample.after sample.toLastTag))
    as (Hcreate & _ & Hedit & Hsel).
  destruct (payload_is_asserted_not_checked sample.orphanTracks)
    as (_ & Hpanic & _).
  split; [split; [exact Hmb | split; [exact Htr | exact (Hcreate (conj Hmb Htr))]]|].
  split; [split; [exact Hno | exact (Hpanic Hno)]|].
  split.
  - split; [exact Hr|]. split; [exact Hs|].
    destruct (Hedit Hr Hs (KeyMsg (tea.press tea.KeyEnter))) as (m' & cmds & Hu & _).
    exists m', cmds. exact Hu.
  - exact (Hsel Hr Hmb (KeyMsg (tea.press tea.KeyEsc))).
Defined.



(** C5.  LRCLIB answers the sample request with both members,
    [plainLyrics] and [syncedLyrics]; [getLyrics] returns the text of
    [syncedLyrics], time stamps included, and not the plain lyrics. *)
Lemma lyrics_lookup_returns_the_synced_text :
  Get sample.online (lyricsURL sample.online "Artist B" "Song B" "Album B" 215)
  = HttpResponse 200 "200 OK" (sample.render sample.lyricsDoc)
  /\ Decode sample.online (sample.render sample.lyricsDoc)
     = Some (json.Object [("plainLyrics", json.Str "la la la");
                          ("syncedLyrics", json.Str "[00:01.00] la la la")])
  /\ value (getLyrics sample.online "Artist B" "Song B" "Album B" 215)
     = "[00:01.00] la la la".
Proof.
  repeat split; vm_compute; reflexivity.
Qed.

(** Down on the last tag of the sample session wraps to the first. *)
Lemma focus_index_stays_in_range_witness :
  reachable (sample.after sample.toLastTag)
  /\ model.state (sample.after sample.toLastTag) = stateEditTags
  /\ model.focusIndex (sample.after sample.toLastTag) = 4
  /\ exists m' cmds,
       Update (KeyMsg (tea.press tea.KeyDown)) (sample.after sample.toLastTag)
       = Done (m', cmds)
       /\ model.state m' = stateEditTags /\ model.focusIndex m' = 0.
Proof.
  assert (Hr : reachable (sample.after sample.toLastTag))
    by (apply reachable_after; eexists; vm_compute; reflexivity).
  assert (Hs : model.state (sample.after sample.toLastTag) = stateEditTags)
    by (vm_compute; reflexivity).
  assert (Hi : model.focusIndex (sample.after sample.toLastTag) = 4)
    by (vm_compute; reflexivity).
  split; [exact Hr|]. split; [exact Hs|]. split; [exact Hi|].
  destruct (focus_index_stays_in_range (sample.after sample.toLastTag)
              (KeyMsg (tea.press tea.KeyDown)) Hr Hs)
    as (m' & cmds & Hu & _ & _ & _ & Hdown & _).
  exists m', cmds. split; [exact Hu|].
  exact (Hdown (tea.press tea.KeyDown) eq_refl eq_refl Hi).
Defined.

(** Confirming the last tag of the sample session. *)
Lemma last_field_finalizes_tags_witness :
  reachable (sample.after sample.toLastTag)
  /\ model.state (sample.after sample.toLastTag) = stateEditTags
  /\ tea.isEnter (tea.press tea.KeyEnter) = true
  /\ model.focusIndex (sample.after sample.toLastTag) = 4
  /\ exists m' tags,
       Update (KeyMsg (tea.press tea.KeyEnter)) (sample.after sample.toLastTag)
       = Done (m', [Cmd.spinnerTick;
                    Cmd.download sample.ytDlp sample.ffmpeg
                      (model.selectedYT (sample.after sample.toLastTag))
                      (model.selectedMB (sample.after sample.toLastTag)) tags])
       /\ finalTags.AlbumArtist tags = finalTags.Artist tags.
Proof.
  assert (Hr : reachable (sample.after sample.toLastTag))
    by (apply reachable_after; eexists; vm_compute; reflexivity).
  assert (Hs : model.state (sample.after sample.toLastTag) = stateEditTags)
    by (vm_compute; reflexivity).
  assert (Hi : model.focusIndex (sample.after sample.toLastTag) = 4)
    by (vm_compute; reflexivity).
  split; [exact Hr|]. split; [exact Hs|]. split; [reflexivity|]. split; [exact Hi|].
  destruct (last_field_finalizes_tags (sample.after sample.toLastTag)
              (tea.press tea.KeyEnter) Hr Hs eq_refl Hi)
    as (m' & tags & artist & track & Hu & _ & _ & _ & _ & Haa & _).
  exists m', tags. split; [exact Hu | exact Haa].
Defined.

(** An empty search: nothing is found for the query, the search
    completes without error, and the controller shows an empty list. *)
Lemma search_success_selects_source_witness :
  value (searchCmd sample.barren sample.ytDlp "zzz") = searchFinishedMsg [] [] None
  /\ exists m',
       Update (searchFinishedMsg [] [] None) (sample.after sample.toQuery)
       = Done (m', [Cmd.widget])
       /\ model.state m' = stateSelectYT
       /\ blist.SelectedItem (model.ytResults m') = None.
Proof.
  split; [vm_compute; reflexivity|].
  destruct (search_success_selects_source (sample.after sample.toQuery) [] [])
    as (m' & Hu & Hs & _ & _ & _ & Hnone & _).
  exists m'. split; [exact Hu|]. split; [exact Hs|]. exact (Hnone eq_refl).
Defined.

(** * Further properties of the code *)

(** ** Names and paths *)

Lemma string_app_cons (c : ascii) (a b : string) :
  String c a ++ b = String c (a ++ b).
Proof. reflexivity. Qed.

Lemma mapBytes_app (f : ascii -> ascii) (a b : string) :
  Go.mapBytes f (a ++ b) = Go.mapBytes f a ++ Go.mapBytes f b.
Proof. induction a as [|c a IH]; simpl; [reflexivity|]. now rewrite IH. Qed.

Lemma sanitizeFilename_app (a b : string) :
  sanitizeFilename (a ++ b) = sanitizeFilename a ++ sanitizeFilename b.
Proof. apply mapBytes_app. Qed.

Lemma sanitizeFilename_safe (s : string) (c : ascii) :
  In c (list_ascii_of_string (sanitizeFilename s)) -> ~ In c unsafeBytes.
Proof.
  unfold sanitizeFilename, Go.Replace. rewrite mapBytes_bytes.
  intros Hin. apply in_map_iff in Hin as (b & <- & _).
  apply sanitized_byte_is_safe.
Qed.

Lemma sanitizeFilename_keeps (s : string) :
  (forall c, In c (list_ascii_of_string s) -> ~ In c unsafeBytes) ->
  sanitizeFilename s = s.
Proof.
  unfold sanitizeFilename, Go.Replace.
  induction s as [|c s IH]; [reflexivity|].
  intros Hs. cbn [Go.mapBytes].
  rewrite safe_byte_is_kept by (apply Hs; cbn; auto).
  rewrite IH; [reflexivity|]. intros c' Hc'. apply Hs. cbn. auto.
Qed.

(** X1.  The sanitizer works byte by byte: the sanitized concatenation
    of two names is the concatenation of the sanitized names, and a name
    is returned unchanged exactly when it holds none of the nine bytes
    of [unsafeBytes]. *)
Theorem sanitizeFilename_distributes_and_fixes_safe_names (a b : string) :
  sanitizeFilename (a ++ b) = sanitizeFilename a ++ sanitizeFilename b
  /\ (sanitizeFilename a = a <->
      forall c, In c (list_ascii_of_string a) -> ~ In c unsafeBytes).
Proof.
  split; [apply sanitizeFilename_app|]. split.
  - intros E c Hc. rewrite <- E in Hc. eapply sanitizeFilename_safe; eauto.
  - apply sanitizeFilename_keeps.
Qed.

Lemma bytes_app (a b : string) :
  list_ascii_of_string (a ++ b) = (list_ascii_of_string a ++ list_ascii_of_string b)%list.
Proof. induction a as [|c a IH]; simpl; [reflexivity|]. now rewrite IH. Qed.

Lemma string_length_app (a b : string) :
  String.length (a ++ b) = (String.length a + String.length b)%nat.
Proof. induction a as [|c a IH]; simpl; [reflexivity|]. now rewrite IH. Qed.

(** X2.  The tagged file is written directly into the downloads
    directory: its path is that directory, a separator and the name
    [artist - title.flac] with artist and title sanitized; whatever the
    tags, the name holds no separator nor any other unsafe byte, and it
    is eight bytes longer than artist and title together. *)
Theorem final_path_is_a_file_of_the_downloads_directory (tags : finalTags) :
  let name := sanitizeFilename (finalTags.Artist tags) ++ " - " ++
              sanitizeFilename (finalTags.Title tags) ++ ".flac" in
  finalPathOf tags = "GoMusicDownloader/downloads/" ++ name
  /\ (forall c, In c (list_ascii_of_string name) -> ~ In c unsafeBytes)
  /\ String.length name
     = (String.length (finalTags.Artist tags) + String.length (finalTags.Title tags) + 8)%nat.
Proof.
  cbn zeta. split; [|split].
  - unfold finalPathOf. cbn zeta. rewrite !sanitizeFilename_app. reflexivity.
  - intros c. rewrite !bytes_app, !in_app_iff.
    intros [Hc | [Hc | [Hc | Hc]]]; try (eapply sanitizeFilename_safe; eassumption).
    + cbn in Hc. unfold unsafeBytes. cbn. intuition (subst; discriminate).
    + cbn in Hc. unfold unsafeBytes. cbn. intuition (subst; discriminate).
  - rewrite !string_length_app. unfold sanitizeFilename, Go.Replace.
    rewrite !mapBytes_length. cbn. lia.
Qed.

Lemma string_app_nil_r (a : string) : a ++ "" = a.
Proof.
  induction a as [|c a IH]; [reflexivity|].
  now rewrite string_app_cons, IH.
Qed.

Lemma string_app_assoc (a b c : string) : (a ++ b) ++ c = a ++ b ++ c.
Proof.
  induction a as [|x a IH]; [reflexivity|].
  now rewrite !string_app_cons, IH.
Qed.

(** The loop of [joinArtistCredits], from any text already written. *)
Lemma joinArtistCredits_from (acc : string) (credits : list MBArtist) :
  foldl (fun b credit => b ++ MBArtist.Name credit ++ MBArtist.JoinPhrase credit)
        acc credits
  = acc ++ joinArtistCredits credits.
Proof.
  unfold joinArtistCredits. revert acc.
  induction credits as [|c cs IH]; intros acc; cbn [foldl].
  - now rewrite string_app_nil_r.
  - rewrite IH. rewrite (IH (_ ++ _)).
    rewrite !string_app_assoc. reflexivity.
Qed.

(** X11.  [joinArtistCredits] writes the name and the join phrase of each
    credit, in order: it is empty without credits and distributes over
    the concatenation of two lists of credits. *)
Theorem joinArtistCredits_concatenates (a b : list MBArtist) (c : MBArtist) :
  joinArtistCredits [] = ""
  /\ joinArtistCredits (c :: b) = MBArtist.Name c ++ MBArtist.JoinPhrase c ++ joinArtistCredits b
  /\ joinArtistCredits (a ++ b) = joinArtistCredits a ++ joinArtistCredits b.
Proof.
  split; [reflexivity|]. split.
  - unfold joinArtistCredits at 1. cbn [foldl]. rewrite joinArtistCredits_from.
    rewrite !string_app_assoc. reflexivity.
  - unfold joinArtistCredits at 1. rewrite foldl_app.
    fold (joinArtistCredits a). apply joinArtistCredits_from.
Qed.

(** ** The items of the lists *)

Lemma mjoin_cons {A} (x : list A) (l : list (list A)) :
  mjoin (x :: l) = (x ++ mjoin l)%list.
Proof. reflexivity. Qed.

(** The item of one track of a medium. *)
Lemma trackItems_cons (r : MBRelease) :
  trackItems r =
  mjoin (map (fun media =>
    map (fun t =>
           Item.mk (MBTrack.Title t)
             (if String.eqb (MBMedia.Format media) ""
              then "Track " ++ MBTrack.Number t
              else "Track " ++ MBTrack.Number t ++ " (" ++ MBMedia.Format media ++ ")")
             "" "" (joinArtistCredits (MBRelease.ArtistCredit r)) "" (MetaTrack t))
        (MBMedia.Tracks media))
    (MBRelease.Media r)).
Proof.
  unfold trackItems. cbn zeta. f_equal.
  apply map_ext. intros media. apply map_ext. intros t.
  destruct (String.eqb _ ""); reflexivity.
Qed.


(** X10.  The items of a track list are the tracks of all media of the
    release, in order, each carrying its track as metadata.  Every item
    has the joined artist credits of the release as artist and neither
    id nor URL; its title is the track's, and its description names the
    track number, followed by the medium's format when there is one. *)
Theorem trackItems_lists_every_track_in_order (r : MBRelease) :
  map Item.meta (trackItems r)
  = map MetaTrack (mjoin (map MBMedia.Tracks (MBRelease.Media r)))
  /\ Forall (fun i => Item.artist i = joinArtistCredits (MBRelease.ArtistCredit r)
                      /\ Item.id i = "" /\ Item.url i = "" /\ Item.itemType i = "")
            (trackItems r)
  /\ (forall i, In i (trackItems r) ->
        exists media t,
          In media (MBRelease.Media r) /\ In t (MBMedia.Tracks media)
          /\ Item.title i = MBTrack.Title t
          /\ Item.desc i =
               if String.eqb (MBMedia.Format media) ""
               then "Track " ++ MBTrack.Number t
               else "Track " ++ MBTrack.Number t ++ " (" ++ MBMedia.Format media ++ ")").
Proof.
  rewrite trackItems_cons.
  generalize (joinArtistCredits (MBRelease.ArtistCredit r)). intros artist.
  induction (MBRelease.Media r) as [|media rest (IH1 & IH2 & IH3)].
  - cbn. split; [reflexivity|]. split; [constructor|]. intros i [].
  - rewrite !map_cons, !mjoin_cons, !map_app. split; [|split].
    + rewrite IH1. f_equal. rewrite map_map. reflexivity.
    + apply Forall_app. split; [|exact IH2].
      apply Forall_forall. intros i Hi.
      apply list_elem_of_In, in_map_iff in Hi as (t & <- & _). cbn. auto.
    + intros i Hi. apply in_app_or in Hi as [Hi | Hi].
      * apply in_map_iff in Hi as (t & <- & Ht).
        exists media, t. cbn. auto.
      * destruct (IH3 i Hi) as (media' & t & Hm & Ht & E1 & E2).
        exists media', t. cbn. auto.
Qed.

Lemma trimLeft_blank (s : string) :
  (forall c, In c (list_ascii_of_string s) -> Go.isSpace c = true) ->
  Go.trimLeft s = "".
Proof.
  induction s as [|c s IH]; [reflexivity|].
  intros Hs. cbn [Go.trimLeft]. rewrite (Hs c) by (cbn; auto).
  apply IH. intros c' Hc'. apply Hs. cbn. auto.
Qed.

(** ** The commands, request by request *)

Section MoreCommands.
Context (W : World).

Lemma videoItems_cons (line : string) (lines : list string) :
  videoItems W (line :: lines) =
  match Unmarshal W line ≫= decodeVideoInfo zeroVideoInfo with
  | Some info =>
      Item.mk (ytDlpVideoInfo.Title info) (uploaderOrChannel info)
              (ytDlpVideoInfo.ID info)
              ("https://www.youtube.com/watch?v=" ++ ytDlpVideoInfo.ID info)
              "" "" MetaNil :: videoItems W lines
  | None => videoItems W lines
  end.
Proof.
  unfold videoItems. cbn [omap list_omap].
  destruct (Unmarshal W line ≫= decodeVideoInfo zeroVideoInfo); reflexivity.
Qed.

(** X7.  The video items of a search come from the output lines that
    decode, at most one per line: an item has the title and id of its
    line, the watch URL of that id, the uploader (or, when that is
    empty, the channel) as description, and no metadata.  There is no
    item exactly when no line decodes. *)
Theorem videoItems_come_from_the_lines_that_decode (lines : list string) :
  (length (videoItems W lines) <= length lines)%nat
  /\ (forall i, In i (videoItems W lines) ->
        exists line info,
          In line lines
          /\ Unmarshal W line ≫= decodeVideoInfo zeroVideoInfo = Some info
          /\ i = Item.mk (ytDlpVideoInfo.Title info)
                         (if String.eqb (ytDlpVideoInfo.Uploader info) ""
                          then ytDlpVideoInfo.Channel info
                          else ytDlpVideoInfo.Uploader info)
                         (ytDlpVideoInfo.ID info)
                         ("https://www.youtube.com/watch?v=" ++ ytDlpVideoInfo.ID info)
                         "" "" MetaNil)
  /\ (videoItems W lines = [] <->
      forall line, In line lines ->
        Unmarshal W line ≫= decodeVideoInfo zeroVideoInfo = None).
Proof.
  induction lines as [|line lines (IH1 & IH2 & IH3)].
  - cbn. split; [lia|]. split; [intros i []|]. split; [intros _ line []|reflexivity].
  - rewrite videoItems_cons.
    destruct (Unmarshal W line ≫= decodeVideoInfo zeroVideoInfo) as [info|] eqn:E.
    + split; [cbn; lia|]. split; [|split].
      * intros i [<- | Hi].
        -- exists line, info. cbn. auto.
        -- destruct (IH2 i Hi) as (l & j & Hl & Hd & Hi'). exists l, j. cbn. auto.
      * discriminate.
      * intros Hall. specialize (Hall line (or_introl eq_refl)). congruence.
    + split; [cbn; lia|]. split; [|split].
      * intros i Hi. destruct (IH2 i Hi) as (l & j & Hl & Hd & Hi').
        exists l, j. cbn. auto.
      * intros Hnil l [<- | Hl]; [exact E|]. apply IH3; assumption.
      * intros Hall. apply IH3. intros l Hl. apply Hall. cbn. auto.
Qed.

Lemma simpleDownloadCmd_flat (ytDlpPath ffmpegPath : string) (selectedYT : item) :
  simpleDownloadCmd W ytDlpPath ffmpegPath selectedYT =
  let made := MadeTemp (Go.Join mainDir tempDir) "gomusicdl_*" in
  match MkdirTemp W (Go.Join mainDir tempDir) "gomusicdl_*" with
  | inr err => mkIO (downloadFinishedMsg "" (Some err)) [made]
  | inl tmpDir =>
      let audioPath := Go.Join tmpDir "audio.tmp" in
      let finalPath := Go.Join (Go.Join mainDir downloadsDir)
                         (sanitizeFilename (Item.title selectedYT ++ ".flac")) in
      let convArgs := ["-y"; "-i"; audioPath; "-c:a"; "flac"; finalPath] in
      let audio := CombinedOutput W ytDlpPath (audioArgs audioPath selectedYT) in
      let conv := CombinedOutput W ffmpegPath convArgs in
      if failed audio then
        mkIO (downloadFinishedMsg ""
                (Some ("音声のダウンロード失敗:" ++ String "010" (combined audio))))
             [made; Ran ytDlpPath (audioArgs audioPath selectedYT); Removed tmpDir]
      else if failed conv then
        mkIO (downloadFinishedMsg ""
                (Some ("ffmpegでの変換失敗:" ++ String "010" (combined conv))))
             [made; Ran ytDlpPath (audioArgs audioPath selectedYT);
              Ran ffmpegPath convArgs; Removed tmpDir]
      else
        mkIO (downloadFinishedMsg finalPath None)
             [made; Ran ytDlpPath (audioArgs audioPath selectedYT);
              Ran ffmpegPath convArgs; Removed tmpDir]
  end.
Proof.
  unfold simpleDownloadCmd, mkdirTemp, deferring, run, removeAll.
  cbn zeta. unfold mbind at 1, IO_bind at 1. cbn [value trace].
  destruct (MkdirTemp W _ _) as [tmpDir | err]; [|reflexivity].
  unfold mbind, IO_bind, mret, IO_ret. cbn [value trace].
  destruct (failed (CombinedOutput W ytDlpPath _)); [reflexivity|].
  cbn [value trace].
  destruct (failed (CombinedOutput W ffmpegPath _)); reflexivity.
Qed.

(** X3.  The tagless download requests nothing over the network.  When
    the scratch directory cannot be made it fails with that error and
    runs nothing.  Otherwise it runs yt-dlp, then ffmpeg only if yt-dlp
    succeeded, and removes the scratch directory last on every path; it
    succeeds exactly when both tools succeed, and then reports the file
    [<sanitized title>.flac] of the downloads directory. *)
Theorem simpleDownloadCmd_cleans_up_and_stays_offline
  (ytDlpPath ffmpegPath : string) (selectedYT : item) :
  let io := simpleDownloadCmd W ytDlpPath ffmpegPath selectedYT in
  (forall url, ~ In (Requested url) (trace io))
  /\ match MkdirTemp W "GoMusicDownloader/temp" "gomusicdl_*" with
     | inr err =>
         io = mkIO (downloadFinishedMsg "" (Some err))
                   [MadeTemp "GoMusicDownloader/temp" "gomusicdl_*"]
     | inl tmpDir =>
         let audioArgs :=
           ["-f"; "bestaudio"; "-o"; Go.Join tmpDir "audio.tmp"; Item.url selectedYT] in
         let target := "GoMusicDownloader/downloads/" ++
                       sanitizeFilename (Item.title selectedYT) ++ ".flac" in
         let convArgs := ["-y"; "-i"; Go.Join tmpDir "audio.tmp"; "-c:a"; "flac"; target] in
         let audio := CombinedOutput W ytDlpPath audioArgs in
         let conv := CombinedOutput W ffmpegPath convArgs in
         (exists middle,
            trace io = MadeTemp "GoMusicDownloader/temp" "gomusicdl_*"
                       :: Ran ytDlpPath audioArgs :: middle ++ [Removed tmpDir]
            /\ middle = if failed audio then [] else [Ran ffmpegPath convArgs])
         /\ (forall name,
               value io = downloadFinishedMsg name None <->
               failed audio = false /\ failed conv = false /\ name = target)
     end.
Proof.
  cbn zeta. rewrite simpleDownloadCmd_flat. cbn zeta.
  change (Go.Join mainDir tempDir) with "GoMusicDownloader/temp".
  assert (Et : forall title,
             Go.Join (Go.Join mainDir downloadsDir) (sanitizeFilename (title ++ ".flac"))
             = "GoMusicDownloader/downloads/" ++ sanitizeFilename title ++ ".flac").
  { intros title. rewrite sanitizeFilename_app. reflexivity. }
  rewrite Et. unfold audioArgs.
  destruct (MkdirTemp W _ _) as [tmpDir | err].
  - destruct (failed (CombinedOutput W ytDlpPath _)) eqn:Ea;
      [|destruct (failed (CombinedOutput W ffmpegPath _)) eqn:Ec]; cbn [value trace].
    + split; [intros url; cbn; intuition discriminate|].
      split; [exists []; auto|].
      intros name. split; [discriminate|]. intros (? & _). discriminate.
    + split; [intros url; cbn; intuition discriminate|].
      split; [eexists; (split; [|reflexivity]); reflexivity|].
      intros name. split; [discriminate|]. intros (_ & ? & _). discriminate.
    + split; [intros url; cbn; intuition discriminate|].
      split; [eexists; (split; [|reflexivity]); reflexivity|].
      intros name. split; [intros [= <-]; auto | intros (_ & _ & ->); reflexivity].
  - split; [intros url; cbn; intuition discriminate | reflexivity].
Qed.

Lemma getLyrics_trace (artist title album : string) (duration : Z) :
  trace (getLyrics W artist title album duration)
  = [Requested (lyricsURL W artist title album duration)].
Proof.
  unfold getLyrics. cbn zeta. fold (lyricsURL W artist title album duration).
  unfold httpGet, mbind at 1, IO_bind. cbn [value trace].
  destruct (Get W _) as [e | c st body]; [reflexivity|].
  destruct (negb _); [reflexivity|].
  destruct (Decode W body ≫= _); reflexivity.
Qed.

Lemma fetchAudio_trace (ytDlpPath tmpDir : string) (selectedYT : item) :
  trace (fetchAudio W ytDlpPath tmpDir selectedYT)
  = [Ran ytDlpPath (audioArgs (Go.Join tmpDir "audio.tmp") selectedYT)].
Proof.
  unfold fetchAudio. cbn zeta. rewrite trace_bind. unfold run. cbn [value trace].
  destruct (failed _); reflexivity.
Qed.

Lemma mergeAssets_trace (ffmpegPath : string) (f : Fetched) (tags : finalTags) :
  trace (mergeAssets W ffmpegPath f tags) =
  match dlErr f with
  | Some _ => []
  | None => [Ran ffmpegPath (ffmpegArgs (audioPath f) (coverPath f) (lyrics f)
                                        (finalPathOf tags) tags)]
  end.
Proof.
  unfold mergeAssets. destruct (dlErr f); [reflexivity|].
  cbn zeta. rewrite trace_bind. unfold run. cbn [value trace].
  fold (finalPathOf tags). destruct (failed _); reflexivity.
Qed.

Lemma fetchAssets_trace (ytDlpPath tmpDir : string) (selectedYT selectedMB : item)
  (tags : finalTags) (r : MBRelease) :
  Item.meta selectedMB = MetaRelease r ->
  exists fetch,
    fetchAssets W ytDlpPath tmpDir selectedYT selectedMB tags = Done fetch
    /\ trace fetch =
        (trace (fetchAudio W ytDlpPath tmpDir selectedYT)
         ++ trace (fetchCover W tmpDir r)
         ++ trace (getLyrics W (finalTags.Artist tags) (finalTags.Title tags)
                             (finalTags.Album tags) (finalTags.DurationSec tags)))%list.
Proof.
  intros Hmeta. unfold fetchAssets. rewrite Hmeta.
  eexists. split; [reflexivity|].
  rewrite trace_bind.
  destruct (value (fetchAudio W ytDlpPath tmpDir selectedYT)) as [a e].
  rewrite !trace_bind. cbn [trace mret IO_ret]. now rewrite app_nil_r.
Qed.

(** X4.  The tagged download of an item that carries a release.  When
    the scratch directory cannot be made it fails with that error and
    asks for nothing else.  Otherwise it runs yt-dlp, asks for the cover
    and for the lyrics whether or not yt-dlp succeeded, runs ffmpeg only
    if yt-dlp succeeded, on the cover and lyrics just obtained, and
    removes the scratch directory last in either case.  (The three
    goroutines are listed in the order the embedding runs them.) *)
Theorem downloadCmd_asks_for_everything_and_cleans_up
  (ytDlpPath ffmpegPath : string) (selectedYT selectedMB : item) (tags : finalTags)
  (r : MBRelease) :
  Item.meta selectedMB = MetaRelease r ->
  exists io,
    downloadCmd W ytDlpPath ffmpegPath selectedYT selectedMB tags = Done io
    /\ match MkdirTemp W "GoMusicDownloader/temp" "gomusicdl_*" with
       | inr err =>
           io = mkIO (downloadFinishedMsg "" (Some err))
                     [MadeTemp "GoMusicDownloader/temp" "gomusicdl_*"]
       | inl tmpDir =>
           let audioArgs :=
             ["-f"; "bestaudio"; "-o"; Go.Join tmpDir "audio.tmp"; Item.url selectedYT] in
           let audio := CombinedOutput W ytDlpPath audioArgs in
           let cover := fetchCover W tmpDir r in
           let words := getLyrics W (finalTags.Artist tags) (finalTags.Title tags)
                                  (finalTags.Album tags) (finalTags.DurationSec tags) in
           trace io =
             ([MadeTemp "GoMusicDownloader/temp" "gomusicdl_*";
               Ran ytDlpPath audioArgs]
              ++ trace cover
              ++ [Requested (lyricsURL W (finalTags.Artist tags) (finalTags.Title tags)
                                       (finalTags.Album tags) (finalTags.DurationSec tags))]
              ++ (if failed audio then []
                  else [Ran ffmpegPath
                          (ffmpegArgs (Go.Join tmpDir "audio.tmp") (value cover)
                                      (value words) (finalPathOf tags) tags)])
              ++ [Removed tmpDir])%list
       end.
Proof.
  intros Hmeta. unfold downloadCmd, mkdirTemp. cbn [value].
  change (Go.Join mainDir tempDir) with "GoMusicDownloader/temp".
  destruct (MkdirTemp W _ _) as [tmpDir | err]; [|eexists; split; reflexivity].
  destruct (fetchAssets_value W ytDlpPath tmpDir selectedYT selectedMB tags r Hmeta)
    as (fetch & Hf & Hv).
  destruct (fetchAssets_trace ytDlpPath tmpDir selectedYT selectedMB tags r Hmeta)
    as (fetch' & Hf' & Ht).
  assert (fetch' = fetch) as -> by congruence.
  rewrite Hf. cbn [mbind Result_bind]. eexists. split; [reflexivity|].
  cbn zeta. unfold deferring, removeAll.
  rewrite !trace_bind. cbn [trace value mret IO_ret].
  rewrite mergeAssets_trace, Ht, Hv, fetchAudio_trace, fetchAudio_value, getLyrics_trace.
  cbn zeta. cbn [dlErr audioPath coverPath lyrics fst snd].
  unfold audioArgs.
  destruct (failed _); cbn [app]; rewrite <- ?app_assoc; cbn [app];
    rewrite ?app_nil_r; reflexivity.
Qed.

Lemma ffmpegArgs_with_lyrics (audioPath coverPath lyrics finalPath : string)
  (tags : finalTags) :
  lyrics <> "" ->
  exists front,
    ffmpegArgs audioPath coverPath lyrics finalPath tags
    = app front ["-metadata"; "LYRICS=" ++ lyrics; finalPath].
Proof.
  intros Hl. apply String.eqb_neq in Hl. unfold ffmpegArgs. rewrite Hl.
  cbn [negb]. cbn zeta. eexists. rewrite <- app_assoc. reflexivity.
Qed.

(** X5.  When the audio is extracted and ffmpeg succeeds, the tagged
    download reports the final path if no lyrics were found, and the
    final path followed by the marker [ (歌詞付き)] if lyrics were found:
    the name reported is then not the path of the file.  Lyrics found
    are passed to ffmpeg as the last metadata, right before the output
    path. *)
Theorem found_lyrics_are_embedded_and_mark_the_reported_name
  (ytDlpPath ffmpegPath : string) (selectedYT selectedMB : item) (tags : finalTags)
  (r : MBRelease) (tmpDir : string) :
  Item.meta selectedMB = MetaRelease r ->
  MkdirTemp W (Go.Join mainDir tempDir) "gomusicdl_*" = inl tmpDir ->
  failed (CombinedOutput W ytDlpPath
            (audioArgs (Go.Join tmpDir "audio.tmp") selectedYT)) = false ->
  let words := value (getLyrics W (finalTags.Artist tags) (finalTags.Title tags)
                                (finalTags.Album tags) (finalTags.DurationSec tags)) in
  let args := ffmpegArgs (Go.Join tmpDir "audio.tmp") (value (fetchCover W tmpDir r))
                         words (finalPathOf tags) tags in
  failed (CombinedOutput W ffmpegPath args) = false ->
  exists io,
    downloadCmd W ytDlpPath ffmpegPath selectedYT selectedMB tags = Done io
    /\ (words = "" -> value io = downloadFinishedMsg (finalPathOf tags) None)
    /\ (words <> "" ->
          value io = downloadFinishedMsg (finalPathOf tags ++ " (歌詞付き)") None
          /\ exists front,
               args = app front ["-metadata"; "LYRICS=" ++ words; finalPathOf tags]).
Proof.
  intros Hmeta Hdir Haudio words args Hconv.
  destruct (downloadCmd_returns W ytDlpPath ffmpegPath selectedYT selectedMB tags
              (ex_intro _ r Hmeta)) as (io & Hio).
  exists io. split; [exact Hio|].
  assert (Hv : value io =
               downloadFinishedMsg
                 (if negb (String.eqb words "")
                  then finalPathOf tags ++ " (歌詞付き)" else finalPathOf tags) None).
  { revert Hio. unfold downloadCmd, mkdirTemp. cbn [value]. rewrite Hdir.
    destruct (fetchAssets_value W ytDlpPath tmpDir selectedYT selectedMB tags r Hmeta)
      as (fetch & Hf & Hfv).
    rewrite Hf. cbn [mbind Result_bind]. intros [= <-].
    unfold deferring. rewrite !value_bind. cbn [value mret IO_ret].
    rewrite mergeAssets_value, Hfv, fetchAudio_value. cbn zeta.
    cbn [dlErr audioPath coverPath lyrics fst snd].
    rewrite Haudio.
    fold words. fold args. rewrite Hconv. reflexivity. }
  split.
  - intros E. rewrite Hv, E. reflexivity.
  - intros Hne. split.
    + rewrite Hv. apply String.eqb_neq in Hne. rewrite Hne. reflexivity.
    + apply ffmpegArgs_with_lyrics. exact Hne.
Qed.

Lemma searchCmd_value (ytDlpPath query : string) :
  value (searchCmd W ytDlpPath query) =
  match (value (searchYouTube W ytDlpPath query)).2,
        value (doMusicBrainzSearch W query) with
  | Some e, _ => searchFinishedMsg [] [] (Some e)
  | None, inr e => searchFinishedMsg [] [] (Some e)
  | None, inl items =>
      searchFinishedMsg (value (searchYouTube W ytDlpPath query)).1 items None
  end.
Proof.
  unfold searchCmd. rewrite value_bind.
  destruct (value (searchYouTube W ytDlpPath query)) as [ytItems ytErr].
  rewrite value_bind.
  destruct (value (doMusicBrainzSearch W query)) as [items | e];
    destruct ytErr; reflexivity.
Qed.

(** X6.  The combined search always makes both lookups, yt-dlp's and
    MusicBrainz's.  It reports yt-dlp's error if there is one, also when
    MusicBrainz failed too; otherwise MusicBrainz's error, and the
    videos found are dropped; the two lists are delivered only when
    neither lookup failed. *)
Theorem searchCmd_runs_both_searches_and_reports_the_first_error
  (ytDlpPath query : string) :
  let yt := searchYouTube W ytDlpPath query in
  let mb := doMusicBrainzSearch W query in
  trace (searchCmd W ytDlpPath query) =
    [Ran ytDlpPath ["--quiet"; "--no-warnings"; "--dump-json";
                    "--default-search"; "ytsearch5"; query];
     Requested ("https://musicbrainz.org/ws/2/release/?query=" ++
                QueryEscape W query ++
                "&fmt=json&inc=artist-credits+release-groups")]
  /\ value (searchCmd W ytDlpPath query) =
       match (value yt).2, value mb with
       | Some e, _ => searchFinishedMsg [] [] (Some e)
       | None, inr e => searchFinishedMsg [] [] (Some e)
       | None, inl items => searchFinishedMsg (value yt).1 items None
       end.
Proof.
  cbn zeta. split.
  - unfold searchCmd. rewrite trace_bind.
    assert (Hy : trace (searchYouTube W ytDlpPath query) =
                 [Ran ytDlpPath ["--quiet"; "--no-warnings"; "--dump-json";
                                 "--default-search"; "ytsearch5"; query]]).
    { unfold searchYouTube. rewrite trace_bind. unfold run. cbn [value trace].
      destruct (failed _); [destruct (timedOut _)|]; reflexivity. }
    rewrite Hy.
    destruct (value (searchYouTube W ytDlpPath query)) as [ytItems ytErr].
    rewrite trace_bind.
    assert (Hm : trace (doMusicBrainzSearch W query) =
                 [Requested ("https://musicbrainz.org/ws/2/release/?query=" ++
                             QueryEscape W query ++
                             "&fmt=json&inc=artist-credits+release-groups")]).
    { unfold doMusicBrainzSearch. cbn zeta. rewrite trace_bind.
      unfold httpGet. cbn [value trace].
      destruct (Get W _) as [e | c st body]; [reflexivity|].
      destruct (_ ≫= _); reflexivity. }
    rewrite Hm.
    destruct (value (doMusicBrainzSearch W query)) as [items | e];
      destruct ytErr; reflexivity.
  - apply searchCmd_value.
Qed.

Lemma decodeSearchResponse_names_no_group (v : json.Value) (releases : list MBRelease) :
  decodeSearchResponse [] v = Some releases ->
  Forall (fun r => MBRelease.ReleaseGroup r = zeroReleaseGroup) releases.
Proof.
  unfold decodeSearchResponse.
  apply (struct_keeps _ (Forall (fun r => MBRelease.ReleaseGroup r = zeroReleaseGroup)));
    [|constructor].
  intros f [<- | []] t v' t' _. unfold json.field. cbn [snd].
  destruct (json.slice _ _ _ v') as [rs|] eqn:Es; [|discriminate].
  cbn. intros [= <-]. revert Es. unfold json.slice.
  destruct v' as [| | | | |vs|]; try discriminate; [intros [= <-]; constructor|].
  clear. revert rs. induction vs as [|v vs IH]; intros rs.
  - intros [= <-]. constructor.
  - cbn [mapM]. destruct (decodeRelease zeroRelease v) as [r|] eqn:Er; [|discriminate].
    cbn [mbind option_bind]. destruct (mapM _ vs) as [rs'|]; [|discriminate].
    cbn. intros [= <-]. constructor; [|apply IH; reflexivity].
    eapply decodeRelease_names_no_group; eauto.
Qed.

Lemma doMusicBrainzSearch_value (query : string) :
  value (doMusicBrainzSearch W query) =
  match Get W ("https://musicbrainz.org/ws/2/release/?query=" ++
               QueryEscape W query ++
               "&fmt=json&inc=artist-credits+release-groups") with
  | HttpFailed err => inr err
  | HttpResponse _ _ body =>
      match Decode W body ≫= decodeSearchResponse [] with
      | None => inr jsonError
      | Some releases => inl (map releaseItem releases)
      end
  end.
Proof.
  unfold doMusicBrainzSearch. cbn zeta. rewrite value_bind.
  unfold httpGet. cbn [value].
  destruct (Get W _) as [e | c st body]; [reflexivity|].
  destruct (_ ≫= _); reflexivity.
Qed.

(** X9.  The release search does not look at the HTTP status: whenever
    the body decodes, its releases are listed, one item each.  Every
    item listed carries its release, has the release's id and title, and
    a description that ends in empty brackets: the primary type is
    never decoded (see [decodeReleaseGroup]). *)
Theorem release_search_ignores_the_status_and_shows_no_type (query : string) :
  let url := "https://musicbrainz.org/ws/2/release/?query=" ++
             QueryEscape W query ++
             "&fmt=json&inc=artist-credits+release-groups" in
  (forall code status body releases,
     Get W url = HttpResponse code status body ->
     Decode W body ≫= decodeSearchResponse [] = Some releases ->
     value (doMusicBrainzSearch W query) = inl (map releaseItem releases))
  /\ (forall items,
        value (doMusicBrainzSearch W query) = inl items ->
        Forall (fun i =>
                  exists r,
                    Item.meta i = MetaRelease r
                    /\ Item.id i = MBRelease.ID r
                    /\ Item.title i = MBRelease.Title r
                    /\ Item.desc i = joinArtistCredits (MBRelease.ArtistCredit r)
                                     ++ " (" ++ MBRelease.Date r ++ ") []") items).
Proof.
  cbn zeta. split.
  - intros code status body releases Hget Hdec.
    now rewrite doMusicBrainzSearch_value, Hget, Hdec.
  - intros items. rewrite doMusicBrainzSearch_value.
    destruct (Get W _) as [e | c st body]; [discriminate|].
    destruct (Decode W body) as [v|]; [|discriminate]. cbn [mbind option_bind].
    destruct (decodeSearchResponse [] v) as [releases|] eqn:Ed; [|discriminate].
    intros [= <-]. apply decodeSearchResponse_names_no_group in Ed.
    apply Forall_forall. intros i Hi.
    apply list_elem_of_In, in_map_iff in Hi as (r & <- & Hr).
    rewrite Forall_forall in Ed.
    assert (Hg : MBRelease.ReleaseGroup r = zeroReleaseGroup)
      by (apply Ed; now apply list_elem_of_In).
    exists r. unfold releaseItem. cbn. rewrite Hg. cbn. auto.
Qed.

(** X8.  If yt-dlp succeeds and prints nothing but white space, and the
    empty text is no JSON document, the YouTube search yields no video
    and no error; the combined search then completes, when MusicBrainz
    answers, with an empty list of videos. *)
Theorem a_search_that_prints_nothing_lists_no_video (ytDlpPath query : string) :
  let o := CombinedOutput W ytDlpPath
             ["--quiet"; "--no-warnings"; "--dump-json";
              "--default-search"; "ytsearch5"; query] in
  failed o = false ->
  (forall c, In c (list_ascii_of_string (combined o)) -> Go.isSpace c = true) ->
  Unmarshal W "" = None ->
  value (searchYouTube W ytDlpPath query) = ([], None)
  /\ forall items,
       value (doMusicBrainzSearch W query) = inl items ->
       value (searchCmd W ytDlpPath query) = searchFinishedMsg [] items None.
Proof.
  intros o Hok Hblank Hjson.
  assert (Hy : value (searchYouTube W ytDlpPath query) = ([], None)).
  { unfold searchYouTube. rewrite value_bind. unfold run. cbn [value].
    fold o. rewrite Hok. cbn zeta. cbn [value mret IO_ret].
    unfold Go.TrimSpace. rewrite (trimLeft_blank _ Hblank).
    cbn [Go.trimRight Go.Split]. rewrite videoItems_cons. rewrite Hjson.
    reflexivity. }
  split; [exact Hy|]. intros items Hm.
  rewrite searchCmd_value, Hy, Hm. reflexivity.
Qed.

End MoreCommands.

(** ** What every run keeps *)

Section Runs.
Context `{Bubbles}.

Lemma delegate_keeps (msg : Msg) (m m' : model) (cmds cmds' : list Cmd) :
  delegate msg m cmds = Done (m', cmds') ->
  model.state m' = model.state m
  /\ model.error m' = model.error m
  /\ model.statusMsg m' = model.statusMsg m
  /\ model.ytDlpPath m' = model.ytDlpPath m
  /\ model.ffmpegPath m' = model.ffmpegPath m
  /\ model.width m' = model.width m
  /\ model.height m' = model.height m
  /\ model.lastFile m' = model.lastFile m
  /\ model.spinner m' = model.spinner m
  /\ blist.items (model.ytResults m') = blist.items (model.ytResults m)
  /\ blist.items (model.mbResults m') = blist.items (model.mbResults m)
  /\ blist.items (model.tracklist m') = blist.items (model.tracklist m).
Proof.
  unfold delegate. destruct (model.state m) eqn:Es;
    try match goal with
        | |- context [list_Update ?msg ?l] =>
            pose proof (list_Update_items msg l) as Hl;
            destruct (list_Update msg l) as [l' c]; cbn in Hl
        end;
    try (intros [= <- <-]; cbn; rewrite ?Hl; auto 15).
  destruct (_ <? _); [|intros [= <- <-]; cbn; auto 15].
  destruct (Go.index _ _) as [t|]; [|discriminate]. cbn.
  destruct (Go.store _ _ _) as [inputs|] eqn:Est; [|discriminate]. cbn.
  intros [= <- <-]. cbn. auto 15.
Qed.

Lemma updateOther_shows (msg : Msg) (m : model) :
  shows m -> shows (updateOther msg m).1.
Proof.
  unfold shows. intros Hm.
  destruct msg as [w h| k | p e | p e | i e | ys ms e | its e | its e | f e | | |];
    try destruct e; cbn; eauto; try discriminate;
    destruct (Go.len its =? 0); cbn; eauto; discriminate.
Qed.

Lemma updateKey_shows (k : tea.Key) (m m' : model) (cmds : list Cmd) :
  shows m -> updateKey k m = Done (m', cmds) -> shows m'.
Proof.
  unfold shows. intros Hm. unfold updateKey.
  destruct (model.state m) eqn:Es.
  all: repeat match goal with
              | |- context [if ?b then _ else _] => destruct b
              | |- context [match blist.SelectedItem ?l with _ => _ end] =>
                  destruct (blist.SelectedItem l)
              | |- context [refocus ?i ?f ?l] => destruct (refocus i f l)
              end.
  all: cbn; returned; intros [= <- <-]; cbn; try discriminate;
    try (rewrite Es; discriminate); auto.
Qed.

Lemma Update_shows (msg : Msg) (m m' : model) (cmds : list Cmd) :
  shows m -> Update msg m = Done (m', cmds) -> shows m'.
Proof.
  intros Hm Hu.
  assert (exists m1 c1, shows m1
            /\ (delegate msg m1 c1 = Done (m', cmds) \/ m1 = m')) as (m1 & c1 & H1 & Hd).
  { unfold Update in Hu. destruct msg as [w h| k | | | | | | | | | |].
    2: { destruct (tea.isCtrlC k); [injection Hu as <- <-; exists m, []; auto|].
         destruct (updateKey k m) as [[m1 c1]|] eqn:Ek; [|discriminate].
         cbn in Hu. apply updateKey_shows in Ek; eauto. }
    all: match type of Hu with
         | context [updateOther ?msg ?m0] =>
             pose proof (updateOther_shows msg m0 Hm);
             destruct (updateOther msg m0) as [m1 c1]; eauto
         end. }
  destruct Hd as [Hd | <-]; [|assumption].
  apply delegate_keeps in Hd as (Es & Ee & _).
  unfold shows in *. rewrite Es, Ee. assumption.
Qed.

Lemma Update_ready (msg : Msg) (m m' : model) (cmds : list Cmd) :
  editing m -> Update msg m = Done (m', cmds) -> Forall ready cmds.
Proof.
  intros Hm Hu. apply Forall_forall. intros c Hc.
  destruct c; try exact I. cbn.
  apply list_elem_of_In in Hc.
  destruct (Update_dispatches_download _ _ _ _ _ _ _ _ _ Hu Hc) as (Es & ->).
  apply (Hm Es).
Qed.

Lemma perform_ready (W : World) (c : Cmd) :
  ready c -> exists io, perform W c = Done io.
Proof.
  destruct c; cbn [perform]; eauto.
  intros Hr. destruct (downloadCmd_returns W ytDlpPath ffmpegPath selectedYT selectedMB tags Hr)
    as (io & ->). cbn. eauto.
Qed.

Lemma feed_sound (msg : Msg) (m : model) (waiting : list Cmd) (p' : Program) :
  editing m -> typed m -> shows m -> Forall ready waiting -> wellTyped msg ->
  feed msg m waiting = Running p' -> sound p'.
Proof.
  intros He Ht Hs Hw Hmsg. unfold feed.
  destruct (Update msg m) as [[m' cmds]|] eqn:Eu; [|discriminate].
  intros [= <-]. unfold sound. cbn.
  split; [eapply Update_editing; eauto|].
  split; [eapply Update_typed; eauto|].
  split; [eapply Update_shows; eauto|].
  apply Forall_app. split; [assumption|]. eapply Update_ready; eauto.
Qed.

Lemma step_sound (p p' : Program) (e : Event) :
  sound p -> step p e = Running p' -> sound p'.
Proof.
  intros (He & Ht & Hs & Hw). unfold step.
  destruct e as [k | w h | n W].
  1, 2: apply feed_sound; auto; exact I.
  destruct (pending p !! n) as [c|] eqn:En; [|discriminate].
  destruct (perform W c) as [io|] eqn:Ep; [|discriminate].
  destruct (value io) as [msg|] eqn:Ev; [|discriminate].
  apply feed_sound; auto.
  - apply Forall_delete. assumption.
  - eapply perform_wellTyped; eauto.
Qed.

Lemma sound_start : sound start.
Proof.
  unfold sound, start. cbn.
  split; [apply editing_newModel|]. split; [apply typed_newModel|].
  split; [unfold shows; cbn; discriminate|]. repeat constructor.
Qed.

Lemma play_sound (events : list Event) (p p' : Program) :
  sound p -> play events p = Running p' -> sound p'.
Proof.
  revert p; induction events as [|e rest IH]; intros p Hp; cbn.
  - intros [= <-]. assumption.
  - destruct (step p e) as [p1| | |] eqn:Es; try discriminate.
    apply IH. eapply step_sound; eauto.
Qed.

Lemma play_stops (events : list Event) (p : Program) (o : Outcome) :
  play events p = o -> (forall p', o <> Running p') ->
  exists before e p',
    play before p = Running p' /\ step p' e = o.
Proof.
  revert p; induction events as [|e rest IH]; intros p; cbn.
  - intros <- Hn. exfalso. eapply Hn. reflexivity.
  - destruct (step p e) as [p1| | |] eqn:Es.
    + intros Hplay Hn. destruct (IH p1 Hplay Hn) as (before & e' & p' & Hb & Hs).
      exists (e :: before), e', p'. cbn. rewrite Es. auto.
    + intros <- _. exists [], e, p. auto.
    + intros <- _. exists [], e, p. auto.
    + intros <- _. exists [], e, p. auto.
Qed.

(** X16.  In every reachable model that is in [stateError] the error is
    set, so that the view has an error to print. *)
Theorem error_state_has_an_error (m : model) :
  reachable m -> model.state m = stateError ->
  exists e, model.error m = Some e.
Proof.
  intros (events & p & Hplay & <-).
  apply (play_sound events start p sound_start Hplay).
Qed.


(** X18.  No run of the program indexes a slice out of range: not
    [Update], which reads [tagInputs] at 0 to 4 and at the focus index,
    and no command. *)
Theorem no_run_indexes_out_of_range (events : list Event) :
  play events start <> Crashed IndexOutOfRange.
Proof.
  intros Hplay.
  destruct (play_stops events start _ Hplay) as (before & e & p & Hb & Hs);
    [discriminate|].
  pose proof (play_sound before start p sound_start Hb) as (He & Ht & _ & Hw).
  assert (Hr : reachable (current p)) by (exists before, p; auto).
  assert (Hu : forall msg waiting, feed msg (current p) waiting <> Crashed IndexOutOfRange).
  { intros msg waiting. unfold feed.
    destruct (Update msg (current p)) as [[m' cmds]|f] eqn:Eu; [discriminate|].
    destruct (Update_panics msg (current p) f Hr Eu) as (-> & _). discriminate. }
  unfold step in Hs. destruct e as [k | w h | n W].
  - eapply Hu; eauto.
  - eapply Hu; eauto.
  - destruct (pending p !! n) as [c|] eqn:En; [|discriminate].
    assert (Hc : ready c).
    { rewrite Forall_forall in Hw. apply Hw. eapply list_elem_of_lookup_2; eauto. }
    destruct (perform_ready W c Hc) as (io & Ep). rewrite Ep in Hs.
    destruct (value io); [|discriminate]. eapply Hu; eauto.
Qed.

End Runs.

(** ** The steps of the wizard *)

Section Wizard.
Context `{Bubbles}.

(** X14.  The start of the program.  yt-dlp is looked up on the path
    and, failing that, as a file next to the program (with [.exe] on
    Windows); ffmpeg is looked up only once yt-dlp is found.  With both
    found the controller is in [stateInput] and holds both paths.
    Without yt-dlp, or without ffmpeg, it is in [stateError] with the
    program's own message (the error of the ffmpeg lookup is dropped),
    and nothing is pending. *)
Theorem startup_checks_the_tools (W : World) :
  let localPath := if String.eqb (GOOS W) "windows" then "yt-dlp.exe" else "yt-dlp" in
  let found := match LookPath W "yt-dlp" with
               | inl path => Some path
               | inr _ => match Stat W localPath with
                          | None => Some ("./" ++ localPath)
                          | Some _ => None
                          end
               end in
  match found with
  | None =>
      exists m,
        play [Completed 0 W] start = Running (mkProgram m [])
        /\ model.state m = stateError
        /\ model.error m =
           Some "yt-dlpが見つかりません。パスが通っているか、実行ファイルと同じフォルダに配置してください。"
  | Some path =>
      match LookPath W "ffmpeg" with
      | inr _ =>
          exists m,
            play [Completed 0 W; Completed 0 W] start = Running (mkProgram m [])
            /\ model.state m = stateError
            /\ model.error m = Some ffmpegMissing
            /\ model.ytDlpPath m = path
      | inl ffmpeg =>
          exists m,
            play [Completed 0 W; Completed 0 W] start
            = Running (mkProgram m [Cmd.widget])
            /\ model.state m = stateInput
            /\ model.ytDlpPath m = path
            /\ model.ffmpegPath m = ffmpeg
            /\ model.error m = None
      end
  end.
Proof.
  cbn zeta. unfold play, step, start, Init. cbn [pending current lookup list_lookup].
  cbn [perform value]. unfold checkYtDlpCmd.
  destruct (LookPath W "yt-dlp") as [path | e].
  - unfold feed at 2. cbn.
    unfold checkFfmpegCmd.
    destruct (LookPath W "ffmpeg") as [ff | e']; cbn; eexists; repeat split; reflexivity.
  - replace (if String.eqb (GOOS W) "windows" then "yt-dlp" ++ ".exe" else "yt-dlp")
      with (if String.eqb (GOOS W) "windows" then "yt-dlp.exe" else "yt-dlp")
      by (destruct (String.eqb _ _); reflexivity).
    destruct (Stat W _) as [e'|].
    + cbn. eexists; repeat split; reflexivity.
    + unfold feed at 2. cbn. unfold checkFfmpegCmd.
      destruct (LookPath W "ffmpeg") as [ff | e']; cbn; eexists; repeat split; reflexivity.
Qed.

Lemma key_in_a_result_state (m : model) (k : tea.Key) :
  model.state m = stateShowSuccess \/ model.state m = stateError ->
  tea.isCtrlC k = false ->
  Update (KeyMsg k) m = Done (m, [Cmd.reset]).
Proof.
  intros Hs Hk. unfold Update, updateKey, delegate. rewrite Hk.
  destruct Hs as [E | E]; rewrite E; cbn; rewrite E; reflexivity.
Qed.

Lemma Update_reset (m : model) :
  Update resetMsg m
  = Done (afterReset (model.ytDlpPath m) (model.ffmpegPath m)
                     (model.width m) (model.height m),
          [Cmd.textinputBlink; Cmd.widget]).
Proof. reflexivity. Qed.

Lemma enter_in_the_input (m : model) (k : tea.Key) :
  model.state m = stateInput -> tea.isEnter k = true ->
  Update (KeyMsg k) m =
  let query := textinput.Value (model.input m) in
  if Go.HasPrefix query "http"
  then Done (model.set_statusMsg "URLから情報を取得中です..."
               (model.set_state stateFetchingURLInfo m),
             [Cmd.spinnerTick; Cmd.getURLInfo (model.ytDlpPath m) query])
  else Done (model.set_statusMsg "YouTubeとMusicBrainzを検索中です..."
               (model.set_state stateSearching m),
             [Cmd.spinnerTick; Cmd.search (model.ytDlpPath m) query]).
Proof.
  intros Hs He. unfold Update, updateKey.
  rewrite (enter_is_not_cancel k He), Hs, He. cbn zeta.
  destruct (Go.HasPrefix _ _); reflexivity.
Qed.

(** X15.  A failed dependency check does not keep the user from the
    input.  After yt-dlp was not found, any key but Ctrl+C leads through
    the reset to [stateInput] with empty tool paths; the check is not
    dispatched again, and Enter dispatches a search that names the empty
    path as the tool to run. *)
Theorem a_missing_tool_does_not_block_the_input
  (W : World) (k : tea.Key) (e e' : goerror) :
  LookPath W "yt-dlp" = inr e ->
  Stat W (if String.eqb (GOOS W) "windows" then "yt-dlp.exe" else "yt-dlp") = Some e' ->
  tea.isCtrlC k = false ->
  exists m,
    play [Completed 0 W; Pressed k; Completed 0 W] start
    = Running (mkProgram m [Cmd.textinputBlink; Cmd.widget])
    /\ model.state m = stateInput
    /\ model.ytDlpPath m = "" /\ model.ffmpegPath m = ""
    /\ forall k', tea.isEnter k' = true ->
         exists m',
           Update (KeyMsg k') m = Done (m', [Cmd.spinnerTick; Cmd.search "" ""])
           /\ model.state m' = stateSearching.
Proof.
  intros Hlook Hstat Hk.
  assert (H1 : step start (Completed 0 W)
               = Running (mkProgram
                   (model.set_error
                      (Some "yt-dlpが見つかりません。パスが通っているか、実行ファイルと同じフォルダに配置してください。")
                      (model.set_state stateError newModel)) [])).
  { unfold step, start, Init. cbn [pending current lookup list_lookup perform value].
    unfold checkYtDlpCmd. rewrite Hlook.
    replace (if String.eqb (GOOS W) "windows" then "yt-dlp" ++ ".exe" else "yt-dlp")
      with (if String.eqb (GOOS W) "windows" then "yt-dlp.exe" else "yt-dlp")
      by (destruct (String.eqb _ _); reflexivity).
    rewrite Hstat. reflexivity. }
  exists (afterReset "" "" 0 0).
  split.
  - cbn [play]. rewrite H1.
    unfold step at 1, feed. cbn [current pending].
    rewrite key_in_a_result_state by (auto; right; reflexivity).
    cbn [app]. unfold step, feed. cbn [pending current lookup list_lookup perform value].
    rewrite Update_reset. reflexivity.
  - split; [reflexivity|]. split; [reflexivity|]. split; [reflexivity|].
    intros k' He. rewrite enter_in_the_input by (auto; reflexivity).
    eexists. split; reflexivity.
Qed.

Lemma updateKey_download (k : tea.Key) (m m' : model) (cmds : list Cmd) (c : Cmd) :
  updateKey k m = Done (m', cmds) -> In c cmds -> Cmd.isDownload c = true ->
  model.state m' = stateDownloading
  /\ ((model.state m = stateEditTags /\ tea.isEnter k = true
       /\ exists tags,
            c = Cmd.download (model.ytDlpPath m) (model.ffmpegPath m)
                             (model.selectedYT m) (model.selectedMB m) tags)
      \/ (model.state m = stateConfirmSkipMB
          /\ c = Cmd.simpleDownload (model.ytDlpPath m) (model.ffmpegPath m)
                                    (model.selectedYT m))).
Proof.
  unfold updateKey. destruct (model.state m) eqn:Es.
  all: repeat match goal with
              | |- context [if ?b then _ else _] =>
                  let E := fresh "Eb" in destruct b eqn:E
              | |- context [match blist.SelectedItem ?l with _ => _ end] =>
                  destruct (blist.SelectedItem l)
              | |- context [refocus ?i ?f ?l] =>
                  let E := fresh "E" in destruct (refocus i f l) eqn:E
              end.
  all: cbn; returned; intros [= <- <-]; cbn [In];
    try (intros [<- | [<- | []]]; try discriminate; intros _; cbn; eauto 10);
    try (intros [<- | []]; discriminate);
    try (intros []).
  all: intros Hin Hd;
    match goal with
    | E : refocus ?i ?f ?l = (_, ?cs) |- _ =>
        pose proof (refocus_cmds i f l _ ltac:(rewrite E; exact Hin)); subst c
    end; discriminate.
Qed.

(** X19.  A download is dispatched by a key only, and in two states
    only: by Enter in [stateEditTags] (the tagged download, with the
    paths and the selections of the model) and in [stateConfirmSkipMB]
    (the tagless download); the controller is then in
    [stateDownloading].  No answer of a command, resize or tick
    dispatches a download. *)
Theorem downloads_start_from_a_key_in_two_states
  (msg : Msg) (m m' : model) (cmds : list Cmd) (c : Cmd) :
  Update msg m = Done (m', cmds) -> In c cmds -> Cmd.isDownload c = true ->
  model.state m' = stateDownloading
  /\ exists k,
       msg = KeyMsg k
       /\ ((model.state m = stateEditTags /\ tea.isEnter k = true
            /\ exists tags,
                 c = Cmd.download (model.ytDlpPath m) (model.ffmpegPath m)
                                  (model.selectedYT m) (model.selectedMB m) tags)
           \/ (model.state m = stateConfirmSkipMB
               /\ c = Cmd.simpleDownload (model.ytDlpPath m) (model.ffmpegPath m)
                                         (model.selectedYT m))).
Proof.
  intros Hu Hin Hd.
  assert (Hc : forall m1 c1, delegate msg m1 c1 = Done (m', cmds) ->
                 In c c1 /\ model.state m' = model.state m1).
  { intros m1 c1 Hdel. pose proof (delegate_frame _ _ _ _ _ Hdel) as (Es & _).
    split; [|exact Es].
    apply delegate_cmds in Hdel as [-> | (c' & -> & Hc')]; [assumption|].
    apply in_app_or in Hin as [Hin | [Hin | []]]; [assumption|].
    subst c'. destruct Hc' as [-> | ->]; discriminate. }
  unfold Update in Hu. destruct msg as [w h| k | | | | | | | | | |].
  2: { destruct (tea.isCtrlC k).
       - injection Hu as <- <-. destruct Hin as [<- | []]. discriminate.
       - destruct (updateKey k m) as [[m1 c1]|] eqn:Ek; [|discriminate].
         cbn in Hu. apply Hc in Hu as (Hin1 & Es).
         destruct (updateKey_download k m m1 c1 c Ek Hin1 Hd) as (Hs & Hcases).
         split; [congruence|]. exists k. split; [reflexivity | exact Hcases]. }
  all: match type of Hu with
       | context [updateOther ?msg ?m0] =>
           pose proof (updateOther_dispatches_no_download msg m0 c) as Hno;
           destruct (updateOther msg m0) as [m1 c1];
           apply Hc in Hu as (Hin1 & _); apply Hno in Hin1; congruence
       end.
Qed.

Lemma updateKey_keeps (k : tea.Key) (m m' : model) (cmds : list Cmd) :
  updateKey k m = Done (m', cmds) ->
  model.error m' = model.error m
  /\ model.ytDlpPath m' = model.ytDlpPath m
  /\ model.ffmpegPath m' = model.ffmpegPath m
  /\ model.width m' = model.width m
  /\ model.height m' = model.height m
  /\ model.lastFile m' = model.lastFile m
  /\ model.input m' = model.input m
  /\ model.ytResults m' = model.ytResults m
  /\ model.mbResults m' = model.mbResults m
  /\ model.tracklist m' = model.tracklist m.
Proof.
  unfold updateKey. destruct (model.state m) eqn:Es.
  all: repeat match goal with
              | |- context [if ?b then _ else _] => destruct b
              | |- context [match blist.SelectedItem ?l with _ => _ end] =>
                  destruct (blist.SelectedItem l)
              | |- context [refocus ?i ?f ?l] => destruct (refocus i f l)
              end.
  all: cbn; returned; intros [= <- <-]; cbn; auto 12.
Qed.

(** X20.  A key never changes what the three lists hold, the tool
    paths, the terminal size, the error or the last file.  In the four
    waiting states every key but Ctrl+C is ignored altogether. *)
Theorem a_key_changes_neither_lists_nor_tools
  (k : tea.Key) (m m' : model) (cmds : list Cmd) :
  Update (KeyMsg k) m = Done (m', cmds) ->
  blist.items (model.ytResults m') = blist.items (model.ytResults m)
  /\ blist.items (model.mbResults m') = blist.items (model.mbResults m)
  /\ blist.items (model.tracklist m') = blist.items (model.tracklist m)
  /\ model.ytDlpPath m' = model.ytDlpPath m
  /\ model.ffmpegPath m' = model.ffmpegPath m
  /\ model.width m' = model.width m
  /\ model.height m' = model.height m
  /\ model.error m' = model.error m
  /\ model.lastFile m' = model.lastFile m
  /\ (tea.isCtrlC k = false ->
      model.state m = stateCheckingDeps \/ model.state m = stateFetchingURLInfo
      \/ model.state m = stateSearching \/ model.state m = stateDownloading ->
      m' = m /\ cmds = []).
Proof.
  unfold Update. destruct (tea.isCtrlC k) eqn:Ec.
  - intros [= <- <-]. do 9 (split; [reflexivity|]). discriminate.
  - destruct (updateKey k m) as [[m1 c1]|] eqn:Ek; [|discriminate]. cbn.
    intros Hd. pose proof (updateKey_keeps k m m1 c1 Ek)
      as (Ke & Ky & Kf & Kw & Kh & Kl & Ki & Kyr & Kmr & Ktr).
    pose proof (delegate_keeps _ _ _ _ _ Hd)
      as (_ & De & _ & Dy & Df & Dw & Dh & Dl & _ & Dyr & Dmr & Dtr).
    do 9 (split; [congruence|]).
    intros _ Hs. revert Ek Hd. unfold updateKey, delegate.
    destruct Hs as [E | [E | [E | E]]]; rewrite E;
      intros [= <- <-]; rewrite E; intros [= <- <-]; auto.
Qed.

Lemma textinput_Update_other (msg : Msg) (t : textinput.Model) :
  (forall k, msg <> KeyMsg k) -> textinput_Update msg t = t.
Proof.
  intros Hk. unfold textinput_Update. destruct (textinput.focus t); [|reflexivity].
  destruct msg; try reflexivity. exfalso. eapply Hk. reflexivity.
Qed.

(** X21.  In a reachable model a window-size message is always handled.
    It sets the width and height, gives the three lists the width less
    4 and the height less 8 (in [int] arithmetic) while keeping their
    items and titles, and leaves the state, the text input, the tag
    inputs, the focus index, the selections, the status, the error, the
    tool paths and the last file as they were; it dispatches no command
    but a widget's own. *)
Theorem a_resize_changes_only_the_sizes (m : model) (w h : Z) :
  reachable m ->
  let resized (l l' : blist.Model) :=
    blist.items l' = blist.items l /\ blist.Title l' = blist.Title l
    /\ blist.width l' = Go.sub w 4 /\ blist.height l' = Go.sub h 8 in
  exists m' cmds,
    Update (WindowSizeMsg w h) m = Done (m', cmds)
    /\ Forall (fun c => c = Cmd.widget) cmds
    /\ model.width m' = w /\ model.height m' = h
    /\ resized (model.ytResults m) (model.ytResults m')
    /\ resized (model.mbResults m) (model.mbResults m')
    /\ resized (model.tracklist m) (model.tracklist m')
    /\ model.state m' = model.state m
    /\ model.input m' = model.input m
    /\ model.tagInputs m' = model.tagInputs m
    /\ model.focusIndex m' = model.focusIndex m
    /\ model.selectedYT m' = model.selectedYT m
    /\ model.selectedMB m' = model.selectedMB m
    /\ model.selectedTrack m' = model.selectedTrack m
    /\ model.statusMsg m' = model.statusMsg m
    /\ model.error m' = model.error m
    /\ model.ytDlpPath m' = model.ytDlpPath m
    /\ model.ffmpegPath m' = model.ffmpegPath m
    /\ model.lastFile m' = model.lastFile m.
Proof.
  intros Hr resized. apply reachable_editing in Hr as Hm. clear Hr.
  subst resized. cbn beta.
  destruct m as [st inp tags fi sp yr mr tr sy sm strk status err yp fp wd ht lf].
  unfold editing in Hm. cbn in Hm.
  unfold Update, updateOther, delegate. cbn.
  destruct st.
  all: try (eexists _, _; split; [reflexivity|]; cbn;
            rewrite ?textinput_Update_other by discriminate;
            split; [repeat constructor|];
            split; [reflexivity|]; split; [reflexivity|];
            auto 25; fail).
  (* stateEditTags *)
  destruct (Hm eq_refl) as (Hlen & Hf & _). pose proof (len_five _ Hlen) as Hl.
  rewrite Hl.
  destruct (Z.ltb_spec fi 5); [|lia].
  destruct (index_in_range tags fi) as (t & -> & Ht); [lia|].
  cbn [mbind Result_bind]. rewrite store_in_range by lia. cbn [mbind Result_bind].
  rewrite textinput_Update_other by discriminate.
  rewrite list_insert_id by exact Ht.
  eexists _, _; split; [reflexivity|]; cbn.
  split; [repeat constructor|].
  split; [reflexivity|]. split; [reflexivity|].
  auto 25.
Qed.

(** X22.  Enter on a track, with a release selected, opens the tag
    editor: five inputs of width 50 and limit 150, pre-filled with the
    track's title, the item's artist, the release's title and date and
    the track's number, as [SetValue] stores them; the focus index is 0
    and only the first input is focused.  The Enter key itself is then
    handed to that first input. *)
Theorem selecting_a_track_prefills_the_five_tags
  (m : model) (k : tea.Key) (i : item) (r : MBRelease) (t : MBTrack) :
  model.state m = stateSelectTrack -> tea.isEnter k = true ->
  blist.SelectedItem (model.tracklist m) = Some i ->
  Item.meta (model.selectedMB m) = MetaRelease r ->
  Item.meta i = MetaTrack t ->
  let filled (v : string) :=
    textinput.mk (inputOnSet v textinput.New) false "" 50 150 in
  exists m',
    Update (KeyMsg k) m = Done (m', [Cmd.inputFocus; Cmd.widget])
    /\ model.state m' = stateEditTags
    /\ model.focusIndex m' = 0
    /\ model.selectedTrack m' = i
    /\ model.selectedMB m' = model.selectedMB m
    /\ model.tagInputs m' =
         textinput_Update (KeyMsg k) (textinput.Focus (filled (MBTrack.Title t)))
         :: map filled [Item.artist i; MBRelease.Title r; MBRelease.Date r;
                        MBTrack.Number t]
    /\ map textinput.focus (model.tagInputs m') = [true; false; false; false; false].
Proof.
  intros Es He Hsel Hr Ht filled.
  unfold Update. rewrite (enter_is_not_cancel k He).
  unfold updateKey. rewrite Es, He, Hsel. cbn zeta.
  unfold createTagInputs.
  cbn [model.selectedMB model.selectedTrack model.set_selectedTrack
       model.set_state model.set_focusIndex].
  rewrite Hr, Ht. cbn [assertMBRelease assertMBTrack mbind Result_bind map].
  cbn [model.tagInputs model.set_tagInputs].
  unfold textinput_SetValue. cbn [textinput.withValue textinput.withWidth
    textinput.withCharLimit textinput.New textinput.value textinput.focus
    textinput.Placeholder textinput.Width textinput.CharLimit].
  fold textinput.New.
  unfold Go.index, Go.store. cbn [Z.ltb Z.compare Z.to_nat lookup list_lookup
    length Nat.ltb Nat.leb mbind Result_bind list_insert insert].
  unfold delegate. cbn [model.state model.set_tagInputs model.set_state
    model.set_focusIndex model.set_selectedTrack model.focusIndex model.tagInputs].
  unfold Go.len. cbn [length Z.of_nat Pos.of_succ_nat Pos.succ Z.ltb Z.compare].
  unfold Go.index, Go.store. cbn [Z.ltb Z.compare Z.to_nat lookup list_lookup
    length Nat.ltb Nat.leb mbind Result_bind list_insert insert].
  eexists. split; [reflexivity|].
  cbn [model.state model.set_tagInputs model.set_state
    model.set_focusIndex model.set_selectedTrack model.focusIndex model.tagInputs
    model.selectedTrack model.selectedMB].
  repeat (split; [reflexivity|]).
  unfold textinput_Update. cbn. reflexivity.
Qed.

Lemma refocus_lookup (i f : Z) (inputs : list textinput.Model) (j : nat) :
  (refocus i f inputs).1 !! j =
  (fun t => if i + Z.of_nat j =? f then textinput.Focus t else textinput.Blur t)
    <$> inputs !! j.
Proof.
  revert i j; induction inputs as [|t rest IH]; intros i j; cbn [refocus].
  - reflexivity.
  - specialize (IH (i + 1)). destruct (refocus (i + 1) f rest) as [r c].
    cbn [fst] in IH.
    destruct j as [|j].
    + replace (i + Z.of_nat 0) with i by lia.
      destruct (i =? f); reflexivity.
    + replace (i + Z.of_nat (S j)) with (i + 1 + Z.of_nat j) by lia.
      destruct (i =? f); cbn [fst lookup list_lookup]; apply IH.
Qed.

Lemma refocus_none (i f : Z) (inputs : list textinput.Model) :
  f < i -> (refocus i f inputs).2 = [].
Proof.
  revert i; induction inputs as [|t rest IH]; intros i Hi; cbn [refocus].
  - reflexivity.
  - specialize (IH (i + 1) ltac:(lia)). destruct (refocus (i + 1) f rest) as [r c].
    cbn [snd] in IH. destruct (Z.eqb_spec i f); [lia|]. exact IH.
Qed.

Lemma refocus_one (i f : Z) (inputs : list textinput.Model) :
  i <= f < i + Z.of_nat (length inputs) ->
  (refocus i f inputs).2 = [Cmd.inputFocus].
Proof.
  revert i; induction inputs as [|t rest IH]; intros i; cbn [refocus length].
  - lia.
  - intros Hi. pose proof (refocus_none (i + 1) f rest) as Hn.
    specialize (IH (i + 1)). destruct (refocus (i + 1) f rest) as [r c].
    cbn [snd] in *.
    destruct (Z.eqb_spec i f) as [-> | Hne]; cbn [snd].
    + rewrite Hn by lia. reflexivity.
    + apply IH. lia.
Qed.

Lemma textinput_Update_focus (msg : Msg) (t : textinput.Model) :
  textinput.focus (textinput_Update msg t) = textinput.focus t.
Proof.
  unfold textinput_Update. destruct (textinput.focus t) eqn:E; [|exact E].
  destruct msg; cbn; assumption.
Qed.

(** X23.  In the tag editor of a reachable model, a key that is neither
    Enter, Esc nor Ctrl+C is always handled: the focus index becomes
    [moved], one focus command is dispatched, and afterwards exactly
    the input under the focus index is focused. *)
Theorem moving_the_focus_leaves_one_input_focused (m : model) (k : tea.Key) :
  reachable m -> model.state m = stateEditTags ->
  tea.isEnter k = false -> tea.isEsc k = false -> tea.isCtrlC k = false ->
  exists m',
    Update (KeyMsg k) m = Done (m', [Cmd.inputFocus; Cmd.widget])
    /\ model.state m' = stateEditTags
    /\ model.focusIndex m' = moved (tea.String k) (model.focusIndex m)
    /\ length (model.tagInputs m') = 5%nat
    /\ forall j t, model.tagInputs m' !! j = Some t ->
         textinput.focus t = (Z.of_nat j =? model.focusIndex m').
Proof.
  intros Hr Es He Hesc Hc. apply reachable_editing in Hr as Hm.
  destruct (updateKey_total_editing k m Hm Es) as (m1 & c1 & Ek).
  pose proof (updateKey_editing k m m1 c1 Hm Ek) as Hm1.
  destruct (updateKey_moves k m m1 c1 Hm Es He Hesc Ek) as (Es1 & Ef1).
  destruct (Hm1 Es1) as (Hlen1 & Hf1 & _).
  (* the inputs and commands of the loop *)
  assert (Hloop : exists m2,
            model.tagInputs m1 = (refocus 0 (model.focusIndex m1) (model.tagInputs m2)).1
            /\ c1 = (refocus 0 (model.focusIndex m1) (model.tagInputs m2)).2
            /\ length (model.tagInputs m2) = 5%nat).
  { destruct (Hm Es) as (Hlen & Hf & _). pose proof (len_five _ Hlen) as Hl.
    revert Ek Ef1. unfold updateKey. rewrite Es, He, Hesc.
    set (ma := if String.eqb (tea.String k) "up" then _ else _).
    set (mb := if model.focusIndex ma <? 0 then _ else _).
    assert (Ha : model.tagInputs ma = model.tagInputs m)
      by (subst ma; destruct (String.eqb _ "up"); [|destruct (String.eqb _ "down")];
          reflexivity).
    assert (Hb : model.tagInputs mb = model.tagInputs m)
      by (subst mb; destruct (_ <? 0); [|destruct (_ >=? _)]; cbn; exact Ha).
    destruct (refocus 0 (model.focusIndex mb) (model.tagInputs mb)) as [inputs cs] eqn:Er.
    intros [= <- <-] _. cbn [model.tagInputs model.set_tagInputs model.focusIndex
                              model.set_focusIndex].
    exists mb. rewrite Er. cbn. rewrite Hb. auto. }
  destruct Hloop as (m2 & Hin & Hcs & Hlen2).
  assert (Hc1 : c1 = [Cmd.inputFocus]).
  { rewrite Hcs. apply refocus_one. rewrite Hlen2. lia. }
  clear Hcs. subst c1.
  (* the second switch *)
  pose proof (len_five _ Hlen1) as Hl1.
  unfold Update. rewrite Hc, Ek. cbn [mbind Result_bind].
  unfold delegate. rewrite Es1, Hl1.
  destruct (Z.ltb_spec (model.focusIndex m1) 5); [|lia].
  destruct (index_in_range (model.tagInputs m1) (model.focusIndex m1)) as (t1 & -> & Ht1);
    [lia|].
  cbn [mbind Result_bind]. rewrite store_in_range by lia. cbn [mbind Result_bind].
  eexists. split; [reflexivity|].
  cbn [model.state model.set_tagInputs model.focusIndex model.tagInputs].
  split; [exact Es1|]. split; [exact Ef1|].
  split; [rewrite length_insert; exact Hlen1|].
  intros j t Hj.
  destruct (decide (j = Z.to_nat (model.focusIndex m1))) as [-> | Hne].
  - rewrite list_lookup_insert_eq in Hj by lia. injection Hj as <-.
    rewrite textinput_Update_focus.
    rewrite Hin, refocus_lookup in Ht1.
    destruct (model.tagInputs m2 !! _) as [t0|]; [|discriminate].
    cbn in Ht1. injection Ht1 as <-.
    replace (0 + Z.of_nat (Z.to_nat (model.focusIndex m1))) with (model.focusIndex m1) by lia.
    rewrite Z.eqb_refl. cbn.
    symmetry. apply Z.eqb_eq. lia.
  - rewrite list_lookup_insert_ne in Hj by congruence.
    rewrite Hin, refocus_lookup in Hj.
    destruct (model.tagInputs m2 !! j) as [t0|]; [|discriminate].
    cbn in Hj. injection Hj as <-.
    replace (0 + Z.of_nat j) with (Z.of_nat j) by lia.
    destruct (Z.eqb_spec (Z.of_nat j) (model.focusIndex m1)) as [E | E]; [|reflexivity].
    exfalso. apply Hne. lia.
Qed.

(** X24.  In the tag editor of a reachable model, Enter on a field
    before the last focuses the next input and blurs none: afterwards
    an input is focused if it was focused before or is the next one, so
    the field left and the field entered are both focused. *)
Theorem enter_focuses_the_next_input_and_blurs_none (m : model) (k : tea.Key) :
  reachable m -> model.state m = stateEditTags -> tea.isEnter k = true ->
  model.focusIndex m < 4 ->
  exists m',
    Update (KeyMsg k) m = Done (m', [Cmd.inputFocus; Cmd.widget])
    /\ model.state m' = stateEditTags
    /\ model.focusIndex m' = model.focusIndex m + 1
    /\ length (model.tagInputs m') = 5%nat
    /\ forall j t, model.tagInputs m' !! j = Some t ->
         exists t0,
           model.tagInputs m !! j = Some t0
           /\ textinput.focus t
              = (textinput.focus t0 || (Z.of_nat j =? model.focusIndex m + 1)).
Proof.
  intros Hr Es He Hlt. apply reachable_editing in Hr as Hm.
  destruct (Hm Es) as (Hlen & Hf & _). pose proof (len_five _ Hlen) as Hl.
  unfold Update. rewrite (enter_is_not_cancel k He).
  unfold updateKey. rewrite Es, He, Hl. rewrite sub_small by lia.
  destruct (Z.eqb_spec (model.focusIndex m) (5 - 1)); [lia|].
  cbn zeta. cbn [model.focusIndex model.set_focusIndex model.tagInputs].
  rewrite add_small by lia.
  destruct (index_in_range (model.tagInputs m) (model.focusIndex m + 1))
    as (t1 & -> & Ht1); [lia|].
  cbn [mbind Result_bind]. rewrite store_in_range by lia. cbn [mbind Result_bind].
  unfold delegate.
  cbn [model.state model.set_tagInputs model.set_focusIndex model.focusIndex
       model.tagInputs].
  rewrite Es.
  assert (Hlen' : length (<[Z.to_nat (model.focusIndex m + 1) := textinput.Focus t1]>
                            (model.tagInputs m)) = 5%nat)
    by (rewrite length_insert; exact Hlen).
  rewrite (len_five _ Hlen').
  destruct (Z.ltb_spec (model.focusIndex m + 1) 5); [|lia].
  destruct (index_in_range
              (<[Z.to_nat (model.focusIndex m + 1) := textinput.Focus t1]>
                 (model.tagInputs m)) (model.focusIndex m + 1))
    as (t2 & -> & Ht2); [rewrite (len_five _ Hlen'); lia|].
  cbn [mbind Result_bind].
  rewrite store_in_range by (rewrite (len_five _ Hlen'); lia).
  cbn [mbind Result_bind].
  rewrite list_lookup_insert_eq in Ht2 by lia. injection Ht2 as <-.
  eexists. split; [reflexivity|].
  cbn [model.state model.set_tagInputs model.set_focusIndex model.focusIndex
       model.tagInputs].
  split; [exact Es|]. split; [reflexivity|].
  split; [rewrite !length_insert; exact Hlen|].
  intros j t Hj.
  destruct (decide (j = Z.to_nat (model.focusIndex m + 1))) as [-> | Hne].
  - rewrite list_lookup_insert_eq in Hj by (rewrite length_insert; lia).
    injection Hj as <-. exists t1. split; [exact Ht1|].
    rewrite textinput_Update_focus. cbn.
    replace (Z.of_nat (Z.to_nat (model.focusIndex m + 1))) with (model.focusIndex m + 1)
      by lia.
    rewrite Z.eqb_refl. now rewrite orb_true_r.
  - rewrite !list_lookup_insert_ne in Hj by congruence.
    exists t. split; [exact Hj|].
    destruct (Z.eqb_spec (Z.of_nat j) (model.focusIndex m + 1)) as [E | E];
      [exfalso; apply Hne; lia|].
    now rewrite orb_false_r.
Qed.

(** X25.  Enter in [stateInput] always dispatches one lookup of the
    text typed, as it is: the URL lookup if it starts with [http], the
    combined search otherwise, so also for the empty text.  The key is
    not handed to the text input. *)
Theorem a_query_is_a_url_by_its_prefix (m : model) (k : tea.Key) :
  model.state m = stateInput -> tea.isEnter k = true ->
  let query := textinput.Value (model.input m) in
  exists m',
    Update (KeyMsg k) m =
      Done (m', [Cmd.spinnerTick;
                 if Go.HasPrefix query "http"
                 then Cmd.getURLInfo (model.ytDlpPath m) query
                 else Cmd.search (model.ytDlpPath m) query])
    /\ model.state m' = (if Go.HasPrefix query "http"
                         then stateFetchingURLInfo else stateSearching)
    /\ model.input m' = model.input m
    /\ (query = "" -> Go.HasPrefix query "http" = false).
Proof.
  intros Es He query. rewrite (enter_in_the_input m k Es He). cbn zeta. fold query.
  destruct (Go.HasPrefix query "http") eqn:Ep; eexists; (split; [reflexivity|]);
    cbn; repeat split; auto; intros E; rewrite E in Ep; discriminate.
Qed.

(** X26.  With no video listed in [stateSelectYT], no key selects
    anything or dispatches a lookup: the only command is the list's own
    (or Quit), the list stays empty, and the state stays, or becomes
    [stateInput] on Esc. *)
Theorem an_empty_video_list_offers_only_the_way_back (m : model) (k : tea.Key) :
  model.state m = stateSelectYT -> blist.items (model.ytResults m) = [] ->
  exists m' cmd,
    Update (KeyMsg k) m = Done (m', [cmd])
    /\ (cmd = Cmd.widget \/ cmd = Cmd.Quit)
    /\ (if tea.isCtrlC k then model.state m' = stateSelectYT
        else if tea.isEsc k then model.state m' = stateInput
        else model.state m' = stateSelectYT)
    /\ blist.items (model.ytResults m') = []
    /\ model.selectedYT m' = model.selectedYT m.
Proof.
  intros Es Hnil.
  assert (Hsel : blist.SelectedItem (model.ytResults m) = None).
  { unfold blist.SelectedItem. rewrite Hnil. now destruct (_ <? 0). }
  unfold Update. destruct (tea.isCtrlC k) eqn:Ec; [eauto 10|].
  unfold updateKey. rewrite Es, Hsel.
  assert (Hlist : exists l c,
            list_Update (KeyMsg k) (model.ytResults m) = (l, c)
            /\ (c = Cmd.widget \/ c = Cmd.Quit) /\ blist.items l = []).
  { cbn. eexists _, _. split; [reflexivity|]. split; [|exact Hnil].
    destruct (listQuits _ _); auto. }
  destruct Hlist as (l & c & Hl & Hc & Hi).
  destruct (tea.isEnter k) eqn:He; [|destruct (tea.isEsc k) eqn:Hesc];
    cbn [mbind Result_bind]; unfold delegate; cbn [model.state model.set_state];
    rewrite ?Es.
  - assert (Hesc : tea.isEsc k = false)
      by (unfold tea.isEnter, tea.isEsc in *; destruct (tea.Typ k); congruence).
    rewrite Hl, Hesc. eexists _, _. split; [reflexivity|]. cbn. auto.
  - eexists _, _. split; [reflexivity|]. cbn. auto.
  - rewrite Hl. eexists _, _. split; [reflexivity|]. cbn. auto.
Qed.





Lemma key_named_esc (k : tea.Key) :
  tea.isEsc k = true ->
  tea.isEnter k = false /\ tea.isCtrlC k = false
  /\ String.eqb (tea.String k) "s" = false.
Proof.
  destruct k as [t r a p]. unfold tea.String, tea.isEnter, tea.isCtrlC, tea.isEsc.
  simpl. destruct t; try discriminate. destruct a; auto.
Qed.

(** X30.  Esc goes back one step, keeping the selections and the tag
    inputs, and the key is then handed to the widget of the state gone
    back to, whose command is the only one returned: the text input
    from the list of videos, the list of videos from the list of
    releases, the list of releases from the list of tracks, the list of
    tracks from the tag editor. *)
Theorem esc_goes_back_and_is_handed_to_the_widget_behind
  (m : model) (k : tea.Key) (back : state) :
  tea.isEsc k = true -> behind (model.state m) = Some back ->
  exists m' cmd,
    Update (KeyMsg k) m = Done (m', [cmd])
    /\ model.state m' = back
    /\ model.selectedYT m' = model.selectedYT m
    /\ model.selectedMB m' = model.selectedMB m
    /\ model.selectedTrack m' = model.selectedTrack m
    /\ model.tagInputs m' = model.tagInputs m
    /\ match back with
       | stateInput =>
           model.input m' = textinput_Update (KeyMsg k) (model.input m)
           /\ cmd = Cmd.widget
       | stateSelectYT =>
           (model.ytResults m', cmd) = list_Update (KeyMsg k) (model.ytResults m)
       | stateSelectMB =>
           (model.mbResults m', cmd) = list_Update (KeyMsg k) (model.mbResults m)
       | stateSelectTrack =>
           (model.tracklist m', cmd) = list_Update (KeyMsg k) (model.tracklist m)
       | _ => False
       end.
Proof.
  intros He Hb. destruct (key_named_esc k He) as (Hent & Hc & Hs).
  unfold Update, updateKey. rewrite Hc.
  destruct (model.state m) eqn:Es; try discriminate;
    injection Hb as <-;
    rewrite Hent, ?Hs, He; cbn [mbind Result_bind]; unfold delegate;
    cbn [model.state model.set_state]; cbn [model.ytResults model.mbResults
      model.tracklist model.input model.set_state];
    try destruct (list_Update _ _) as [l c] eqn:El;
    eexists _, _; (split; [reflexivity|]); cbn; auto 10.
Qed.

(** X29.  In [stateConfirmSkipMB] the key is read by its name, without
    regard to case: [y] and [enter] start the tagless download of the
    selected video, [n] and [esc] go back to the list of videos (which
    is then handed the key), and every other key but Ctrl+C, a key held
    with Alt included, is ignored. *)
Theorem the_confirmation_reads_the_key_name_without_case (m : model) (k : tea.Key) :
  model.state m = stateConfirmSkipMB -> tea.isCtrlC k = false ->
  let name := Go.ToLower (tea.String k) in
  (name = "y" \/ name = "enter" ->
     Update (KeyMsg k) m =
     Done (model.set_statusMsg "タグ無しでダウンロード中です..."
             (model.set_state stateDownloading m),
           [Cmd.spinnerTick;
            Cmd.simpleDownload (model.ytDlpPath m) (model.ffmpegPath m)
                               (model.selectedYT m)]))
  /\ (name = "n" \/ name = "esc" ->
      Update (KeyMsg k) m =
      Done (model.set_ytResults (list_Update (KeyMsg k) (model.ytResults m)).1
              (model.set_state stateSelectYT m),
            [(list_Update (KeyMsg k) (model.ytResults m)).2]))
  /\ (name <> "y" -> name <> "enter" -> name <> "n" -> name <> "esc" ->
      Update (KeyMsg k) m = Done (m, [])).
Proof.
  intros Es Hc name. unfold Update, updateKey. rewrite Hc, Es. cbn zeta. fold name.
  split; [|split].
  - intros [-> | ->]; cbn [String.eqb Ascii.eqb Bool.eqb orb mbind Result_bind];
      unfold delegate; reflexivity.
  - intros [-> | ->]; cbn [String.eqb Ascii.eqb Bool.eqb orb mbind Result_bind];
      unfold delegate; cbn [model.state model.set_state model.ytResults];
      destruct (list_Update _ _); reflexivity.
  - intros H1 H2 H3 H4.
    apply String.eqb_neq in H1, H2, H3, H4. rewrite H1, H2, H3, H4.
    cbn [orb mbind Result_bind]. unfold delegate. rewrite Es. reflexivity.
Qed.

End Wizard.

(** ** The sample session, continued *)

(** The sample download makes seven requests, the last of which removes
    the scratch directory. *)
Lemma downloadCmd_asks_for_everything_and_cleans_up_witness :
  Item.meta sample.releaseEntry = MetaRelease sample.release
  /\ exists io,
       downloadCmd sample.online sample.ytDlp sample.ffmpeg sample.videoEntry
                   sample.releaseEntry sample.tags = Done io
       /\ last (trace io) = Some (Removed "GoMusicDownloader/temp/gomusicdl_1")
       /\ length (trace io) = 7%nat.
Proof.
  assert (Hm : Item.meta sample.releaseEntry = MetaRelease sample.release)
    by reflexivity.
  split; [exact Hm|].
  destruct (downloadCmd_asks_for_everything_and_cleans_up sample.online sample.ytDlp
              sample.ffmpeg sample.videoEntry sample.releaseEntry sample.tags
              sample.release Hm) as (io & Hio & Htrace).
  exists io. split; [exact Hio|].
  cbn in Htrace. rewrite Htrace. split; vm_compute; reflexivity.
Defined.

(** The sample download finds lyrics and reports the marked name. *)
Lemma found_lyrics_are_embedded_witness :
  exists io,
    downloadCmd sample.online sample.ytDlp sample.ffmpeg sample.videoEntry
                sample.releaseEntry sample.tags = Done io
    /\ value io =
       downloadFinishedMsg
         "GoMusicDownloader/downloads/Artist B - Song B.flac (歌詞付き)" None.
Proof.
  destruct (found_lyrics_are_embedded_and_mark_the_reported_name sample.online
              sample.ytDlp sample.ffmpeg sample.videoEntry sample.releaseEntry
              sample.tags sample.release "GoMusicDownloader/temp/gomusicdl_1"
              eq_refl eq_refl eq_refl eq_refl)
    as (io & Hio & _ & Hwords).
  exists io. split; [exact Hio|].
  destruct Hwords as (Hv & _); [vm_compute; discriminate|].
  rewrite Hv. vm_compute. reflexivity.
Defined.

(** The search for which yt-dlp prints nothing. *)
Lemma a_search_that_prints_nothing_witness :
  value (searchYouTube sample.barren sample.ytDlp "zzz") = ([], None)
  /\ value (searchCmd sample.barren sample.ytDlp "zzz") = searchFinishedMsg [] [] None.
Proof.
  destruct (a_search_that_prints_nothing_lists_no_video sample.barren sample.ytDlp "zzz")
    as (Hy & Hs).
  - reflexivity.
  - intros c Hc. vm_compute in Hc. destruct Hc.
  - reflexivity.
  - split; [exact Hy|]. apply Hs. vm_compute. reflexivity.
Defined.

(** The sample release is an album, and is listed without its type. *)
Lemma release_search_shows_no_type_witness :
  exists i,
    value (doMusicBrainzSearch sample.online "Song B") = inl [i]
    /\ Item.desc i = "Artist B (2020-01-01) []".
Proof.
  destruct (release_search_ignores_the_status_and_shows_no_type sample.online "Song B")
    as (_ & Hshown).
  destruct (value (doMusicBrainzSearch sample.online "Song B")) as [[|i [|]]|] eqn:E;
    try (vm_compute in E; discriminate).
  exists i. split; [reflexivity|].
  specialize (Hshown [i] eq_refl). apply Forall_inv in Hshown.
  destruct Hshown as (r & Hr & _ & _ & Hd). rewrite Hd.
  vm_compute in E. injection E as <-. cbn in Hr. injection Hr as <-.
  reflexivity.
Defined.

(** The lyrics lookup with the network down. *)
Lemma getLyrics_empty_on_failure_witness :
  Get sample.offline (lyricsURL sample.offline "Artist B" "Song B" "Album B" 215)
  = HttpFailed "dial tcp: network is unreachable"
  /\ value (getLyrics sample.offline "Artist B" "Song B" "Album B" 215) = "".
Proof.
  split; [reflexivity|].
  destruct (getLyrics_empty_on_failure sample.offline "Artist B" "Song B" "Album B" 215)
    as (Hfail & _).
  apply (Hfail "dial tcp: network is unreachable"). reflexivity.
Defined.


(** The download of the sample session asks for no group cover. *)
Lemma dispatched_download_asks_no_group_witness :
  reachable (sample.after sample.toLastTag)
  /\ exists m' mb tags r,
       Update (KeyMsg (tea.press tea.KeyEnter)) (sample.after sample.toLastTag)
       = Done (m', [Cmd.spinnerTick;
                    Cmd.download sample.ytDlp sample.ffmpeg
                      (model.selectedYT (sample.after sample.toLastTag)) mb tags])
       /\ Item.meta mb = MetaRelease r
       /\ ~ In (Requested (groupCoverURL r))
              (trace (fetchCover sample.online "tmp" r)).
Proof.
  assert (Hr : reachable (sample.after sample.toLastTag))
    by (apply reachable_after; eexists; vm_compute; reflexivity).
  split; [exact Hr|].
  destruct (Update (KeyMsg (tea.press tea.KeyEnter)) (sample.after sample.toLastTag))
    as [[m' cmds]|] eqn:Hu; [|vm_compute in Hu; discriminate].
  destruct cmds as [|c0 [|[] [|]]]; try (vm_compute in Hu; discriminate).
  destruct (dispatched_download_asks_no_group _ _ _ _ _ _ _ _ _ Hr Hu
              (or_intror (or_introl eq_refl))) as (r & Hmeta & Hno).
  assert (E0 : c0 = Cmd.spinnerTick /\ ytDlpPath = sample.ytDlp
               /\ ffmpegPath = sample.ffmpeg
               /\ selectedYT = model.selectedYT (sample.after sample.toLastTag)).
  { vm_compute in Hu. injection Hu as _ <- <- <- <- . repeat split. }
  destruct E0 as (-> & -> & -> & ->).
  exists m', selectedMB, tags, r. split; [reflexivity|]. split; [exact Hmeta|].
  apply Hno.
Defined.

(** On a machine without the tools, a key leads to the input. *)
Lemma a_missing_tool_does_not_block_the_input_witness :
  exists m,
    play [Completed 0 sample.bare; Pressed (tea.runes "x"); Completed 0 sample.bare]
         start
    = Running (mkProgram m [Cmd.textinputBlink; Cmd.widget])
    /\ model.state m = stateInput /\ model.ytDlpPath m = "".
Proof.
  destruct (a_missing_tool_does_not_block_the_input sample.bare (tea.runes "x")
              "executable file not found in $PATH" "no such file or directory"
              eq_refl eq_refl eq_refl) as (m & Hplay & Hs & Hy & _).
  exists m. auto.
Defined.

(** On a machine without the tools, the first check ends in an error. *)
Lemma error_state_has_an_error_witness :
  reachable (sample.after [Completed 0 sample.bare])
  /\ model.state (sample.after [Completed 0 sample.bare]) = stateError
  /\ exists e, model.error (sample.after [Completed 0 sample.bare]) = Some e.
Proof.
  assert (Hr : reachable (sample.after [Completed 0 sample.bare]))
    by (apply reachable_after; eexists; vm_compute; reflexivity).
  assert (Hs : model.state (sample.after [Completed 0 sample.bare]) = stateError)
    by (vm_compute; reflexivity).
  split; [exact Hr|]. split; [exact Hs|].
  exact (error_state_has_an_error _ Hr Hs).
Defined.


(** Enter on the last tag of the sample session starts the download. *)
Lemma downloads_start_from_a_key_witness :
  exists m' c,
    Update (KeyMsg (tea.press tea.KeyEnter)) (sample.after sample.toLastTag)
    = Done (m', [Cmd.spinnerTick; c])
    /\ Cmd.isDownload c = true
    /\ model.state m' = stateDownloading.
Proof.
  destruct (Update (KeyMsg (tea.press tea.KeyEnter)) (sample.after sample.toLastTag))
    as [[m' cmds]|] eqn:Hu; [|vm_compute in Hu; discriminate].
  destruct cmds as [|c0 [|c [|]]]; try (vm_compute in Hu; discriminate).
  assert (E : c0 = Cmd.spinnerTick /\ Cmd.isDownload c = true).
  { vm_compute in Hu. injection Hu as _ <- <-. split; reflexivity. }
  destruct E as (-> & Hd).
  destruct (downloads_start_from_a_key_in_two_states _ _ _ _ c Hu
              (or_intror (or_introl eq_refl)) Hd) as (Hs & _).
  exists m', c. auto.
Defined.

(** Down in the list of videos of the sample session. *)
Lemma a_key_changes_neither_lists_nor_tools_witness :
  exists m' cmds,
    Update (KeyMsg (tea.press tea.KeyDown)) (sample.after sample.toVideos)
    = Done (m', cmds)
    /\ blist.items (model.ytResults m')
       = blist.items (model.ytResults (sample.after sample.toVideos))
    /\ model.ytDlpPath m' = sample.ytDlp.
Proof.
  destruct (Update (KeyMsg (tea.press tea.KeyDown)) (sample.after sample.toVideos))
    as [[m' cmds]|] eqn:Hu; [|vm_compute in Hu; discriminate].
  destruct (a_key_changes_neither_lists_nor_tools _ _ _ _ Hu)
    as (Hy & _ & _ & Hp & _).
  exists m', cmds. split; [reflexivity|]. split; [exact Hy|].
  rewrite Hp. vm_compute. reflexivity.
Defined.

(** A resize while the tags of the sample session are edited. *)
Lemma a_resize_changes_only_the_sizes_witness :
  reachable (sample.after sample.toTags)
  /\ exists m' cmds,
       Update (WindowSizeMsg 80 24) (sample.after sample.toTags) = Done (m', cmds)
       /\ model.width m' = 80 /\ model.height m' = 24
       /\ model.tagInputs m' = model.tagInputs (sample.after sample.toTags).
Proof.
  assert (Hr : reachable (sample.after sample.toTags))
    by (apply reachable_after; eexists; vm_compute; reflexivity).
  split; [exact Hr|].
  destruct (a_resize_changes_only_the_sizes (sample.after sample.toTags) 80 24 Hr)
    as (m' & cmds & Hu & _ & Hw & Hh & _ & _ & _ & _ & _ & Ht & _).
  exists m', cmds. auto.
Defined.

(** Enter on the first track of the sample release. *)
Lemma selecting_a_track_prefills_the_five_tags_witness :
  exists m',
    Update (KeyMsg (tea.press tea.KeyEnter)) (sample.after sample.toTracks)
    = Done (m', [Cmd.inputFocus; Cmd.widget])
    /\ map textinput.Value (model.tagInputs m')
       = ["Intro"; "Artist B"; "Album B"; "2020-01-01"; "1"]
    /\ map textinput.focus (model.tagInputs m') = [true; false; false; false; false].
Proof.
  pose (t := MBTrack.mk "t1" "Intro" "1" 61000 zeroRecording).
  pose (i := Item.mk "Intro" "Track 1 (CD)" "" "" "Artist B" "" (MetaTrack t)).
  pose (r := MBRelease.mk "r1" "Album B" [MBArtist.mk "Artist B" ""] "2020-01-01" []
                          zeroReleaseGroup).
  assert (Es : model.state (sample.after sample.toTracks) = stateSelectTrack)
    by (vm_compute; reflexivity).
  assert (Ei : blist.SelectedItem (model.tracklist (sample.after sample.toTracks))
               = Some i) by (vm_compute; reflexivity).
  assert (Er : Item.meta (model.selectedMB (sample.after sample.toTracks))
               = MetaRelease r) by (vm_compute; reflexivity).
  destruct (selecting_a_track_prefills_the_five_tags (sample.after sample.toTracks)
              (tea.press tea.KeyEnter) i r t Es eq_refl Ei Er eq_refl)
    as (m' & Hu & _ & _ & _ & _ & Hin & Hfoc).
  exists m'. split; [exact Hu|]. split; [|exact Hfoc].
  rewrite Hin. vm_compute. reflexivity.
Defined.

(** Down on the first tag of the sample session. *)
Lemma moving_the_focus_leaves_one_input_focused_witness :
  reachable (sample.after sample.toTags)
  /\ exists m',
       Update (KeyMsg (tea.press tea.KeyDown)) (sample.after sample.toTags)
       = Done (m', [Cmd.inputFocus; Cmd.widget])
       /\ model.focusIndex m' = 1.
Proof.
  assert (Hr : reachable (sample.after sample.toTags))
    by (apply reachable_after; eexists; vm_compute; reflexivity).
  split; [exact Hr|].
  destruct (moving_the_focus_leaves_one_input_focused (sample.after sample.toTags)
              (tea.press tea.KeyDown) Hr ltac:(vm_compute; reflexivity)
              eq_refl eq_refl eq_refl)
    as (m' & Hu & _ & Hf & _).
  exists m'. split; [exact Hu|]. rewrite Hf. vm_compute. reflexivity.
Defined.

(** Enter on the first tag of the sample session: the first two inputs
    are focused. *)
Lemma enter_focuses_the_next_input_and_blurs_none_witness :
  reachable (sample.after sample.toTags)
  /\ exists m',
       Update (KeyMsg (tea.press tea.KeyEnter)) (sample.after sample.toTags)
       = Done (m', [Cmd.inputFocus; Cmd.widget])
       /\ map textinput.focus (model.tagInputs m') = [true; true; false; false; false].
Proof.
  assert (Hr : reachable (sample.after sample.toTags))
    by (apply reachable_after; eexists; vm_compute; reflexivity).
  split; [exact Hr|].
  destruct (enter_focuses_the_next_input_and_blurs_none (sample.after sample.toTags)
              (tea.press tea.KeyEnter) Hr ltac:(vm_compute; reflexivity) eq_refl
              ltac:(vm_compute; reflexivity))
    as (m' & Hu & _ & _ & _ & _).
  exists m'. split; [exact Hu|].
  assert (E : Update (KeyMsg (tea.press tea.KeyEnter)) (sample.after sample.toTags)
              = Done (m', [Cmd.inputFocus; Cmd.widget])) by exact Hu.
  vm_compute in E. injection E as <-. vm_compute. reflexivity.
Defined.

(** Enter on the empty input of the sample session searches for the
    empty text. *)
Lemma a_query_is_a_url_by_its_prefix_witness :
  exists m',
    Update (KeyMsg (tea.press tea.KeyEnter)) (sample.after sample.toQuery)
    = Done (m', [Cmd.spinnerTick; Cmd.search sample.ytDlp ""])
    /\ model.state m' = stateSearching.
Proof.
  destruct (a_query_is_a_url_by_its_prefix (sample.after sample.toQuery)
              (tea.press tea.KeyEnter) ltac:(vm_compute; reflexivity) eq_refl)
    as (m' & Hu & Hs & _).
  exists m'. split; [exact Hu | exact Hs].
Defined.

(** Enter on the empty list of videos changes nothing. *)
Lemma an_empty_video_list_offers_only_the_way_back_witness :
  reachable (sample.after sample.toNothing)
  /\ exists m' cmd,
       Update (KeyMsg (tea.press tea.KeyEnter)) (sample.after sample.toNothing)
       = Done (m', [cmd])
       /\ model.state m' = stateSelectYT.
Proof.
  split; [apply reachable_after; eexists; vm_compute; reflexivity|].
  destruct (an_empty_video_list_offers_only_the_way_back
              (sample.after sample.toNothing) (tea.press tea.KeyEnter)
              ltac:(vm_compute; reflexivity) ltac:(vm_compute; reflexivity))
    as (m' & cmd & Hu & _ & Hs & _).
  exists m', cmd. split; [exact Hu | exact Hs].
Defined.

(** Esc on the list of releases of the sample session goes back to the
    list of videos and, that list binding Esc to quit, asks to quit. *)
Lemma esc_goes_back_and_is_handed_to_the_widget_behind_witness :
  exists m',
    Update (KeyMsg (tea.press tea.KeyEsc)) (sample.after sample.toReleases)
    = Done (m', [Cmd.Quit])
    /\ model.state m' = stateSelectYT.
Proof.
  destruct (esc_goes_back_and_is_handed_to_the_widget_behind
              (sample.after sample.toReleases) (tea.press tea.KeyEsc) stateSelectYT
              eq_refl ltac:(vm_compute; reflexivity))
    as (m' & cmd & Hu & Hs & _ & _ & _ & _ & Hl).
  vm_compute in Hl. injection Hl as _ ->.
  exists m'. split; [exact Hu | exact Hs].
Defined.

(** A capital Y starts the tagless download of the sample video. *)
Lemma the_confirmation_reads_the_key_name_without_case_witness :
  reachable (sample.after sample.toSkip)
  /\ exists m',
       Update (KeyMsg (tea.runes "Y")) (sample.after sample.toSkip)
       = Done (m', [Cmd.spinnerTick;
                    Cmd.simpleDownload
                      (model.ytDlpPath (sample.after sample.toSkip))
                      (model.ffmpegPath (sample.after sample.toSkip))
                      (model.selectedYT (sample.after sample.toSkip))])
       /\ model.state m' = stateDownloading.
Proof.
  split; [apply reachable_after; eexists; vm_compute; reflexivity|].
  destruct (the_confirmation_reads_the_key_name_without_case
              (sample.after sample.toSkip) (tea.runes "Y")
              ltac:(vm_compute; reflexivity) eq_refl) as (Hy & _).
  eexists. split; [apply Hy; left; reflexivity|]. reflexivity.
Defined.
